(** * mitum-data-blocksign: the digest store, its pagination and its HTTP handlers

    A shallow embedding of [digest/database.go], [digest/digest.go] and of the
    account handlers, together with the properties of the design document that
    concern them.

    Conventions.
    - [base.Height] is a signed 64-bit integer, carried as [Z]; [uint64]
      indexes are carried as [Z] with the wrap-around written out where the
      Go code can overflow.
    - Go strings are [string]; [error] values carry the sentinel they wrap
      (what [xerrors.Is] looks at) and a message.
    - The MongoDB client is an in-memory store: a collection is the list of
      its documents in insertion order.  The store records whether the server
      answers; when it does not, every call of the client returns an error,
      which keeps the [err != nil] branches of the Go code reachable.  A
      query that makes several lookups can find the server gone between two
      of them ([answering], [Account_during]). *)

From Stdlib Require Import ZArith Lia List Ascii String.
From stdpp Require Import base list strings gmap sorting.

Local Open Scope Z_scope.

(** ** Errors *)

(** The sentinels tested with [xerrors.Is] in the handlers. *)
Inductive errkind :=
| ErrNotFound       (* util.NotFoundError *)
| ErrBadRequest     (* quicnetwork.BadRequestError *)
| ErrNotSupported   (* quicnetwork.NotSupportedErorr *)
| ErrOther.         (* any other error: storage, encoding, xerrors.Errorf *)

Record error := mkError { err_kind : errkind; err_msg : string }.

Definition errkind_eqb (a b : errkind) : bool :=
  match a, b with
  | ErrNotFound, ErrNotFound | ErrBadRequest, ErrBadRequest
  | ErrNotSupported, ErrNotSupported | ErrOther, ErrOther => true
  | _, _ => false
  end.

(** [xerrors.Is(err, sentinel)] *)
Definition Is (e : error) (k : errkind) : bool := errkind_eqb (err_kind e) k.

(** [xerrors.Errorf(msg)] and [sentinel.Errorf(msg)] *)
Definition Errorf (msg : string) : error := mkError ErrOther msg.
Definition NotFoundError_Errorf (msg : string) : error := mkError ErrNotFound msg.

Inductive result (A : Type) :=
| Ok (a : A)
| Err (e : error).
Arguments Ok {A} a.
Arguments Err {A} e.

(** ** Heights (mitum [base.Height]) *)

Definition Height := Z.
Definition NilHeight : Height := -2.
Definition PreGenesisHeight : Height := -1.
Definition GenesisHeight : Height := 0.

Definition minInt64 : Z := - 2 ^ 63.
Definition maxInt64 : Z := 2 ^ 63 - 1.
Definition maxUint64 : Z := 2 ^ 64 - 1.

Definition is_int64 (z : Z) : Prop := minInt64 <= z <= maxInt64.
Definition is_uint64 (z : Z) : Prop := 0 <= z <= maxUint64.

(** [int64(u)] for an unsigned [u], and negation of an [int64]: two's
    complement wrap-around. *)
Definition wrap_int64 (z : Z) : Z := (z + 2 ^ 63) mod 2 ^ 64 - 2 ^ 63.
Definition wrap_uint64 (z : Z) : Z := z mod 2 ^ 64.

(** ** strconv and fmt, base 10 *)

Inductive NumError := ErrSyntax | ErrRange.

(** The value of a byte as a decimal digit.  In [strconv.ParseUint] a letter
    gives a digit value of 10 or more, which base 10 refuses like any other
    byte, and ['_'] is accepted with base 0 only. *)
Definition digit_of (c : ascii) : option Z :=
  let n := Z.of_N (N_of_ascii c) in
  if (48 <=? n) && (n <=? 57) then Some (n - 48) else None.

Definition digit_char (d : Z) : ascii := ascii_of_N (Z.to_N (48 + d)).

(** The loop of [strconv.ParseUint(s, 10, 64)]: [cutoff = maxUint64/10 + 1],
    [maxVal = 1<<64 - 1]. *)
Definition cutoff64 : Z := maxUint64 / 10 + 1.

Fixpoint ParseUint_loop (s : string) (n : Z) : NumError + Z :=
  match s with
  | EmptyString => inr n
  | String c s' =>
      match digit_of c with
      | None => inl ErrSyntax
      | Some d =>
          if n >=? cutoff64 then inl ErrRange      (* n*base overflows *)
          else
            let n10 := n * 10 in
            let n1 := wrap_uint64 (n10 + d) in
            if (n1 <? n10) || (n1 >? maxUint64) then inl ErrRange
            else ParseUint_loop s' n1
      end
  end.

Definition ParseUint (s : string) : NumError + Z :=
  match s with
  | EmptyString => inl ErrSyntax
  | _ => ParseUint_loop s 0
  end.

(** [strconv.ParseInt(s, 10, 64)] *)
Definition ParseInt (s0 : string) : NumError + Z :=
  match s0 with
  | EmptyString => inl ErrSyntax
  | String c s' =>
      let '(neg, s) :=
        if Ascii.eqb c "+" then (false, s')
        else if Ascii.eqb c "-" then (true, s')
        else (false, s0) in
      match ParseUint s with
      | inl ErrSyntax => inl ErrSyntax
      | r =>
          (* on a range error ParseUint has returned maxVal *)
          let un := match r with inr u => u | inl _ => maxUint64 end in
          let cutoff := 2 ^ 63 in
          if negb neg && (un >=? cutoff) then inl ErrRange
          else if neg && (un >? cutoff) then inl ErrRange
          else
            let n := wrap_int64 un in
            inr (if neg then wrap_int64 (- n) else n)
      end
  end.

(** The digits of [u], most significant first; [strconv] fills a buffer from
    its end dividing by ten.  A [uint64] has at most 20 digits. *)
Fixpoint formatBits (fuel : nat) (u : Z) : string :=
  match fuel with
  | O => EmptyString
  | S f =>
      (if u <? 10 then EmptyString else formatBits f (u / 10))
        +:+ String (digit_char (u mod 10)) EmptyString
  end.

Definition FormatUint (u : Z) : string := formatBits 20 u.

Definition FormatInt (i : Z) : string :=
  if i <? 0 then String "-" (FormatUint (- i)) else FormatUint i.

(** [strings.SplitN(s, ",", 2)]: cut at the first comma, if there is one. *)
Fixpoint cut_comma (s : string) : option (string * string) :=
  match s with
  | EmptyString => None
  | String c s' =>
      if Ascii.eqb c "," then Some (EmptyString, s')
      else match cut_comma s' with
           | Some (a, b) => Some (String c a, b)
           | None => None
           end
  end.

Definition SplitN_comma_2 (s : string) : list string :=
  match cut_comma s with
  | None => [s]
  | Some (a, b) => [a; b]
  end.

(** ** Offsets ([digest/database.go]) *)

(** [base.NewHeightFromString] of mitum: [strconv.ParseInt(s, 10, 64)]. *)
Definition NewHeightFromString (s : string) : result Height :=
  match ParseInt s with
  | inr i => Ok i
  | inl _ => Err (Errorf "strconv.ParseInt")
  end.

Definition parseOffset (s : string) : result (Height * Z) :=
  match SplitN_comma_2 s with
  | [] => Err (Errorf "invalid offset string")
  | [_] => Err (Errorf "invalid offset")
  | n0 :: n1 :: _ =>
      match NewHeightFromString n0 with
      | Err _ => Err (Errorf "invalid height of offset")
      | Ok h =>
          match ParseUint n1 with
          | inl _ => Err (Errorf "invalid index of offset")
          | inr u => Ok (h, u)
          end
      end
  end.

(** [fmt.Sprintf("%d,%d", height, index)] *)
Definition buildOffset (height : Height) (index : Z) : string :=
  FormatInt height +:+ "," +:+ FormatUint index.

(** ** Values and documents of the digest collections *)

(** A [base.Address] is carried as its string; a [valuehash.Hash] and a
    [currency.CurrencyID] likewise. *)
Definition Address := string.
Definition Hash := string.
Definition CurrencyID := string.

(** Modelled from the spec: [currency.StateAddressKeyPrefix] is not among the
    sources of this development; records are indexed under "every
    participant's address", the key of an address is its string. *)
Definition StateAddressKeyPrefix (a : Address) : string := a.

Record Amount := mkAmount { am_big : Z; am_cid : CurrencyID }.

(** [currency.Account] *)
Record CurrencyAccount := mkAccount { ac_address : Address }.

(** [AccountValue]: the fields set by [unpack] in [doc_account.go]. *)
Record AccountValue := mkAccountValue {
  av_ac : CurrencyAccount;
  av_balance : list Amount;
  av_height : Height;
  av_previousHeight : Height;
}.

Definition SetBalance (va : AccountValue) (balance : list Amount) : AccountValue :=
  mkAccountValue (av_ac va) balance (av_height va) (av_previousHeight va).
Definition SetHeight (va : AccountValue) (h : Height) : AccountValue :=
  mkAccountValue (av_ac va) (av_balance va) h (av_previousHeight va).
Definition SetPreviousHeight (va : AccountValue) (h : Height) : AccountValue :=
  mkAccountValue (av_ac va) (av_balance va) (av_height va) h.

(** A balance [state.State]: [NewBalanceDoc] refuses a state whose value is
    not an [Amount], so the value of a stored balance state is one. *)
Record State := mkState {
  st_height : Height;
  st_previousHeight : Height;
  st_value : Amount;
}.

(** [OperationValue]: the fields written by [MarshalBSON]. *)
Record OperationValue := mkOperationValue {
  ov_fact : Hash;             (* va.Operation().Fact().Hash() *)
  ov_height : Height;
  ov_index : Z;
  ov_inState : bool;
}.

(** The zero value [OperationValue{}] handed over when [load] is false. *)
Definition OperationValue_zero : OperationValue := mkOperationValue "" 0 0 false.

(** [AccountDoc.MarshalBSON]: [address], [height] and the value. *)
Record AccountDoc := mkAccountDoc {
  acd_address : string;
  acd_height : Height;
  acd_value : AccountValue;
}.

Definition NewAccountDoc (rs : AccountValue) : AccountDoc :=
  mkAccountDoc (StateAddressKeyPrefix (ac_address (av_ac rs))) (av_height rs) rs.

(** [BalanceDoc.MarshalBSON]: [address] is cut out of the state's key,
    [currency] and [height] are read off the state. *)
Record BalanceDoc := mkBalanceDoc {
  bl_address : string;
  bl_st : State;
}.
Definition bl_currency (d : BalanceDoc) : string := am_cid (st_value (bl_st d)).
Definition bl_height (d : BalanceDoc) : Height := st_height (bl_st d).

(** A document of [digest_op]: the fields the queries filter and sort on,
    and the stored value. *)
Record OperationDoc := mkOperationDoc {
  od_addresses : list string;
  od_fact : Hash;
  od_height : Height;
  od_index : Z;
  od_value : OperationValue;
}.

Record DocumentDoc := mkDocumentDoc { dm_address : string; dm_height : Height }.
Record FileDataDoc := mkFileDataDoc { fd_address : string; fd_height : Height }.

(** ** The MongoDB client *)

Inductive ColName :=
| defaultColNameAccount     (* "digest_ac" *)
| defaultColNameDocument    (* "digest_dm" *)
| defaultColNameBalance     (* "digest_bl" *)
| defaultColNameOperation   (* "digest_op" *)
| defaultColNameFileData.   (* "digest_fd" *)

Definition DigestStorageLastBlockKey : string := "digest_last_block".

Definition maxLimit : Z := 50.

(** [down] tells whether the server answers: when it is set, every call of
    the client returns an error and changes nothing. *)
Record Mongo := mkMongo {
  col_ac : list AccountDoc;
  col_dm : list DocumentDoc;
  col_bl : list BalanceDoc;
  col_op : list OperationDoc;
  col_fd : list FileDataDoc;
  info : gmap string Z;
  down : bool;
}.

Definition mongo_error : error := Errorf "mongodb: server selection error".
Definition WrapStorageError (e : error) : error :=
  mkError ErrOther ("storage error: " +:+ err_msg e).

(** The heights of the documents of a collection, in storage order. *)
Definition col_heights (c : ColName) (m : Mongo) : list Height :=
  match c with
  | defaultColNameAccount => acd_height <$> col_ac m
  | defaultColNameDocument => dm_height <$> col_dm m
  | defaultColNameBalance => bl_height <$> col_bl m
  | defaultColNameOperation => od_height <$> col_op m
  | defaultColNameFileData => fd_height <$> col_fd m
  end.

(** [Collection(col).Drop(ctx)] *)
Definition Drop (c : ColName) (m : Mongo) : option error * Mongo :=
  if down m then (Some mongo_error, m)
  else (None,
    match c with
    | defaultColNameAccount =>
        mkMongo [] (col_dm m) (col_bl m) (col_op m) (col_fd m) (info m) (down m)
    | defaultColNameDocument =>
        mkMongo (col_ac m) [] (col_bl m) (col_op m) (col_fd m) (info m) (down m)
    | defaultColNameBalance =>
        mkMongo (col_ac m) (col_dm m) [] (col_op m) (col_fd m) (info m) (down m)
    | defaultColNameOperation =>
        mkMongo (col_ac m) (col_dm m) (col_bl m) [] (col_fd m) (info m) (down m)
    | defaultColNameFileData =>
        mkMongo (col_ac m) (col_dm m) (col_bl m) (col_op m) [] (info m) (down m)
    end).

(** [Collection(col).BulkWrite] of one
    [DeleteMany {"height": {"$gte": height}}]. *)
Definition keep_below {D} (hgt : D -> Height) (height : Height) (l : list D) : list D :=
  List.filter (fun d => hgt d <? height) l.

Definition BulkWrite_removeByHeight (c : ColName) (height : Height) (m : Mongo)
  : option error * Mongo :=
  if down m then (Some mongo_error, m)
  else (None,
    match c with
    | defaultColNameAccount =>
        mkMongo (keep_below acd_height height (col_ac m))
                (col_dm m) (col_bl m) (col_op m) (col_fd m) (info m) (down m)
    | defaultColNameDocument =>
        mkMongo (col_ac m) (keep_below dm_height height (col_dm m))
                (col_bl m) (col_op m) (col_fd m) (info m) (down m)
    | defaultColNameBalance =>
        mkMongo (col_ac m) (col_dm m) (keep_below bl_height height (col_bl m))
                (col_op m) (col_fd m) (info m) (down m)
    | defaultColNameOperation =>
        mkMongo (col_ac m) (col_dm m) (col_bl m)
                (keep_below od_height height (col_op m)) (col_fd m) (info m) (down m)
    | defaultColNameFileData =>
        mkMongo (col_ac m) (col_dm m) (col_bl m) (col_op m)
                (keep_below fd_height height (col_fd m)) (info m) (down m)
    end).

(** [SetInfo(key, height.Bytes())] *)
Definition SetInfo (key : string) (v : Z) (m : Mongo) : option error * Mongo :=
  if down m then (Some mongo_error, m)
  else (None,
        mkMongo (col_ac m) (col_dm m) (col_bl m) (col_op m) (col_fd m)
                (<[key := v]> (info m)) (down m)).

(** ** Database ([digest/database.go]) *)

Record Database := mkDatabase {
  database : Mongo;
  readonly : bool;
  lastBlock : Height;
}.

Definition with_database (st : Database) (m : Mongo) : Database :=
  mkDatabase m (readonly st) (lastBlock st).

Definition NewDatabase (m : Mongo) : Database := mkDatabase m false NilHeight.
Definition NewReadonlyDatabase (m : Mongo) : Database := mkDatabase m true NilHeight.

Definition LastBlock (st : Database) : Height := lastBlock st.

Definition setLastBlock (height : Height) (st : Database) : option error * Database :=
  match SetInfo DigestStorageLastBlockKey height (database st) with
  | (Some err, m) => (Some err, with_database st m)
  | (None, m) => (None, mkDatabase m (readonly st) height)
  end.

Definition SetLastBlock (height : Height) (st : Database) : option error * Database :=
  if readonly st then (Some (Errorf "readonly mode"), st)
  else if height <=? lastBlock st then (None, st)
  else setLastBlock height st.

(** The loop of [clean] over the five collection names. *)
Fixpoint drop_collections (cols : list ColName) (m : Mongo) : option error * Mongo :=
  match cols with
  | [] => (None, m)
  | col :: cols' =>
      match Drop col m with
      | (Some err, m') => (Some (WrapStorageError err), m')
      | (None, m') => drop_collections cols' m'
      end
  end.

Definition clean (st : Database) : option error * Database :=
  match drop_collections
          [defaultColNameAccount; defaultColNameDocument; defaultColNameBalance;
           defaultColNameOperation; defaultColNameFileData] (database st) with
  | (Some err, m) => (Some err, with_database st m)
  | (None, m) => setLastBlock NilHeight (with_database st m)
  end.

Definition Clean (st : Database) : option error * Database :=
  if readonly st then (Some (Errorf "readonly mode"), st) else clean st.

(** The loop of [cleanByHeight] over its collection names. *)
Fixpoint remove_collections (cols : list ColName) (height : Height) (m : Mongo)
  : option error * Mongo :=
  match cols with
  | [] => (None, m)
  | col :: cols' =>
      match BulkWrite_removeByHeight col height m with
      | (Some err, m') => (Some (WrapStorageError err), m')
      | (None, m') => remove_collections cols' height m'
      end
  end.

Definition cleanByHeight (height : Height) (st : Database) : option error * Database :=
  if height <=? PreGenesisHeight + 1 then clean st
  else
    match remove_collections
            [defaultColNameAccount; defaultColNameDocument; defaultColNameBalance;
             defaultColNameOperation] height (database st) with
    | (Some err, m) => (Some err, with_database st m)
    | (None, m) => setLastBlock (height - 1) (with_database st m)
    end.

Definition CleanByHeight (height : Height) (st : Database) : option error * Database :=
  if readonly st then (Some (Errorf "readonly mode"), st) else cleanByHeight height st.

(** ** Queries *)

(** The filters the code builds, as MongoDB reads them.  A [bson.M] with
    several keys is the conjunction of its entries. *)
Inductive Field := FieldHeight | FieldIndex.
Inductive CmpOp := OpEq | OpGt | OpLt | OpGte | OpLte.

#[warnings="-register-all"]
Inductive bsonM :=
| M_addresses_in (keys : list string)      (* {"addresses": {"$in": keys}} *)
| M_field (f : Field) (op : CmpOp) (v : Z) (* {"height": {"$gt": v}}, {"height": v} *)
| M_and (ms : list bsonM)                  (* {"$and": [...]}, or several keys *)
| M_or (ms : list bsonM).                  (* {"$or": [...]} *)

Definition cmp_holds (op : CmpOp) (x v : Z) : bool :=
  match op with
  | OpEq => x =? v
  | OpGt => x >? v
  | OpLt => x <? v
  | OpGte => x >=? v
  | OpLte => x <=? v
  end.

Definition field_of (f : Field) (d : OperationDoc) : Z :=
  match f with
  | FieldHeight => od_height d
  | FieldIndex => od_index d
  end.

Fixpoint matches (m : bsonM) (d : OperationDoc) : bool :=
  match m with
  | M_addresses_in keys =>
      existsb (fun a => existsb (String.eqb a) keys) (od_addresses d)
  | M_field f op v => cmp_holds op (field_of f d) v
  | M_and ms => forallb (fun m' => matches m' d) ms
  | M_or ms => existsb (fun m' => matches m' d) ms
  end.

Definition buildOperationsFilterByAddress (address : Address) (offset : string)
    (reverse : bool) : result bsonM :=
  let filter := [M_addresses_in [StateAddressKeyPrefix address]] in
  if (0 <? String.length offset)%nat then
    match parseOffset offset with
    | Err err => Err err
    | Ok (height, index) =>
        if reverse then
          Ok (M_and (filter ++ [M_or [
                M_field FieldHeight OpLt height;
                M_and [M_field FieldHeight OpEq height;
                       M_field FieldIndex OpLt index]]]))
        else
          Ok (M_and (filter ++ [M_or [
                M_field FieldHeight OpGt height;
                M_and [M_field FieldHeight OpEq height;
                       M_field FieldIndex OpGt index]]]))
    end
  else Ok (M_and filter).

(** [options.Find()]: the sort direction of [height] and [index], the limit
    when one is set, and whether only [fact] is projected. *)
Record FindOptions := mkFindOptions {
  opt_sort : Z;
  opt_limit : option Z;
  opt_projection : bool;
}.

Definition SetLimit (opt : FindOptions) (n : Z) : FindOptions :=
  mkFindOptions (opt_sort opt) (Some n) (opt_projection opt).
Definition SetProjection (opt : FindOptions) : FindOptions :=
  mkFindOptions (opt_sort opt) (opt_limit opt) true.

(** The order of [{"height": 1, "index": 1}], and the order of a sort on
    both keys with direction [sr]. *)
Definition key_leb (d1 d2 : OperationDoc) : bool :=
  (od_height d1 <? od_height d2)
  || ((od_height d1 =? od_height d2) && (od_index d1 <=? od_index d2)).

Definition sort_le (sr : Z) (d1 d2 : OperationDoc) : Prop :=
  if sr =? 1 then key_leb d1 d2 = true else key_leb d2 d1 = true.

#[global] Instance sort_le_dec sr d1 d2 : Decision (sort_le sr d1 d2).
Proof. unfold sort_le. destruct (sr =? 1); apply _. Defined.

(** The loop of [Client.Find] over the cursor: it stops at the first error
    and when the callback answers [false]. *)
Fixpoint cursor_each {D T : Type} (callback : D -> T -> bool * option error * T)
    (docs : list D) (s : T) : option error * T :=
  match docs with
  | [] => (None, s)
  | d :: docs' =>
      match callback d s with
      | (_, Some err, s') => (Some err, s')
      | (false, None, s') => (None, s')
      | (true, None, s') => cursor_each callback docs' s'
      end
  end.

(** [Client.Find] on [digest_op] *)
Definition Find {T : Type} (m : Mongo) (filter : bsonM)
    (callback : OperationDoc -> T -> bool * option error * T)
    (opt : FindOptions) (s : T) : option error * T :=
  if down m then (Some (WrapStorageError mongo_error), s)
  else
    let found := merge_sort (sort_le (opt_sort opt))
                            (List.filter (matches filter) (col_op m)) in
    let page := match opt_limit opt with
                | Some n => take (Z.to_nat n) found
                | None => found
                end in
    cursor_each callback page s.

(** The typed collection makes decoding total; the callers keep the error
    branch of the Go code. *)
Definition loadOperationHash (cursor : OperationDoc) : result Hash := Ok (od_fact cursor).
Definition loadOperation (cursor : OperationDoc) : result OperationValue :=
  Ok (od_value cursor).

(** The sort and limit options of [OperationsByAddress] and [Operations]. *)
Definition operations_options (load reverse : bool) (limit : Z) : FindOptions :=
  let sr := if reverse then -1 else 1 in
  let opt := mkFindOptions sr None false in
  let opt :=
    if limit <=? 0 then opt                       (* no limit *)
    else if limit >? maxLimit then SetLimit opt maxLimit
    else SetLimit opt limit in
  if negb load then SetProjection opt else opt.

(** The cursor callback of both functions.  The state of the caller's
    closure is passed along; beside it the documents handed to the caller's
    callback are logged, in order. *)
Definition operations_cursor {T : Type} (load : bool)
    (callback : Hash -> OperationValue -> T -> bool * option error * T)
    (cursor : OperationDoc) (sv : T * list OperationDoc)
  : bool * option error * (T * list OperationDoc) :=
  if negb load then
    match loadOperationHash cursor with
    | Err err => (false, Some err, sv)
    | Ok h =>
        let '(keep, err, s') := callback h OperationValue_zero (fst sv) in
        (keep, err, (s', snd sv ++ [cursor]))
    end
  else
    match loadOperation cursor with
    | Err err => (false, Some err, sv)
    | Ok va =>
        let '(keep, err, s') := callback (ov_fact va) va (fst sv) in
        (keep, err, (s', snd sv ++ [cursor]))
    end.

(** The result is the error, the final state of the closure and the log of
    the documents delivered to the callback. *)
Definition OperationsByAddress {T : Type} (st : Database) (address : Address)
    (load reverse : bool) (offset : string) (limit : Z)
    (callback : Hash -> OperationValue -> T -> bool * option error * T) (s : T)
  : option error * T * list OperationDoc :=
  match buildOperationsFilterByAddress address offset reverse with
  | Err err => (Some err, s, [])
  | Ok filter =>
      let opt := operations_options load reverse limit in
      let '(err, (s', delivered)) :=
        Find (database st) filter (operations_cursor load callback) opt (s, []) in
      (err, s', delivered)
  end.

Definition Operations {T : Type} (st : Database) (filter : bsonM)
    (load reverse : bool) (limit : Z)
    (callback : Hash -> OperationValue -> T -> bool * option error * T) (s : T)
  : option error * T * list OperationDoc :=
  let opt := operations_options load reverse limit in
  let '(err, (s', delivered)) :=
    Find (database st) filter (operations_cursor load callback) opt (s, []) in
  (err, s', delivered).

(** [Client.GetByFilter] with the sort [{"height": -1}]: the first document
    of the matching ones, highest height first. *)
Definition height_desc {D : Type} (hgt : D -> Height) (d1 d2 : D) : Prop :=
  hgt d2 <= hgt d1.

#[global] Instance height_desc_dec {D : Type} (hgt : D -> Height) d1 d2 :
  Decision (height_desc hgt d1 d2).
Proof. unfold height_desc. apply _. Defined.

Definition GetByFilter {D A : Type} (m : Mongo) (hgt : D -> Height) (col : list D)
    (q : D -> bool) (callback : D -> result A) : result A :=
  if down m then Err (WrapStorageError mongo_error)
  else
    match merge_sort (height_desc hgt) (List.filter q col) with
    | [] => Err (mkError ErrNotFound "mongo: no documents in result")
    | res :: _ => callback res
    end.

Definition loadAccountValue (res : AccountDoc) : result AccountValue := Ok (acd_value res).
Definition loadBalance (res : BalanceDoc) : result State := Ok (bl_st res).
Definition StateBalanceValue (sta : State) : result Amount := Ok (st_value sta).

(** The query of a round of the loop of [balance]: the address, and
    [{"currency": {"$nin": cids}}] once a currency has been seen. *)
Definition balance_query (a : Address) (cids : list string) (d : BalanceDoc) : bool :=
  String.eqb (bl_address d) (StateAddressKeyPrefix a)
  && (if (length cids <? 1)%nat then true
      else negb (existsb (String.eqb (bl_currency d)) cids)).

(** The loop of [balance]: each round asks for the highest balance state of
    the address among the currencies not seen yet.  [None] when the fuel
    runs out before the loop ends. *)
Fixpoint balance_loop (fuel : nat) (st : Database) (a : Address)
    (cids : list string) (amm : gmap CurrencyID Amount)
    (lastHeight previousHeight : Height)
  : option (list Amount * Height * Height * option error) :=
  match fuel with
  | O => None
  | S fuel' =>
      match GetByFilter (database st) bl_height (col_bl (database st))
              (balance_query a cids) loadBalance with
      | Err err =>
          if Is err ErrNotFound
          then Some ((map_to_list amm).*2, lastHeight, previousHeight, None)
          else Some ([], lastHeight, previousHeight, Some err)
      | Ok sta =>
          match StateBalanceValue sta with
          | Err err => Some ([], lastHeight, previousHeight, Some err)
          | Ok i =>
              let amm := <[am_cid i := i]> amm in
              let cids := cids ++ [am_cid i] in
              if st_height sta >? lastHeight
              then balance_loop fuel' st a cids amm (st_height sta) (st_previousHeight sta)
              else balance_loop fuel' st a cids amm lastHeight previousHeight
          end
      end
  end.

Definition balance (st : Database) (a : Address)
  : option (list Amount * Height * Height * option error) :=
  balance_loop (S (length (col_bl (database st)))) st a [] ∅ NilHeight NilHeight.

Definition AccountValue_zero : AccountValue :=
  mkAccountValue (mkAccount "") [] 0 0.

(** The first step of [Account]: the latest account record of the address. *)
Definition Account_record (st : Database) (a : Address) : result AccountValue :=
  GetByFilter (database st) acd_height (col_ac (database st))
    (fun d => String.eqb (acd_address d) (StateAddressKeyPrefix a))
    loadAccountValue.

Definition Account (st : Database) (a : Address)
  : option (AccountValue * bool * option error) :=
  match Account_record st a with
  | Err err =>
      if Is err ErrNotFound then Some (AccountValue_zero, false, None)
      else Some (AccountValue_zero, false, Some err)
  | Ok rs =>
      match balance st a with
      | None => None
      | Some (_, _, _, Some err) => Some (rs, false, Some err)
      | Some (am, lastHeight, previousHeight, None) =>
          Some (SetPreviousHeight (SetHeight (SetBalance rs am) lastHeight) previousHeight,
                true, None)
      end
  end.

(** [Account] makes several lookups, the one of the account record and
    those of the loop of [balance], and the server can stop answering between
    two of them.  [answering up m] is the store [m] as one lookup finds it:
    answered when [up] holds and the store is not down.  In
    [Account_during up] the [k]-th lookup of the query, counted from 0, is
    answered when [up k] holds; [Account] is the query all of whose lookups
    find the store as it is. *)
Definition answering (up : bool) (m : Mongo) : Mongo :=
  mkMongo (col_ac m) (col_dm m) (col_bl m) (col_op m) (col_fd m) (info m)
          (down m || negb up).

Fixpoint balance_loop_during (up : nat -> bool) (k : nat) (fuel : nat)
    (st : Database) (a : Address) (cids : list string) (amm : gmap CurrencyID Amount)
    (lastHeight previousHeight : Height)
  : option (list Amount * Height * Height * option error) :=
  match fuel with
  | O => None
  | S fuel' =>
      match GetByFilter (answering (up k) (database st)) bl_height
              (col_bl (database st)) (balance_query a cids) loadBalance with
      | Err err =>
          if Is err ErrNotFound
          then Some ((map_to_list amm).*2, lastHeight, previousHeight, None)
          else Some ([], lastHeight, previousHeight, Some err)
      | Ok sta =>
          match StateBalanceValue sta with
          | Err err => Some ([], lastHeight, previousHeight, Some err)
          | Ok i =>
              let amm := <[am_cid i := i]> amm in
              let cids := cids ++ [am_cid i] in
              if st_height sta >? lastHeight
              then balance_loop_during up (S k) fuel' st a cids amm
                     (st_height sta) (st_previousHeight sta)
              else balance_loop_during up (S k) fuel' st a cids amm
                     lastHeight previousHeight
          end
      end
  end.

Definition balance_during (up : nat -> bool) (st : Database) (a : Address)
  : option (list Amount * Height * Height * option error) :=
  balance_loop_during up 1 (S (length (col_bl (database st)))) st a [] ∅
    NilHeight NilHeight.

Definition Account_during (up : nat -> bool) (st : Database) (a : Address)
  : option (AccountValue * bool * option error) :=
  match GetByFilter (answering (up 0%nat) (database st)) acd_height
          (col_ac (database st))
          (fun d => String.eqb (acd_address d) (StateAddressKeyPrefix a))
          loadAccountValue with
  | Err err =>
      if Is err ErrNotFound then Some (AccountValue_zero, false, None)
      else Some (AccountValue_zero, false, Some err)
  | Ok rs =>
      match balance_during up st a with
      | None => None
      | Some (_, _, _, Some err) => Some (rs, false, Some err)
      | Some (am, lastHeight, previousHeight, None) =>
          Some (SetPreviousHeight (SetHeight (SetBalance rs am) lastHeight) previousHeight,
                true, None)
      end
  end.

(** ** Digesting a block ([digest/digest.go]) *)

(** The block session is built and run by code that is not among the sources
    of this development; its operations are taken as they are called.
    [Prepare] and [Commit] work on the session and may write to the store. *)
Record BlockSessionOps (Block BlockSession : Type) := mkBlockSessionOps {
  blk_Height : Block -> Height;
  NewBlockSession : Database -> Block -> result BlockSession;
  Prepare : BlockSession -> Database -> option error * BlockSession * Database;
  Commit : BlockSession -> Database -> option error * BlockSession * Database;
  Close : BlockSession -> Database -> Database;
}.
Arguments blk_Height {Block BlockSession}.
Arguments NewBlockSession {Block BlockSession}.
Arguments Prepare {Block BlockSession}.
Arguments Commit {Block BlockSession}.
Arguments Close {Block BlockSession}.

(** Modelled from the spec: the block session is missing from the sources;
    "[Prepare()] derives all document upserts [...] without touching storage;
    [Commit(ctx)] applies them as one atomic batch", and the marker is moved
    by [SetLastBlock] alone: no operation of the session writes it. *)
Definition session_keeps_marker {Block BlockSession : Type}
    (ops : BlockSessionOps Block BlockSession) : Prop :=
  (forall bs st, lastBlock (Prepare ops bs st).2 = lastBlock st)
  /\ (forall bs st, lastBlock (Commit ops bs st).2 = lastBlock st)
  /\ (forall bs st, lastBlock (Close ops bs st) = lastBlock st).

(** [defer bs.Close()] runs on every path after the session exists. *)
Definition DigestBlock {Block BlockSession : Type}
    (ops : BlockSessionOps Block BlockSession) (st : Database) (blk : Block)
  : option error * Database :=
  match NewBlockSession ops st blk with
  | Err err => (Some err, st)
  | Ok bs =>
      let '(r, bs', st') :=
        match Prepare ops bs st with
        | (Some err, bs1, st1) => (Some err, bs1, st1)
        | (None, bs1, st1) =>
            match Commit ops bs1 st1 with
            | (Some err, bs2, st2) => (Some err, bs2, st2)
            | (None, bs2, st2) =>
                let '(r, st3) := SetLastBlock (blk_Height ops blk) st2 in
                (r, bs2, st3)
            end
        end in
      (r, Close ops bs' st')
  end.

(** ** The account handlers *)

Definition bytes := string.

(** Modelled from the spec: the HAL types are missing from the sources; a
    response is a "hypermedia document with [_links.self], [_links.next],
    [_links.reverse], and an embedded array of items or a single item".
    [AddLink] sets the link of a relation. *)
Record HalLink := mkHalLink { hl_href : string; hl_templated : bool }.

Definition NewHalLink (href : string) : HalLink := mkHalLink href false.

Record BaseHal (I : Type) := mkBaseHal {
  hal_i : I;                              (* Interface() *)
  hal_links : gmap string HalLink;        (* Links() *)
}.
Arguments mkBaseHal {I}.
Arguments hal_i {I}.
Arguments hal_links {I}.

Definition NewBaseHal {I : Type} (i : I) (self : HalLink) : BaseHal I :=
  mkBaseHal i {["self" := self]}.

Definition AddLink {I : Type} (hal : BaseHal I) (rel : string) (link : HalLink)
  : BaseHal I :=
  mkBaseHal (hal_i hal) (<[rel := link]> (hal_links hal)).

(** The HAL of one operation, and of a page of them. *)
Definition OperationHal := BaseHal OperationValue.
Definition PageHal := BaseHal (list OperationHal).

(** Modelled from the spec: the problem type is missing from the sources;
    the error envelope is "a problem document with a type URI,
    human-readable message, and HTTP status". *)
Record Problem := mkProblem { pr_type : string; pr_title : string }.

Definition DefaultProblemType : string := "others".
Definition NewProblemFromError (err : error) : Problem :=
  mkProblem DefaultProblemType (err_msg err).

Inductive Mimetype := HALMimetype | ProblemMimetype.

Definition StatusOK : Z := 200.
Definition StatusBadRequest : Z := 400.
Definition StatusNotFound : Z := 404.
Definition StatusInternalServerError : Z := 500.

(** [time.Duration], in nanoseconds. *)
Definition Second : Z := 1000000000.
Definition Hour : Z := 3600 * Second.

Definition HandlerPathAccount : string := "/account/{address}".
Definition HandlerPathAccountOperations : string := "/account/{address}/operations".

(** The functions of the package that the handlers call and that are not
    among the sources: the parsers of the query values, the builders of query
    strings and the encoder of a problem. *)
Record Util := mkUtil {
  parseLimitQuery : string -> Z;
  parseOffsetQuery : string -> string;
  parseBoolQuery : string -> bool;
  stringOffsetQuery : string -> string;
  stringBoolQuery : string -> bool -> string;
  addQueryValue : string -> string -> string;
  Marshal_problem : Problem -> result bytes;
  unknownProblemJSON : bytes;
}.

(** [Handlers]: the fields the account handlers read.  The router, the
    encoder, the cache and the address decoder are what they answer. *)
Record Handlers := mkHandlers {
  hd_database : Database;
  hd_cache : string -> option bytes;                       (* cache.Get *)
  hd_itemsLimiter : string -> Z;
  hd_expireNotFilled : Z;
  hd_routes_URL : string -> result string;                 (* routes[path].URL() *)
  hd_routes_URLPath : string -> list string -> result string;
  hd_enc_Marshal : PageHal -> result bytes;                (* enc.Marshal *)
  hd_buildOperationHal : OperationValue -> result OperationHal;
  hd_DecodeAddress : string -> result Address;  (* DecodeAddressFromString, IsValid *)
}.

Record Request := mkRequest {
  rq_path : string;         (* r.URL.Path *)
  rq_address : string;      (* mux.Vars(r)["address"], trimmed *)
  rq_limit : string;        (* the query values *)
  rq_offset : string;
  rq_reverse : string;
}.

(** What a handler leaves in the response writer: status and content type,
    the body, and the cache key and expiration when [HTTP2WriteCache] was
    called. *)
Record Response := mkResponse {
  rs_status : Z;
  rs_mimetype : Mimetype;
  rs_body : bytes;
  rs_cache : option (string * Z);
}.

Definition combineURL (hd : Handlers) (path : string) (pairs : list string)
  : result string :=
  let n := length pairs in
  if negb (n mod 2 =? 0)%nat
  then Err (Errorf "failed to combine url; uneven pairs to combine url")
  else if (n <? 1)%nat then
    match hd_routes_URL hd path with
    | Err _ => Err (Errorf "failed to combine url")
    | Ok u => Ok u
    end
  else
    match hd_routes_URLPath hd path pairs with
    | Err _ => Err (Errorf "failed to combine url")
    | Ok u => Ok u
    end.

(** [cacheKey]: [fmt.Sprintf("%s-%s", key, strings.Join(s, ","))] *)
Definition CacheKey (key : string) (s : list string) : string :=
  key +:+ "-" +:+ String.concat "," s.

(** [writePoblem] *)
Definition HTTP2ProblemWithError (U : Util) (err : error) (status : Z) : Response :=
  let status := if status =? 0 then StatusInternalServerError else status in
  let output :=
    match Marshal_problem U (NewProblemFromError err) with
    | Err _ => unknownProblemJSON U
    | Ok b => b
    end in
  mkResponse status ProblemMimetype output None.

(** [handleError] *)
Definition HTTP2HandleError (U : Util) (err : error) : Response :=
  let status :=
    if Is err ErrNotFound then StatusNotFound
    else if Is err ErrBadRequest then StatusBadRequest
    else if Is err ErrNotSupported then StatusInternalServerError
    else StatusInternalServerError in
  HTTP2ProblemWithError U err status.

Definition HTTP2WriteHalBytes (b : bytes) (status : Z) : Response :=
  mkResponse status HALMimetype b None.

Definition HTTP2WriteCache (w : Response) (key : string) (expire : Z) : Response :=
  mkResponse (rs_status w) (rs_mimetype w) (rs_body w) (Some (key, expire)).

Definition buildAccountOperationsHal (U : Util) (hd : Handlers) (address : Address)
    (vas : list OperationHal) (offset : string) (reverse : bool) : result PageHal :=
  match combineURL hd HandlerPathAccountOperations ["address"; address] with
  | Err err => Err err
  | Ok baseSelf =>
      let self := baseSelf in
      let self :=
        if (0 <? String.length offset)%nat
        then addQueryValue U baseSelf (stringOffsetQuery U offset) else self in
      let self :=
        if reverse
        then addQueryValue U baseSelf (stringBoolQuery U "reverse" reverse) else self in
      let hal := NewBaseHal vas (NewHalLink self) in
      match combineURL hd HandlerPathAccount ["address"; address] with
      | Err err => Err err
      | Ok h =>
          let hal := AddLink hal "account" (NewHalLink h) in
          let nextoffset :=
            match last vas with
            | Some v => buildOffset (ov_height (hal_i v)) (ov_index (hal_i v))
            | None => ""
            end in
          let hal :=
            if (0 <? String.length nextoffset)%nat then
              let next := baseSelf in
              let next :=
                if (0 <? String.length nextoffset)%nat
                then addQueryValue U next (stringOffsetQuery U nextoffset) else next in
              let next :=
                if reverse
                then addQueryValue U next (stringBoolQuery U "reverse" reverse)
                else next in
              AddLink hal "next" (NewHalLink next)
            else hal in
          Ok (AddLink hal "reverse"
                (NewHalLink (addQueryValue U baseSelf
                               (stringBoolQuery U "reverse" (negb reverse)))))
      end
  end.

(** The callback handed to [OperationsByAddress]: [vas] is its state. *)
Definition collect_operation_hal (hd : Handlers) (_ : Hash) (va : OperationValue)
    (vas : list OperationHal) : bool * option error * list OperationHal :=
  match hd_buildOperationHal hd va with
  | Err err => (false, Some err, vas)
  | Ok hal => (true, None, vas ++ [hal])
  end.

(** The limit in force, and the scan of [handleAccountOperationsInGroup]. *)
Definition account_operations_limit (hd : Handlers) (l : Z) : Z :=
  if l <? 0 then hd_itemsLimiter hd "account-operations" else l.

Definition account_operations_scan (hd : Handlers) (address : Address)
    (offset : string) (l : Z) (reverse : bool)
  : option error * list OperationHal * list OperationDoc :=
  OperationsByAddress (hd_database hd) address true reverse offset
    (account_operations_limit hd l) (collect_operation_hal hd) [].

Definition handleAccountOperationsInGroup (U : Util) (hd : Handlers)
    (address : Address) (offset : string) (l : Z) (reverse : bool)
  : bytes * bool * option error :=
  let limit := account_operations_limit hd l in
  match account_operations_scan hd address offset l reverse with
  | (Some err, _, _) => ("", false, Some err)
  | (None, vas, _) =>
      if (length vas <? 1)%nat
      then ("", false, Some (NotFoundError_Errorf "operations not found"))
      else
        match buildAccountOperationsHal U hd address vas offset reverse with
        | Err err => ("", false, Some err)
        | Ok i =>
            match hd_enc_Marshal hd i with
            | Err err => ("", Z.of_nat (length vas) =? limit, Some err)
            | Ok b => (b, Z.of_nat (length vas) =? limit, None)
            end
        end
  end.

(** [shared] is what [singleflight.Group.Do] reports: whether the result of
    this execution was handed to other callers as well. *)
Definition handleAccountOperations (U : Util) (hd : Handlers) (r : Request)
    (shared : bool) : Response :=
  match hd_DecodeAddress hd (rq_address r) with
  | Err err => HTTP2ProblemWithError U err StatusBadRequest
  | Ok address =>
      let limit := parseLimitQuery U (rq_limit r) in
      let offset := parseOffsetQuery U (rq_offset r) in
      let reverse := parseBoolQuery U (rq_reverse r) in
      let cachekey :=
        CacheKey (rq_path r)
          [stringOffsetQuery U offset; stringBoolQuery U "reverse" reverse] in
      match hd_cache hd cachekey with
      | Some b => mkResponse StatusOK HALMimetype b None       (* LoadFromCache *)
      | None =>
          match handleAccountOperationsInGroup U hd address offset limit reverse with
          | (_, _, Some err) => HTTP2HandleError U err
          | (b, filled, None) =>
              let w := HTTP2WriteHalBytes b StatusOK in
              if negb shared then
                let expire := hd_expireNotFilled hd in
                let expire :=
                  if (0 <? String.length offset)%nat && filled
                  then Hour * 30 else expire in
                HTTP2WriteCache w cachekey expire
              else w
          end
      end
  end.

(** ** The words of the design document *)

(** The records past an offset [(h, i)] in the direction of a scan, and the
    order in which a scan is to visit them: ascending [(height, index)]
    forward, descending in reverse. *)
Definition beyond_offset (reverse : bool) (h : Height) (i : Z) (d : OperationDoc) : Prop :=
  if reverse
  then od_height d < h \/ (od_height d = h /\ od_index d < i)
  else od_height d > h \/ (od_height d = h /\ od_index d > i).

#[global] Instance beyond_offset_dec reverse h i d : Decision (beyond_offset reverse h i d).
Proof. unfold beyond_offset. destruct reverse; apply _. Defined.

Definition scan_order (reverse : bool) (d1 d2 : OperationDoc) : Prop :=
  if reverse
  then od_height d2 < od_height d1
       \/ (od_height d2 = od_height d1 /\ od_index d2 <= od_index d1)
  else od_height d1 < od_height d2
       \/ (od_height d1 = od_height d2 /\ od_index d1 <= od_index d2).

(** A callback that always asks for the next match. *)
Definition never_stops {T : Type}
    (callback : Hash -> OperationValue -> T -> bool * option error * T) : Prop :=
  forall h va s, exists s', callback h va s = (true, None, s').

(** The page of a sorted result [L] under a requested limit. *)
Definition page_of (limit : Z) (L : list OperationDoc) : list OperationDoc :=
  if limit <=? 0 then L else take (Z.to_nat (Z.min limit maxLimit)) L.

(** A balance record of the address that no record of the same address and
    currency exceeds in height: a most recent record of its currency. *)
Definition latest_balance (st : Database) (a : Address) (d : BalanceDoc) : Prop :=
  d ∈ col_bl (database st)
  /\ bl_address d = StateAddressKeyPrefix a
  /\ forall d', d' ∈ col_bl (database st) ->
                bl_address d' = StateAddressKeyPrefix a ->
                bl_currency d' = bl_currency d ->
                bl_height d' <= bl_height d.

(** What the loop of [balance] has gathered before a round: an amount for
    each currency seen, taken from a most recent record of the currency, and
    the greatest height met with the previous height of its record. *)
Definition balance_inv (st : Database) (a : Address) (cids : list string)
    (amm : gmap CurrencyID Amount) (lastHeight previousHeight : Height) : Prop :=
  (forall c, c ∈ cids <-> is_Some (amm !! c))
  /\ (forall c am, amm !! c = Some am ->
        exists d, latest_balance st a d /\ bl_currency d = c
                  /\ st_value (bl_st d) = am /\ bl_height d <= lastHeight)
  /\ NilHeight <= lastHeight
  /\ ((lastHeight = NilHeight /\ previousHeight = NilHeight)
      \/ exists d, d ∈ col_bl (database st)
                   /\ bl_address d = StateAddressKeyPrefix a
                   /\ st_height (bl_st d) = lastHeight
                   /\ st_previousHeight (bl_st d) = previousHeight).

(** The balances of an address read off the balance records: every amount
    is that of a most recent record of its currency; every currency with a
    record of the address has an amount, and one only; the height is at
    least that of every record of the address, and it is, with the previous
    height, either that of one record of the address or [NilHeight] twice. *)
Definition balance_post (st : Database) (a : Address) (ams : list Amount)
    (lastHeight previousHeight : Height) : Prop :=
  (forall am, am ∈ ams ->
     exists d, latest_balance st a d /\ st_value (bl_st d) = am)
  /\ (forall d, d ∈ col_bl (database st) ->
        bl_address d = StateAddressKeyPrefix a ->
        exists am, am ∈ ams /\ am_cid am = bl_currency d)
  /\ NoDup (am_cid <$> ams)
  /\ (forall d, d ∈ col_bl (database st) ->
        bl_address d = StateAddressKeyPrefix a -> bl_height d <= lastHeight)
  /\ ((lastHeight = NilHeight /\ previousHeight = NilHeight)
      \/ exists d, d ∈ col_bl (database st)
                   /\ bl_address d = StateAddressKeyPrefix a
                   /\ st_height (bl_st d) = lastHeight
                   /\ st_previousHeight (bl_st d) = previousHeight).

(** ** The rest of the database ([digest/database.go]) *)

(** [Info(key)]: the value stored by [SetInfo], when there is one. *)
Definition Info (key : string) (m : Mongo) : result (option Z) :=
  if down m then Err mongo_error else Ok (info m !! key).

(** [base.NewHeightFromBytes] reads back what [height.Bytes()] wrote; the
    store keeps the height itself. *)
Definition loadLastBlock (st : Database) : Height * bool * option error :=
  match Info DigestStorageLastBlockKey (database st) with
  | Err _ => (NilHeight, false, Some (Errorf "failed to get last block for digest"))
  | Ok None => (NilHeight, false, None)
  | Ok (Some b) => (b, true, None)
  end.

(** [CreateIndex(col, models, indexPrefix)]: the indexes are not part of the
    store; the call fails when the server does not answer. *)
Definition CreateIndex (col : ColName) (m : Mongo) : option error :=
  if down m then Some mongo_error else None.

Fixpoint create_indexes (cols : list ColName) (m : Mongo) : option error :=
  match cols with
  | [] => None
  | col :: cols' =>
      match CreateIndex col m with
      | Some err => Some err
      | None => create_indexes cols' m
      end
  end.

(** [defaultIndexes] is not among the sources: the collections it gives
    index models for are a parameter. *)
Definition createIndex (defaultIndexes : list ColName) (st : Database) : option error :=
  if readonly st then Some (Errorf "readonly mode")
  else create_indexes defaultIndexes (database st).

Definition Initialize (defaultIndexes : list ColName) (st : Database)
  : option error * Database :=
  match loadLastBlock st with
  | (_, _, Some err) => (Some (Errorf "failed to get last block for digest"), st)
  | (_, false, None) => (None, mkDatabase (database st) (readonly st) NilHeight)
  | (h, true, None) =>
      let st := mkDatabase (database st) (readonly st) h in
      if negb (readonly st) then
        match createIndex defaultIndexes st with
        | Some err => (Some err, st)
        | None => cleanByHeight (wrap_int64 (h + 1)) st
        end
      else (None, st)
  end.

(** [Client.Exists], and [Client.GetByFilter] without a sort: the first
    matching document in storage order. *)
Definition Exists {D : Type} (m : Mongo) (col : list D) (q : D -> bool)
  : bool * option error :=
  if down m then (false, Some (WrapStorageError mongo_error))
  else (existsb q col, None).

Definition GetByFilter_first {D A : Type} (m : Mongo) (col : list D)
    (q : D -> bool) (callback : D -> result A) : result A :=
  if down m then Err (WrapStorageError mongo_error)
  else
    match List.filter q col with
    | [] => Err (mkError ErrNotFound "mongo: no documents in result")
    | res :: _ => callback res
    end.

Definition Operation (st : Database) (h : Hash) (load : bool)
  : OperationValue * bool * option error :=
  if negb load then
    let '(exists_, err) :=
      Exists (database st) (col_op (database st)) (fun d => String.eqb (od_fact d) h) in
    (OperationValue_zero, exists_, err)
  else
    match GetByFilter_first (database st) (col_op (database st))
            (fun d => String.eqb (od_fact d) h)
            (fun res => if negb load then Ok OperationValue_zero else loadOperation res) with
    | Err err =>
        if Is err ErrNotFound then (OperationValue_zero, false, None)
        else (OperationValue_zero, false, Some err)
    | Ok va => (va, true, None)
    end.

(** The sort key of an operation document. *)
Definition op_key (d : OperationDoc) : Z * Z := (od_height d, od_index d).

(** The marker in memory is the persisted one, [NilHeight] when none is
    persisted. *)
Definition marker_in_sync (st : Database) : Prop :=
  lastBlock st = default NilHeight (info (database st) !! DigestStorageLastBlockKey).

(** A callback that records what it is handed and goes on. *)
Definition callback_record (h : Hash) (va : OperationValue)
    (s : list (Hash * OperationValue))
  : bool * option error * list (Hash * OperationValue) :=
  (true, None, s ++ [(h, va)]).

(** The calls of [DigestBlock] that the digester makes on its store, one
    block after another; a block may come more than once. *)
Fixpoint digest_blocks {Block BlockSession : Type}
    (ops : BlockSessionOps Block BlockSession) (st : Database) (blks : list Block)
  : Database :=
  match blks with
  | [] => st
  | blk :: blks' => digest_blocks ops (DigestBlock ops st blk).2 blks'
  end.

(** ** The account handler *)

Definition HandlerPathCurrency : string := "/currency/{currencyid:.*}".
Definition HandlerPathBlockByHeight : string := "/block/{height:[0-9]+}".

(** [SetTemplated] is of the HAL types above: it marks a link as a
    template. *)
Definition SetTemplated (l : HalLink) : HalLink := mkHalLink (hl_href l) true.

Definition AccountHal := BaseHal AccountValue.

(** [Height.String()] *)
Definition Height_String (h : Height) : string := FormatInt h.

(** [HandlerPathAccountDocuments] is not among the sources: the path is a
    parameter. *)
Definition buildAccountHal (HandlerPathAccountDocuments : string) (hd : Handlers)
    (va : AccountValue) : result AccountHal :=
  let hinted := ac_address (av_ac va) in
  match combineURL hd HandlerPathAccount ["address"; hinted] with
  | Err err => Err err
  | Ok h =>
      let hal := NewBaseHal va (NewHalLink h) in
      let hal := AddLink hal "currency:{currencyid}"
                   (SetTemplated (NewHalLink HandlerPathCurrency)) in
      match combineURL hd HandlerPathAccountOperations ["address"; hinted] with
      | Err err => Err err
      | Ok h =>
          let hal := AddLink hal "operations" (NewHalLink h) in
          let hal := AddLink hal "operations:{offset}"
                       (SetTemplated (NewHalLink (h +:+ "?offset={offset}"))) in
          let hal := AddLink hal "operations:{offset,reverse}"
                       (SetTemplated (NewHalLink (h +:+ "?offset={offset}&reverse=1"))) in
          match combineURL hd HandlerPathAccountDocuments ["address"; hinted] with
          | Err err => Err err
          | Ok h =>
              let hal := AddLink hal "documents" (NewHalLink h) in
              let hal := AddLink hal "documents:{offset}"
                           (SetTemplated (NewHalLink (h +:+ "?offset={offset}"))) in
              let hal := AddLink hal "documents:{offset,reverse}"
                           (SetTemplated
                              (NewHalLink (h +:+ "?offset={offset}&reverse=1"))) in
              match combineURL hd HandlerPathBlockByHeight
                      ["height"; Height_String (av_height va)] with
              | Err err => Err err
              | Ok h =>
                  let hal := AddLink hal "block" (NewHalLink h) in
                  if av_previousHeight va >? PreGenesisHeight then
                    match combineURL hd HandlerPathBlockByHeight
                            ["height"; Height_String (av_previousHeight va)] with
                    | Err err => Err err
                    | Ok h => Ok (AddLink hal "previous_block" (NewHalLink h))
                    end
                  else Ok hal
              end
          end
      end
  end.

(** [enc] is [hd.enc.Marshal] at the type of an account document.  The
    answer is [None] only when the loop of [balance] runs out of fuel. *)
Definition handleAccountInGroup (HandlerPathAccountDocuments : string)
    (enc : AccountHal -> result bytes) (hd : Handlers) (address : Address)
  : option (result bytes) :=
  match Account (hd_database hd) address with
  | None => None
  | Some (_, _, Some err) => Some (Err err)
  | Some (_, false, None) => Some (Err (mkError ErrNotFound "not found"))
  | Some (va, true, None) =>
      match buildAccountHal HandlerPathAccountDocuments hd va with
      | Err err => Some (Err err)
      | Ok hal => Some (enc hal)
      end
  end.

Definition handleAccount (HandlerPathAccountDocuments : string) (U : Util)
    (enc : AccountHal -> result bytes) (hd : Handlers) (r : Request) (shared : bool)
  : option Response :=
  let cachekey := rq_path r in                             (* CacheKeyPath(r) *)
  match hd_cache hd cachekey with
  | Some b => Some (mkResponse StatusOK HALMimetype b None)  (* LoadFromCache *)
  | None =>
      match hd_DecodeAddress hd (rq_address r) with
      | Err err => Some (HTTP2ProblemWithError U err StatusBadRequest)
      | Ok address =>
          match handleAccountInGroup HandlerPathAccountDocuments enc hd address with
          | None => None
          | Some (Err err) =>
              let err :=
                if Is err ErrNotFound
                then NotFoundError_Errorf ("account, " +:+ address +:+ " not found")
                else err in
              Some (HTTP2HandleError U err)
          | Some (Ok v) =>
              let w := HTTP2WriteHalBytes v StatusOK in
              Some (if negb shared then HTTP2WriteCache w cachekey (Second * 2) else w)
          end
      end
  end.

(** ** Key flags ([cmds]) *)

(** The loop of [strconv.ParseUint(s, 10, bitSize)] for any bit size: the
    cutoff is that of 64 bits, [maxVal] is [1<<bitSize - 1]. *)
Fixpoint ParseUint_loop_max (maxVal : Z) (s : string) (n : Z) : NumError + Z :=
  match s with
  | EmptyString => inr n
  | String c s' =>
      match digit_of c with
      | None => inl ErrSyntax
      | Some d =>
          if n >=? cutoff64 then inl ErrRange
          else
            let n10 := n * 10 in
            let n1 := wrap_uint64 (n10 + d) in
            if (n1 <? n10) || (n1 >? maxVal) then inl ErrRange
            else ParseUint_loop_max maxVal s' n1
      end
  end.

Definition ParseUint_bits (bitSize : Z) (s : string) : NumError + Z :=
  match s with
  | EmptyString => inl ErrSyntax
  | _ => ParseUint_loop_max (2 ^ bitSize - 1) s 0
  end.

(** What [key.DecodeKey] answers: a private key or a public key. *)
Inductive DecodedKey (Priv Pub : Type) :=
| IsPrivatekey (priv : Priv)
| IsPublickey (pk : Pub).
Arguments IsPrivatekey {Priv Pub} priv.
Arguments IsPublickey {Priv Pub} pk.

(** The functions [KeyFlag.UnmarshalText] calls and that are not among the
    sources.  The messages of its errors are kept without the quoted input
    and the wrapped error. *)
Record KeyEnv (Priv Pub Key : Type) := mkKeyEnv {
  TrimSpace : string -> string;                    (* bytes.TrimSpace *)
  LoadFromStdInput : result string;
  DecodeKey : string -> result (DecodedKey Priv Pub);
  Publickey : Priv -> Pub;
  NewKey : Pub -> Z -> result Key;                 (* currency.NewKey *)
  Key_IsValid : Key -> option error;
}.
Arguments TrimSpace {Priv Pub Key}.
Arguments LoadFromStdInput {Priv Pub Key}.
Arguments DecodeKey {Priv Pub Key}.
Arguments Publickey {Priv Pub Key}.
Arguments NewKey {Priv Pub Key}.
Arguments Key_IsValid {Priv Pub Key}.

Definition KeyFlag_UnmarshalText {Priv Pub Key : Type} (env : KeyEnv Priv Pub Key)
    (b : string) : result Key :=
  match (if String.eqb (TrimSpace env b) "-" then LoadFromStdInput env else Ok b) with
  | Err err => Err err
  | Ok b =>
      match SplitN_comma_2 b with
      | [l0; l1] =>
          match DecodeKey env l0 with
          | Err _ => Err (Errorf "invalid public key for --key")
          | Ok k =>
              let pk := match k with
                        | IsPrivatekey priv => Publickey env priv
                        | IsPublickey pk => pk
                        end in
              match ParseUint_bits 8 l1 with
              | inl _ => Err (Errorf "invalid weight for --key")
              | inr i =>
                  let weight := if (i >? 0) && (i <=? 100) then i else 100 in
                  match NewKey env pk weight with
                  | Err err => Err err
                  | Ok k =>
                      match Key_IsValid env k with
                      | Some _ => Err (Errorf "invalid key string")
                      | None => Ok k
                      end
                  end
              end
          end
      | _ => Err (Errorf "wrong formatted; <string private key>,<uint weight>")
      end
  end.

(** * Examples *)

(** ** Example stores *)

(** The operations of the handler tests: ten operations of one sender, the
    [i]-th at height [i mod 3] with index [i], in insertion order. *)
Definition example_operation (a : Address) (i : Z) : OperationDoc :=
  let fact := "fact-" +:+ FormatUint i in
  mkOperationDoc [StateAddressKeyPrefix a] fact (i mod 3) i
    (mkOperationValue fact (i mod 3) i true).

Definition example_operations (a : Address) (n : nat) : list OperationDoc :=
  example_operation a <$> (Z.of_nat <$> seq 0 n).

(** Balance states of one address: currency [X] at heights 0, 1 and 2, and
    currency [Y] at height 1. *)
Definition example_balances (a : Address) : list BalanceDoc :=
  [ mkBalanceDoc (StateAddressKeyPrefix a) (mkState 0 (-1) (mkAmount 10 "X"));
    mkBalanceDoc (StateAddressKeyPrefix a) (mkState 1 0 (mkAmount 7 "X"));
    mkBalanceDoc (StateAddressKeyPrefix a) (mkState 1 (-1) (mkAmount 3 "Y"));
    mkBalanceDoc (StateAddressKeyPrefix a) (mkState 2 1 (mkAmount 5 "X")) ].

Definition example_account (a : Address) : AccountDoc :=
  NewAccountDoc (mkAccountValue (mkAccount a) [] 0 NilHeight).

(** A store digested up to height 2, with a file record at height 2. *)
Definition example_mongo : Mongo :=
  mkMongo [example_account "A"] [mkDocumentDoc "A" 1]
          (example_balances "A") (example_operations "A" 10)
          [mkFileDataDoc "A" 2]
          {[DigestStorageLastBlockKey := 2]} false.

Definition example_database : Database := mkDatabase example_mongo false 2.

(** A block session over blocks that are their height: [Commit] writes one
    operation of the block, and fails, as [Prepare] does, on the heights
    given. *)
Definition example_session (prepare_fails commit_fails : Height -> bool)
  : BlockSessionOps Height Height :=
  mkBlockSessionOps Height Height
    (fun blk => blk)
    (fun st blk => if readonly st then Err (Errorf "readonly mode") else Ok blk)
    (fun bs st =>
       if prepare_fails bs then (Some (Errorf "prepare"), bs, st) else (None, bs, st))
    (fun bs st =>
       if commit_fails bs then (Some (Errorf "commit"), bs, st)
       else
         let m := database st in
         (None, bs,
          with_database st
            (mkMongo (col_ac m) (col_dm m) (col_bl m)
                     (col_op m ++ [mkOperationDoc ["A"] "fact" bs 0
                                      (mkOperationValue "fact" bs 0 true)])
                     (col_fd m) (info m) (down m))))
    (fun bs st => st).

(** A callback that takes every match and keeps no state. *)
Definition callback_continue (_ : Hash) (_ : OperationValue) (s : unit)
  : bool * option error * unit := (true, None, s).

(** A store with 51 operations of one address. *)
Definition example_database_51 : Database :=
  mkDatabase (mkMongo [] [] [] (example_operations "A" 51) [] ∅ false) false 2.

(** Handlers over the example store, with the limiter of the handler tests
    (three items a page) and an expiration of three seconds for a page that
    is not filled. *)
Definition example_util : Util :=
  mkUtil
    (fun s => match ParseInt s with inr n => n | inl _ => -1 end)
    (fun s => s)
    (fun s => String.eqb s "1")
    (fun offset => "offset=" +:+ offset)
    (fun key v => if v then key +:+ "=1" else "")
    (fun b s => if String.eqb s "" then b else b +:+ "?" +:+ s)
    (fun pr => Ok (pr_title pr))
    "unknown problem occurred".

Definition example_handlers : Handlers :=
  mkHandlers example_database
    (fun _ => None)
    (fun _ => 3)
    (3 * Second)
    (fun path => Ok path)
    (fun path pairs => Ok (path +:+ ":" +:+ String.concat "," pairs))
    (fun hal => Ok ("hal:" +:+ FormatUint (Z.of_nat (length (hal_i hal)))))
    (fun va => Ok (NewBaseHal va (NewHalLink ("/block/operation/" +:+ ov_fact va))))
    (fun s => if String.eqb s "" then Err (Errorf "empty address") else Ok s).

Definition example_request (limit offset reverse : string) : Request :=
  mkRequest "/account/A/operations" "A" limit offset reverse.

(** The encoder of an account document, and a request for an account. *)
Definition example_account_enc (hal : AccountHal) : result bytes :=
  Ok ("account:" +:+ ac_address (av_ac (hal_i hal))).

Definition example_account_request (address : string) : Request :=
  mkRequest ("/account/" +:+ address) address "" "" "".

(** Keys that are their text and weight; nothing comes from the standard
    input. *)
Definition example_key_env : KeyEnv string string (string * Z) :=
  mkKeyEnv string string (string * Z)
    (fun s => s)
    (Err (Errorf "no input"))
    (fun s => if String.eqb s "" then Err (Errorf "empty key") else Ok (IsPublickey s))
    (fun priv => priv)
    (fun pk weight => Ok (pk, weight))
    (fun _ => None).

(** Account records of [A] at heights 1 and 3, and one of [B]. *)
Definition example_database_accounts : Database :=
  mkDatabase
    (mkMongo
       (NewAccountDoc <$> [mkAccountValue (mkAccount "A") [] 1 0;
                           mkAccountValue (mkAccount "A") [] 3 1;
                           mkAccountValue (mkAccount "B") [] 5 2])
       [] (example_balances "A") [] [] ∅ false)
    false NilHeight.

(** * Properties *)

(** ** Offsets *)

Ltac int_consts :=
  change cutoff64 with 1844674407370955162 in *;
  unfold is_int64, is_uint64, minInt64, maxInt64, maxUint64,
    wrap_uint64, wrap_int64 in *;
  change (2 ^ 64) with 18446744073709551616 in *;
  change (2 ^ 63) with 9223372036854775808 in *.

Lemma digit_of_digit_char d : 0 <= d < 10 -> digit_of (digit_char d) = Some d.
Proof.
  intros Hd.
  assert (d = 0 \/ d = 1 \/ d = 2 \/ d = 3 \/ d = 4 \/ d = 5 \/ d = 6
          \/ d = 7 \/ d = 8 \/ d = 9) as Hc by lia.
  repeat (destruct Hc as [-> | Hc]; [reflexivity |]). subst d. reflexivity.
Qed.

Lemma digit_not_sign c :
  is_Some (digit_of c) ->
  Ascii.eqb c "+" = false /\ Ascii.eqb c "-" = false /\ Ascii.eqb c "," = false.
Proof.
  intros [d Hd]. repeat split.
  all: destruct (Ascii.eqb_spec c "+"), (Ascii.eqb_spec c "-"), (Ascii.eqb_spec c ",");
    subst; try discriminate; reflexivity.
Qed.

Lemma append_cons (c : ascii) (s1 s2 : string) :
  String c s1 +:+ s2 = String c (s1 +:+ s2).
Proof. reflexivity. Qed.

Lemma append_assoc' (s1 s2 s3 : string) : (s1 +:+ s2) +:+ s3 = s1 +:+ (s2 +:+ s3).
Proof.
  induction s1 as [| c s1 IH]; [reflexivity |].
  rewrite !append_cons. f_equal. apply IH.
Qed.

Lemma ParseUint_loop_app s1 s2 n :
  ParseUint_loop (s1 +:+ s2) n =
  match ParseUint_loop s1 n with
  | inr m => ParseUint_loop s2 m
  | inl e => inl e
  end.
Proof.
  revert n. induction s1 as [| c s1 IH]; intros n; [reflexivity |].
  rewrite append_cons. cbn [ParseUint_loop].
  destruct (digit_of c) as [d |]; [| reflexivity].
  destruct (n >=? cutoff64); [reflexivity |].
  cbv zeta. destruct (_ || _); [reflexivity | apply IH].
Qed.

Lemma ParseUint_loop_digit n d :
  0 <= n -> 0 <= d < 10 -> n * 10 + d <= maxUint64 ->
  ParseUint_loop (String (digit_char d) EmptyString) n = inr (n * 10 + d).
Proof.
  intros Hn Hd Hmax. cbn [ParseUint_loop]. rewrite digit_of_digit_char by done.
  int_consts.
  destruct (Z.geb_spec n 1844674407370955162) as [Hge | _]; [lia |].
  cbv zeta. rewrite Z.mod_small by lia.
  destruct (Z.ltb_spec (n * 10 + d) (n * 10)); [lia |].
  destruct (Z.gtb_spec (n * 10 + d) (18446744073709551616 - 1)); [lia |]. reflexivity.
Qed.

Lemma div10_facts u :
  0 <= u -> 0 <= u / 10 /\ 0 <= u mod 10 < 10 /\ u = u / 10 * 10 + u mod 10.
Proof.
  intros Hu. pose proof (Z.div_mod u 10 ltac:(lia)).
  pose proof (Z.mod_pos_bound u 10 ltac:(lia)).
  pose proof (Z.div_pos u 10 Hu ltac:(lia)). lia.
Qed.

Lemma ParseUint_loop_formatBits fuel u :
  0 <= u < 10 ^ Z.of_nat fuel -> u <= maxUint64 ->
  ParseUint_loop (formatBits fuel u) 0 = inr u.
Proof.
  revert u. induction fuel as [| f IH]; intros u Hu Hmax.
  - simpl in *. f_equal. lia.
  - cbn [formatBits]. rewrite ParseUint_loop_app.
    rewrite Nat2Z.inj_succ, Z.pow_succ_r in Hu by lia.
    destruct (div10_facts u ltac:(lia)) as (Hq & Hr & E).
    destruct (Z.ltb_spec u 10) as [Hlt | Hge].
    + change (ParseUint_loop EmptyString 0) with (@inr NumError Z 0).
      cbv beta iota. rewrite Z.mod_small by lia.
      by rewrite ParseUint_loop_digit by (int_consts; lia).
    + rewrite IH by (int_consts; lia).
      rewrite ParseUint_loop_digit by (int_consts; lia). f_equal. lia.
Qed.

Lemma formatBits_head f u :
  0 <= u -> exists c rest, formatBits (S f) u = String c rest /\ is_Some (digit_of c).
Proof.
  revert u. induction f as [| f IH]; intros u Hu.
  - destruct (div10_facts u Hu) as (_ & Hr & _).
    exists (digit_char (u mod 10)), EmptyString. split.
    + cbn [formatBits]. by destruct (u <? 10).
    + rewrite digit_of_digit_char by lia. eauto.
  - change (formatBits (S (S f)) u)
      with ((if u <? 10 then EmptyString else formatBits (S f) (u / 10))
              +:+ String (digit_char (u mod 10)) EmptyString).
    destruct (div10_facts u Hu) as (Hq & Hr & _).
    destruct (u <? 10).
    + exists (digit_char (u mod 10)), EmptyString. split; [reflexivity |].
      rewrite digit_of_digit_char by lia. eauto.
    + destruct (IH (u / 10)) as (c & rest & -> & Hc); [lia |].
      eexists _, _. split; [reflexivity | done].
Qed.

Lemma ParseUint_FormatUint u : is_uint64 u -> ParseUint (FormatUint u) = inr u.
Proof.
  intros [Hu Hmax]. unfold FormatUint, ParseUint.
  destruct (formatBits_head 19 u Hu) as (c & rest & E & _).
  rewrite E, <- E. apply ParseUint_loop_formatBits; [| done].
  change (10 ^ Z.of_nat 20) with 100000000000000000000. int_consts. lia.
Qed.

Lemma wrap_int64_small z : is_int64 z -> wrap_int64 z = z.
Proof.
  intros H. int_consts. rewrite Z.mod_small; lia.
Qed.

Lemma ParseInt_FormatInt h : is_int64 h -> ParseInt (FormatInt h) = inr h.
Proof.
  intros Hh. pose proof Hh as [Hlo Hhi]. unfold minInt64, maxInt64 in Hlo, Hhi.
  change (2 ^ 63) with 9223372036854775808 in Hlo, Hhi.
  unfold FormatInt. destruct (Z.ltb_spec h 0) as [Hneg | Hpos].
  - cbn [ParseInt]. change (Ascii.eqb "-" "+") with false.
    change (Ascii.eqb "-" "-") with true. cbv iota beta.
    rewrite ParseUint_FormatUint by (int_consts; lia).
    cbv zeta. cbn [negb andb].
    change (2 ^ 63) with 9223372036854775808.
    destruct (Z.gtb_spec (- h) 9223372036854775808); [lia |]. f_equal.
    destruct (Z.eq_dec h (- 9223372036854775808)) as [-> | Hne]; [reflexivity |].
    rewrite (wrap_int64_small (- h)) by (int_consts; lia).
    rewrite Z.opp_involutive. by apply wrap_int64_small.
  - destruct (formatBits_head 19 h Hpos) as (c & rest & E & Hc).
    unfold FormatUint at 1. rewrite E. cbn [ParseInt].
    destruct (digit_not_sign c Hc) as (-> & -> & _). rewrite <- E.
    fold (FormatUint h).
    rewrite ParseUint_FormatUint by (int_consts; lia).
    cbv zeta. cbn [negb andb].
    change (2 ^ 63) with 9223372036854775808.
    destruct (Z.geb_spec h 9223372036854775808); [lia |]. f_equal.
    by apply wrap_int64_small.
Qed.

Lemma chars_append (s1 s2 : string) :
  list_ascii_of_string (s1 +:+ s2) = list_ascii_of_string s1 ++ list_ascii_of_string s2.
Proof.
  induction s1 as [| c s1 IH]; [reflexivity |].
  rewrite append_cons. cbn [list_ascii_of_string]. by rewrite IH.
Qed.

Lemma cut_comma_append s1 s2 :
  (forall c, In c (list_ascii_of_string s1) -> Ascii.eqb c "," = false) ->
  cut_comma (s1 +:+ String "," s2) = Some (s1, s2).
Proof.
  induction s1 as [| c s1 IH]; intros Hno; [reflexivity |].
  rewrite append_cons. cbn [cut_comma].
  rewrite (Hno c) by (left; reflexivity).
  rewrite IH; [reflexivity |]. intros c' Hc'. apply Hno. by right.
Qed.

Lemma formatBits_digits f u c :
  0 <= u -> In c (list_ascii_of_string (formatBits f u)) -> is_Some (digit_of c).
Proof.
  revert u. induction f as [| f IH]; intros u Hu; [intros [] |].
  cbn [formatBits]. rewrite chars_append, in_app_iff.
  destruct (div10_facts u Hu) as (Hq & Hr & _).
  intros [Hin | [<- | []]].
  - destruct (u <? 10); [destruct Hin | by apply (IH (u / 10))].
  - rewrite digit_of_digit_char by lia. eauto.
Qed.

Lemma FormatInt_no_comma h c :
  In c (list_ascii_of_string (FormatInt h)) -> Ascii.eqb c "," = false.
Proof.
  unfold FormatInt, FormatUint. destruct (Z.ltb_spec h 0) as [Hneg | Hpos].
  - intros [<- | Hin]; [reflexivity |].
    apply formatBits_digits in Hin; [| lia]. by apply digit_not_sign.
  - intros Hin. apply formatBits_digits in Hin; [| lia]. by apply digit_not_sign.
Qed.

(** C1. For every height and every index in the range of their types,
    [parseOffset] succeeds on [buildOffset(h, i)] and returns [(h, i)]; the
    valid heights, those from [PreGenesisHeight] on, are among them. *)
Theorem parseOffset_buildOffset (h : Height) (i : Z) :
  is_int64 h -> is_uint64 i -> parseOffset (buildOffset h i) = Ok (h, i).
Proof.
  intros Hh Hi. unfold parseOffset, buildOffset, SplitN_comma_2.
  change ("," +:+ FormatUint i) with (String "," (FormatUint i)).
  rewrite cut_comma_append by apply FormatInt_no_comma.
  unfold NewHeightFromString. rewrite ParseInt_FormatInt by done.
  by rewrite ParseUint_FormatUint.
Qed.

Lemma parseOffset_buildOffset_witness :
  is_int64 (-1) /\ is_uint64 18446744073709551615
  /\ parseOffset (buildOffset (-1) 18446744073709551615)
     = Ok (-1, 18446744073709551615).
Proof.
  assert (is_int64 (-1)) as H1 by (int_consts; lia).
  assert (is_uint64 18446744073709551615) as H2 by (int_consts; lia).
  split; [exact H1 |]. split; [exact H2 |].
  exact (parseOffset_buildOffset (-1) 18446744073709551615 H1 H2).
Defined.

Example buildOffset_33_7 : buildOffset 33 7 = "33,7".
Proof. reflexivity. Qed.
Example buildOffset_min : buildOffset (-9223372036854775808) 0 = "-9223372036854775808,0".
Proof. vm_compute. reflexivity. Qed.
Example parseOffset_empty : parseOffset "" = Err (Errorf "invalid offset").
Proof. reflexivity. Qed.

(** ** The marker *)

Lemma setLastBlock_up (h : Height) (st : Database) :
  down (database st) = false ->
  exists m, setLastBlock h st = (None, mkDatabase m (readonly st) h)
            /\ col_ac m = col_ac (database st) /\ col_dm m = col_dm (database st)
            /\ col_bl m = col_bl (database st) /\ col_op m = col_op (database st)
            /\ col_fd m = col_fd (database st) /\ down m = false.
Proof.
  intros Hup. unfold setLastBlock, SetInfo. rewrite Hup.
  eexists. split; [reflexivity |]. by repeat split.
Qed.

Lemma setLastBlock_marker (h : Height) (st : Database) :
  lastBlock (setLastBlock h st).2
  = match (setLastBlock h st).1 with Some _ => lastBlock st | None => h end.
Proof. unfold setLastBlock, SetInfo. by destruct (down (database st)). Qed.

Lemma SetLastBlock_cases (h : Height) (st : Database) :
  lastBlock (SetLastBlock h st).2 = lastBlock st
  \/ (lastBlock st < h /\ (SetLastBlock h st).1 = None
      /\ lastBlock (SetLastBlock h st).2 = h).
Proof.
  unfold SetLastBlock. destruct (readonly st); [by left |].
  destruct (Z.leb_spec h (lastBlock st)); [by left |].
  rewrite setLastBlock_marker.
  destruct (setLastBlock h st).1 eqn:E; [by left | right; done].
Qed.

(** C6. On a writable store [SetLastBlock(h)] with [h] at or below the marker
    returns nil and changes nothing; with [h] above the marker it sets the
    marker to [h] when it succeeds, and it succeeds when the storage answers;
    in no case does the marker decrease. *)
Theorem SetLastBlock_monotone (h : Height) (st : Database) :
  readonly st = false ->
  (h <= lastBlock st -> SetLastBlock h st = (None, st))
  /\ (lastBlock st < h ->
      forall st', SetLastBlock h st = (None, st') -> lastBlock st' = h)
  /\ (lastBlock st < h -> down (database st) = false ->
      (SetLastBlock h st).1 = None)
  /\ lastBlock st <= lastBlock (SetLastBlock h st).2.
Proof.
  intros Hrw. unfold SetLastBlock. rewrite Hrw. repeat split.
  - intros Hle. by destruct (Z.leb_spec h (lastBlock st)); [| lia].
  - intros Hlt st' E. destruct (Z.leb_spec h (lastBlock st)); [lia |].
    pose proof (setLastBlock_marker h st) as Hm. rewrite E in Hm. exact Hm.
  - intros Hlt Hup. destruct (Z.leb_spec h (lastBlock st)); [lia |].
    destruct (setLastBlock_up h st Hup) as (m & -> & _). reflexivity.
  - destruct (Z.leb_spec h (lastBlock st)); [simpl; lia |].
    rewrite setLastBlock_marker. destruct (setLastBlock h st).1; lia.
Qed.

Lemma SetLastBlock_monotone_witness :
  readonly example_database = false
  /\ SetLastBlock 1 example_database = (None, example_database)
  /\ lastBlock example_database <= lastBlock (SetLastBlock 3 example_database).2.
Proof.
  pose proof (SetLastBlock_monotone 1 example_database eq_refl) as (H1 & _).
  pose proof (SetLastBlock_monotone 3 example_database eq_refl) as (_ & _ & _ & H4).
  split; [reflexivity |]. split; [apply H1; vm_compute; discriminate | exact H4].
Defined.

Example SetLastBlock_3 : lastBlock (SetLastBlock 3 example_database).2 = 3.
Proof. reflexivity. Qed.

(** ** Cleaning *)

Lemma elem_of_keep_below {D} (hgt : D -> Height) (h : Height) (l : list D) (d : D) :
  d ∈ keep_below hgt h l <-> d ∈ l /\ hgt d < h.
Proof.
  unfold keep_below. rewrite !list_elem_of_In, filter_In.
  by rewrite Z.ltb_lt.
Qed.

(** C2, as the code has it.  On a writable store whose storage answers,
    [CleanByHeight(h)] succeeds; for [h > 0] it leaves in the account,
    document, balance and operation collections exactly the records below
    [h] and sets the marker to [h - 1]; for [h <= 0] it empties all five
    collections and sets the marker to [NilHeight]. *)
Theorem CleanByHeight_spec (h : Height) (st : Database) :
  readonly st = false -> down (database st) = false ->
  exists st', CleanByHeight h st = (None, st')
  /\ (0 < h ->
      (forall d, d ∈ col_ac (database st') <-> d ∈ col_ac (database st) /\ acd_height d < h)
      /\ (forall d, d ∈ col_dm (database st') <-> d ∈ col_dm (database st) /\ dm_height d < h)
      /\ (forall d, d ∈ col_bl (database st') <-> d ∈ col_bl (database st) /\ bl_height d < h)
      /\ (forall d, d ∈ col_op (database st') <-> d ∈ col_op (database st) /\ od_height d < h)
      /\ lastBlock st' = h - 1)
  /\ (h <= 0 ->
      (forall c, col_heights c (database st') = []) /\ lastBlock st' = NilHeight).
Proof.
  intros Hrw Hup. unfold CleanByHeight, cleanByHeight. rewrite Hrw.
  change (PreGenesisHeight + 1) with 0.
  destruct (Z.leb_spec h 0) as [Hle | Hgt].
  - unfold clean. cbn [drop_collections]. unfold Drop.
    repeat (cbn [down col_ac col_dm col_bl col_op col_fd info]; rewrite ?Hup).
    unfold with_database.
    match goal with |- context [setLastBlock ?x ?s] =>
      destruct (setLastBlock_up x s) as (m & -> & Ha & Hd & Hb & Ho & Hf & _) end;
      [reflexivity |].
    eexists. split; [reflexivity |]. split; [lia |]. intros _. split; [| reflexivity].
    cbn [database col_ac col_dm col_bl col_op col_fd] in *.
    intros []; cbn [col_heights]; rewrite ?Ha, ?Hd, ?Hb, ?Ho, ?Hf; reflexivity.
  - cbn [remove_collections]. unfold BulkWrite_removeByHeight.
    repeat (cbn [down col_ac col_dm col_bl col_op col_fd info]; rewrite ?Hup).
    unfold with_database.
    match goal with |- context [setLastBlock ?x ?s] =>
      destruct (setLastBlock_up x s) as (m & -> & Ha & Hd & Hb & Ho & Hf & _) end;
      [reflexivity |].
    eexists. split; [reflexivity |]. split; [| lia]. intros _.
    cbn [database lastBlock col_ac col_dm col_bl col_op col_fd] in *.
    rewrite Ha, Hd, Hb, Ho.
    repeat (split; [intros d; apply elem_of_keep_below |]). reflexivity.
Qed.

Lemma CleanByHeight_spec_witness :
  readonly example_database = false /\ down (database example_database) = false
  /\ exists st', CleanByHeight 2 example_database = (None, st')
                 /\ lastBlock st' = 2 - 1.
Proof.
  split; [reflexivity |]. split; [reflexivity |].
  destruct (CleanByHeight_spec 2 example_database eq_refl eq_refl)
    as (st' & E & Hpos & _).
  exists st'. split; [exact E |]. apply Hpos. lia.
Defined.

(** C2, as stated, fails at the genesis height: the marker becomes
    [NilHeight], not [0 - 1]. *)
Lemma CleanByHeight_genesis_counterexample :
  readonly example_database = false
  /\ (CleanByHeight 0 example_database).1 = None
  /\ lastBlock (CleanByHeight 0 example_database).2 = NilHeight
  /\ lastBlock (CleanByHeight 0 example_database).2 <> 0 - 1.
Proof. repeat split. vm_compute. discriminate. Qed.

(** For [h > 0] the file collection is not among those cleaned: the record of
    height 2 is still there after [CleanByHeight(1)], while [Clean] drops it. *)
Lemma CleanByHeight_leaves_filedata :
  (CleanByHeight 1 example_database).1 = None
  /\ col_heights defaultColNameFileData (database (CleanByHeight 1 example_database).2) = [2]
  /\ col_heights defaultColNameFileData (database (Clean example_database).2) = [].
Proof. repeat split. Qed.

(** ** Digesting a block *)

Section DigestBlock.
Context {Block BlockSession : Type} (ops : BlockSessionOps Block BlockSession).
Hypothesis Hkeep : session_keeps_marker ops.

Lemma Prepare_marker bs st : lastBlock (Prepare ops bs st).2 = lastBlock st.
Proof. apply Hkeep. Qed.
Lemma Commit_marker bs st : lastBlock (Commit ops bs st).2 = lastBlock st.
Proof. apply Hkeep. Qed.
Lemma Close_marker bs st : lastBlock (Close ops bs st) = lastBlock st.
Proof. apply Hkeep. Qed.

(** The marker after [DigestBlock] is the old one, or the height of the
    block after a [Prepare] and a [Commit] that both returned nil. *)
Lemma DigestBlock_cases (st : Database) (blk : Block) :
  lastBlock (DigestBlock ops st blk).2 = lastBlock st
  \/ exists bs bs1 st1 bs2 st2,
      NewBlockSession ops st blk = Ok bs
      /\ Prepare ops bs st = (None, bs1, st1)
      /\ Commit ops bs1 st1 = (None, bs2, st2)
      /\ (DigestBlock ops st blk).1 = None
      /\ lastBlock (DigestBlock ops st blk).2 = blk_Height ops blk.
Proof.
  unfold DigestBlock.
  destruct (NewBlockSession ops st blk) as [bs | e] eqn:EN; [| by left].
  pose proof (Prepare_marker bs st) as HP.
  destruct (Prepare ops bs st) as [[[e1 |] bs1] st1] eqn:EP; cbn [snd] in HP.
  { left. cbn. by rewrite Close_marker. }
  pose proof (Commit_marker bs1 st1) as HC.
  destruct (Commit ops bs1 st1) as [[[e2 |] bs2] st2] eqn:EC; cbn [snd] in HC.
  { left. cbn. rewrite Close_marker. congruence. }
  destruct (SetLastBlock_cases (blk_Height ops blk) st2) as [Hsame | (Hlt & Hnil & Hset)];
    destruct (SetLastBlock (blk_Height ops blk) st2) as [r st3]; cbn in *.
  - left. rewrite Close_marker. congruence.
  - right. exists bs, bs1, st1, bs2, st2. rewrite Close_marker. by repeat split.
Qed.
End DigestBlock.

(** C3. With a block session that leaves the marker alone, [DigestBlock]
    returns the error of a failing [Prepare] or [Commit] and leaves the marker
    where it was; after both have succeeded its result and marker are those
    of [SetLastBlock] at the block's height; and whenever the marker has
    moved, both had succeeded and the marker is the block's height. *)
Theorem DigestBlock_marker {Block BlockSession : Type}
    (ops : BlockSessionOps Block BlockSession) (st : Database) (blk : Block) :
  session_keeps_marker ops ->
  (forall bs err bs1 st1,
      NewBlockSession ops st blk = Ok bs ->
      Prepare ops bs st = (Some err, bs1, st1) ->
      (DigestBlock ops st blk).1 = Some err
      /\ lastBlock (DigestBlock ops st blk).2 = lastBlock st)
  /\ (forall bs bs1 st1 err bs2 st2,
      NewBlockSession ops st blk = Ok bs ->
      Prepare ops bs st = (None, bs1, st1) ->
      Commit ops bs1 st1 = (Some err, bs2, st2) ->
      (DigestBlock ops st blk).1 = Some err
      /\ lastBlock (DigestBlock ops st blk).2 = lastBlock st)
  /\ (forall bs bs1 st1 bs2 st2,
      NewBlockSession ops st blk = Ok bs ->
      Prepare ops bs st = (None, bs1, st1) ->
      Commit ops bs1 st1 = (None, bs2, st2) ->
      (DigestBlock ops st blk).1 = (SetLastBlock (blk_Height ops blk) st2).1
      /\ lastBlock (DigestBlock ops st blk).2
         = lastBlock (SetLastBlock (blk_Height ops blk) st2).2)
  /\ (lastBlock (DigestBlock ops st blk).2 <> lastBlock st ->
      exists bs bs1 st1 bs2 st2,
        NewBlockSession ops st blk = Ok bs
        /\ Prepare ops bs st = (None, bs1, st1)
        /\ Commit ops bs1 st1 = (None, bs2, st2)
        /\ lastBlock (DigestBlock ops st blk).2 = blk_Height ops blk).
Proof.
  intros Hkeep. split; [| split; [| split]].
  - intros bs err bs1 st1 EN EP. unfold DigestBlock. rewrite EN, EP. cbn.
    rewrite Close_marker by done.
    pose proof (Prepare_marker ops Hkeep bs st) as HP. by rewrite EP in HP.
  - intros bs bs1 st1 err bs2 st2 EN EP EC. unfold DigestBlock.
    rewrite EN, EP, EC. cbn. rewrite Close_marker by done.
    pose proof (Prepare_marker ops Hkeep bs st) as HP. rewrite EP in HP.
    pose proof (Commit_marker ops Hkeep bs1 st1) as HC. rewrite EC in HC.
    cbn in *. split; [reflexivity | congruence].
  - intros bs bs1 st1 bs2 st2 EN EP EC. unfold DigestBlock. rewrite EN, EP, EC.
    destruct (SetLastBlock (blk_Height ops blk) st2) as [r st3]. cbn.
    by rewrite Close_marker.
  - intros Hmoved.
    destruct (DigestBlock_cases ops Hkeep st blk)
      as [Hsame | (bs & bs1 & st1 & bs2 & st2 & ? & ? & ? & ? & ?)]; [done |].
    by exists bs, bs1, st1, bs2, st2.
Qed.

Lemma example_session_keeps_marker pf cf : session_keeps_marker (example_session pf cf).
Proof.
  repeat split; intros bs st; cbn; [destruct (pf bs) | destruct (cf bs)]; reflexivity.
Qed.

Lemma DigestBlock_marker_witness :
  session_keeps_marker (example_session (fun _ => false) (Z.eqb 4))
  /\ ((DigestBlock (example_session (fun _ => false) (Z.eqb 4)) example_database 4).1
      = Some (Errorf "commit")
      /\ lastBlock (DigestBlock (example_session (fun _ => false) (Z.eqb 4))
                      example_database 4).2 = 2).
Proof.
  split; [apply example_session_keeps_marker |].
  pose proof (DigestBlock_marker (example_session (fun _ => false) (Z.eqb 4))
                example_database 4 (example_session_keeps_marker _ _))
    as (_ & Hcommit & _).
  exact (Hcommit 4 4 example_database (Errorf "commit") 4 example_database
           eq_refl eq_refl eq_refl).
Defined.

Example DigestBlock_3 :
  (DigestBlock (example_session (fun _ => false) (Z.eqb 4)) example_database 3).1 = None
  /\ lastBlock (DigestBlock (example_session (fun _ => false) (Z.eqb 4))
                  example_database 3).2 = 3.
Proof. split; reflexivity. Qed.

(** ** Scans of the operation collection *)

Lemma existsb_elem_of (key : string) (l : list string) :
  existsb (fun a => String.eqb a key || false) l = true <-> key ∈ l.
Proof.
  rewrite existsb_exists. split.
  - intros (x & Hin & Hx). cbn in Hx. rewrite orb_false_r in Hx.
    apply String.eqb_eq in Hx as ->. by apply list_elem_of_In.
  - intros Hin. exists key. split; [by apply list_elem_of_In |].
    cbn. by rewrite String.eqb_refl.
Qed.

Lemma parseOffset_nonempty (offset : string) p :
  parseOffset offset = Ok p -> (0 <? String.length offset)%nat = true.
Proof. destruct offset; [discriminate | reflexivity]. Qed.

(** The filter of [buildOperationsFilterByAddress] selects the records of
    the address that lie past the offset. *)
Lemma build_filter_matches address offset reverse h i :
  parseOffset offset = Ok (h, i) ->
  exists filter,
    buildOperationsFilterByAddress address offset reverse = Ok filter
    /\ forall d, matches filter d = true
                 <-> StateAddressKeyPrefix address ∈ od_addresses d
                     /\ beyond_offset reverse h i d.
Proof.
  intros Hp. unfold buildOperationsFilterByAddress.
  rewrite (parseOffset_nonempty _ _ Hp), Hp.
  destruct reverse; eexists; (split; [reflexivity |]); intros d;
    cbn [app matches forallb existsb cmp_holds field_of beyond_offset];
    rewrite !andb_true_r, !orb_false_r, andb_true_iff, orb_true_iff, andb_true_iff;
    rewrite existsb_elem_of; rewrite ?Z.ltb_lt, ?Z.gtb_gt, ?Z.eqb_eq; reflexivity.
Qed.

Lemma build_filter_no_offset address reverse :
  exists filter,
    buildOperationsFilterByAddress address "" reverse = Ok filter
    /\ forall d, matches filter d = true
                 <-> StateAddressKeyPrefix address ∈ od_addresses d.
Proof.
  eexists. split; [reflexivity |]. intros d. cbn [matches forallb existsb].
  by rewrite andb_true_r, existsb_elem_of.
Qed.

Lemma filter_bool_prop {A} (b : A -> bool) (P : A -> Prop) `{!forall x, Decision (P x)}
    (l : list A) :
  (forall x, b x = true <-> P x) -> List.filter b l = filter P l.
Proof.
  intros Hb. induction l as [| x l IH]; [reflexivity |].
  cbn [List.filter]. rewrite filter_cons, IH.
  destruct (decide (P x)) as [HP | HP], (b x) eqn:E; try reflexivity.
  - apply Hb in HP. congruence.
  - apply Hb in E. done.
Qed.

(** *** The order of the sort *)

Lemma key_leb_total d1 d2 : key_leb d1 d2 = true \/ key_leb d2 d1 = true.
Proof.
  unfold key_leb.
  destruct (Z.ltb_spec (od_height d1) (od_height d2)); [by left |].
  destruct (Z.ltb_spec (od_height d2) (od_height d1)); [by right |].
  destruct (Z.eqb_spec (od_height d1) (od_height d2)); [| lia].
  destruct (Z.eqb_spec (od_height d2) (od_height d1)); [| lia].
  destruct (Z.leb_spec (od_index d1) (od_index d2)); [by left |].
  destruct (Z.leb_spec (od_index d2) (od_index d1)); [by right | lia].
Qed.

#[local] Instance sort_le_total sr : Total (sort_le sr).
Proof.
  intros d1 d2. unfold sort_le.
  destruct (sr =? 1), (key_leb_total d1 d2); auto.
Qed.

Lemma key_leb_order d1 d2 : key_leb d1 d2 = true <-> scan_order false d1 d2.
Proof.
  unfold key_leb, scan_order.
  by rewrite orb_true_iff, andb_true_iff, Z.ltb_lt, Z.eqb_eq, Z.leb_le.
Qed.

Lemma sort_le_order (reverse : bool) d1 d2 :
  sort_le (if reverse then -1 else 1) d1 d2 <-> scan_order reverse d1 d2.
Proof.
  destruct reverse; [exact (key_leb_order d2 d1) | exact (key_leb_order d1 d2)].
Qed.

Lemma Sorted_iff {A} (R1 R2 : relation A) (l : list A) :
  (forall x y, R1 x y <-> R2 x y) -> Sorted R1 l -> Sorted R2 l.
Proof.
  intros HR. induction 1 as [| x l Hs IH Hhd]; constructor; [done |].
  destruct Hhd; constructor. by apply HR.
Qed.

Lemma Sorted_prefix {A} (R : relation A) (l1 l2 : list A) :
  Sorted R (l1 ++ l2) -> Sorted R l1.
Proof.
  induction l1 as [| x l1 IH]; [constructor |].
  cbn. intros Hs. apply Sorted_inv in Hs as [Hs Hhd]. constructor; [by apply IH |].
  destruct l1; [constructor |]. cbn in Hhd. apply HdRel_inv in Hhd. by constructor.
Qed.

(** *** The cursor *)

Lemma operations_options_sort load reverse limit :
  opt_sort (operations_options load reverse limit) = (if reverse then -1 else 1).
Proof.
  unfold operations_options.
  by destruct load, reverse, (limit <=? 0), (limit >? maxLimit).
Qed.

Lemma operations_options_limit load reverse limit :
  opt_limit (operations_options load reverse limit)
  = if limit <=? 0 then None else Some (Z.min limit maxLimit).
Proof.
  unfold operations_options.
  destruct (Z.leb_spec limit 0); [by destruct load |].
  destruct (Z.gtb_spec limit maxLimit); destruct load; cbn; f_equal; lia.
Qed.

Section cursor.
Context {T : Type} (load : bool)
  (callback : Hash -> OperationValue -> T -> bool * option error * T).

Lemma cursor_delivered docs s log :
  exists k, (cursor_each (operations_cursor load callback) docs (s, log)).2.2
            = log ++ take k docs.
Proof.
  revert s log. induction docs as [| d docs IH]; intros s log.
  - exists 0%nat. cbn. by rewrite app_nil_r.
  - cbn [cursor_each]. unfold operations_cursor at 1.
    unfold loadOperationHash, loadOperation. cbn [fst snd].
    destruct load; cbn [negb].
    + destruct (callback _ _ s) as [[[] [e |]] s'];
        try (exists 1%nat; reflexivity).
      destruct (IH s' (log ++ [d])) as [k Hk]. exists (S k).
      rewrite Hk. cbn [take]. by rewrite <- app_assoc.
    + destruct (callback _ _ s) as [[[] [e |]] s'];
        try (exists 1%nat; reflexivity).
      destruct (IH s' (log ++ [d])) as [k Hk]. exists (S k).
      rewrite Hk. cbn [take]. by rewrite <- app_assoc.
Qed.

Lemma cursor_runs docs s log :
  never_stops callback ->
  exists s', cursor_each (operations_cursor load callback) docs (s, log)
             = (None, (s', log ++ docs)).
Proof.
  intros Hgo. revert s log. induction docs as [| d docs IH]; intros s log.
  - exists s. cbn. by rewrite app_nil_r.
  - cbn [cursor_each]. unfold operations_cursor at 1.
    unfold loadOperationHash, loadOperation. cbn [fst snd].
    destruct load; cbn [negb].
    + destruct (Hgo (ov_fact (od_value d)) (od_value d) s) as [s' ->].
      destruct (IH s' (log ++ [d])) as [s'' ->]. exists s''.
      by rewrite <- app_assoc.
    + destruct (Hgo (od_fact d) OperationValue_zero s) as [s' ->].
      destruct (IH s' (log ++ [d])) as [s'' ->]. exists s''.
      by rewrite <- app_assoc.
Qed.

(** What [Find] delivers under the options of the two functions: a prefix
    of the page of the sorted matches, and the whole page when the server
    answers and the callback never stops. *)
Lemma Find_delivered (m : Mongo) (filter : bsonM) (reverse : bool) (limit : Z) (s : T) :
  let L := merge_sort (sort_le (if reverse then -1 else 1))
                      (List.filter (matches filter) (col_op m)) in
  let r := Find m filter (operations_cursor load callback)
                (operations_options load reverse limit) (s, []) in
  (exists k, r.2.2 = take k (page_of limit L))
  /\ (down m = false -> never_stops callback ->
      r.1 = None /\ r.2.2 = page_of limit L).
Proof.
  intros L r. subst r. unfold Find.
  rewrite operations_options_sort, operations_options_limit. fold L.
  replace (match (if limit <=? 0 then None else Some (Z.min limit maxLimit)) with
           | Some n => take (Z.to_nat n) L
           | None => L
           end) with (page_of limit L)
    by (unfold page_of; by destruct (limit <=? 0)).
  destruct (down m).
  - split; [by exists 0%nat | done].
  - split.
    + destruct (cursor_delivered (page_of limit L) s []) as [k Hk]. by exists k.
    + intros _ Hgo. destruct (cursor_runs (page_of limit L) s [] Hgo) as [s' ->].
      done.
Qed.
End cursor.

Lemma OperationsByAddress_Find {T : Type} st address load reverse offset limit
    (callback : Hash -> OperationValue -> T -> bool * option error * T) s filter :
  buildOperationsFilterByAddress address offset reverse = Ok filter ->
  let r := Find (database st) filter (operations_cursor load callback)
                (operations_options load reverse limit) (s, []) in
  OperationsByAddress st address load reverse offset limit callback s
  = (r.1, r.2.1, r.2.2).
Proof.
  intros Hf. unfold OperationsByAddress. rewrite Hf. cbv zeta.
  by destruct (Find _ _ _ _ _) as [err [s' delivered]].
Qed.

Lemma Operations_Find {T : Type} st filter load reverse limit
    (callback : Hash -> OperationValue -> T -> bool * option error * T) s :
  let r := Find (database st) filter (operations_cursor load callback)
                (operations_options load reverse limit) (s, []) in
  Operations st filter load reverse limit callback s = (r.1, r.2.1, r.2.2).
Proof.
  unfold Operations. cbv zeta.
  by destruct (Find _ _ _ _ _) as [err [s' delivered]].
Qed.

Lemma take_page_prefix limit k (L : list OperationDoc) :
  take k (page_of limit L) `prefix_of` L.
Proof.
  unfold page_of. destruct (limit <=? 0).
  - apply prefix_take.
  - etrans; apply prefix_take.
Qed.

(** C4. With an offset [(h, i)] the records in the range of a scan are
    exactly the records of the address past the offset (above it forward,
    below it in reverse), each once, in ascending [(height, index)] order
    forward and descending order in reverse; the scan delivers them in that
    order: what it delivers is a prefix of that sequence, and the page of the
    sequence (all of it when no limit is set) when the server answers and the
    callback never stops. *)
Theorem OperationsByAddress_scan {T : Type} (st : Database) (address : Address)
    (load reverse : bool) (offset : string) (limit : Z)
    (callback : Hash -> OperationValue -> T -> bool * option error * T) (s : T)
    (h : Height) (i : Z) :
  parseOffset offset = Ok (h, i) ->
  exists L : list OperationDoc,
    L ≡ₚ filter (fun d => StateAddressKeyPrefix address ∈ od_addresses d
                          /\ beyond_offset reverse h i d)
                (col_op (database st))
    /\ Sorted (scan_order reverse) L
    /\ (OperationsByAddress st address load reverse offset limit callback s).2
         `prefix_of` L
    /\ (down (database st) = false -> never_stops callback ->
        (OperationsByAddress st address load reverse offset limit callback s).1.1 = None
        /\ (OperationsByAddress st address load reverse offset limit callback s).2
           = page_of limit L).
Proof.
  intros Hp.
  destruct (build_filter_matches address offset reverse h i Hp) as (f & Hf & Hm).
  rewrite (OperationsByAddress_Find _ _ _ _ _ _ _ _ f Hf). cbv zeta. cbn [fst snd].
  pose proof (Find_delivered load callback (database st) f reverse limit s) as HF.
  cbv zeta in HF. destruct HF as [[k Hk] Hall].
  set (L := merge_sort (sort_le (if reverse then -1 else 1))
                       (List.filter (matches f) (col_op (database st)))) in *.
  exists L. split; [| split; [| split]].
  - unfold L. rewrite merge_sort_Permutation.
    by rewrite (filter_bool_prop _ _ _ Hm).
  - apply (Sorted_iff (sort_le (if reverse then -1 else 1))).
    + apply sort_le_order.
    + apply Sorted_merge_sort, _.
  - rewrite Hk. apply take_page_prefix.
  - exact Hall.
Qed.

Lemma OperationsByAddress_scan_witness :
  parseOffset "0,3" = Ok (0, 3)
  /\ exists L, Sorted (scan_order false) L
     /\ (OperationsByAddress example_database "A" true false "0,3" 3
           callback_continue tt).2 `prefix_of` L.
Proof.
  split; [reflexivity |].
  destruct (OperationsByAddress_scan example_database "A" true false "0,3" 3
              callback_continue tt 0 3 eq_refl) as (L & _ & Hs & Hpre & _).
  by exists L.
Defined.

(** The scan of the handler tests: from the offset [0,3], three at a time. *)
Example OperationsByAddress_forward :
  (fun d => (od_height d, od_index d))
    <$> (OperationsByAddress example_database "A" true false "0,3" 3
           callback_continue tt).2
  = [(0, 6); (0, 9); (1, 1)].
Proof. vm_compute. reflexivity. Qed.

Example OperationsByAddress_reverse :
  (fun d => (od_height d, od_index d))
    <$> (OperationsByAddress example_database "A" true true "1,4" 3
           callback_continue tt).2
  = [(1, 1); (0, 9); (0, 6)].
Proof. vm_compute. reflexivity. Qed.

(** *** The page cap *)

Lemma length_page_of limit (L : list OperationDoc) :
  0 < limit -> (length (page_of limit L) <= Z.to_nat (Z.min limit maxLimit))%nat.
Proof.
  intros Hl. unfold page_of. destruct (Z.leb_spec limit 0); [lia |].
  rewrite length_take. lia.
Qed.

Lemma Find_delivered_length {T : Type} load
    (callback : Hash -> OperationValue -> T -> bool * option error * T)
    m filter reverse limit s :
  0 < limit ->
  (length (Find m filter (operations_cursor load callback)
             (operations_options load reverse limit) (s, [])).2.2
   <= Z.to_nat (Z.min limit maxLimit))%nat.
Proof.
  intros Hl.
  destruct (Find_delivered load callback m filter reverse limit s) as [[k Hk] _].
  rewrite Hk, length_take. pose proof (length_page_of limit
    (merge_sort (sort_le (if reverse then -1 else 1))
       (List.filter (matches filter) (col_op m))) Hl). lia.
Qed.

(** What an unlimited scan delivers when the server answers and the
    callback never stops: the sorted matches of its filter, all of them. *)
Lemma Find_no_limit {T : Type} (load : bool)
    (callback : Hash -> OperationValue -> T -> bool * option error * T)
    (m : Mongo) (filter : bsonM) (reverse : bool) (limit : Z) (s : T) :
  limit <= 0 -> down m = false -> never_stops callback ->
  (Find m filter (operations_cursor load callback)
     (operations_options load reverse limit) (s, [])).2.2
  ≡ₚ List.filter (matches filter) (col_op m).
Proof.
  intros Hl Hup Hgo.
  destruct (Find_delivered load callback m filter reverse limit s) as [_ Hall].
  destruct (Hall Hup Hgo) as [_ ->].
  unfold page_of. destruct (Z.leb_spec limit 0); [| lia].
  apply merge_sort_Permutation.
Qed.

(** C5, as the code has it.  With a limit above zero both functions deliver
    at most [min(limit, maxLimit)] matches, hence at most 50; a limit of zero
    or below sets no cap in either of them: when the server answers and the
    callback never stops, [Operations] delivers every match of its filter,
    each once, and [OperationsByAddress] every record of the address past
    the offset (every record of the address when the offset is empty), each
    once. *)
Theorem Operations_page_cap {T : Type} (st : Database) (address : Address)
    (filter : bsonM) (load reverse : bool) (offset : string) (limit : Z)
    (callback : Hash -> OperationValue -> T -> bool * option error * T) (s : T) :
  (0 < limit ->
   (length (OperationsByAddress st address load reverse offset limit callback s).2
    <= Z.to_nat (Z.min limit maxLimit) <= Z.to_nat maxLimit)%nat
   /\ (length (Operations st filter load reverse limit callback s).2
       <= Z.to_nat (Z.min limit maxLimit) <= Z.to_nat maxLimit)%nat)
  /\ (limit <= 0 -> down (database st) = false -> never_stops callback ->
      (Operations st filter load reverse limit callback s).2
        ≡ₚ List.filter (matches filter) (col_op (database st))
      /\ length (Operations st filter load reverse limit callback s).2
         = length (List.filter (matches filter) (col_op (database st)))
      /\ (offset = EmptyString ->
          (OperationsByAddress st address load reverse offset limit callback s).2
            ≡ₚ base.filter (fun d => StateAddressKeyPrefix address ∈ od_addresses d)
                      (col_op (database st)))
      /\ (forall h i, parseOffset offset = Ok (h, i) ->
          (OperationsByAddress st address load reverse offset limit callback s).2
            ≡ₚ base.filter (fun d => StateAddressKeyPrefix address ∈ od_addresses d
                                /\ beyond_offset reverse h i d)
                      (col_op (database st)))).
Proof.
  split.
  - intros Hl. split.
    + unfold OperationsByAddress.
      destruct (buildOperationsFilterByAddress address offset reverse) as [f | e].
      * pose proof (Find_delivered_length load callback (database st) f reverse
                      limit s Hl) as HF.
        destruct (Find _ _ _ _ _) as [err [s' delivered]]. cbn in *. lia.
      * cbn. lia.
    + rewrite Operations_Find. cbv zeta. cbn [snd].
      pose proof (Find_delivered_length load callback (database st) filter reverse
                    limit s Hl). lia.
  - intros Hl Hup Hgo.
    assert ((Operations st filter load reverse limit callback s).2
              ≡ₚ List.filter (matches filter) (col_op (database st))) as HP.
    { rewrite Operations_Find. cbv zeta. cbn [snd]. by apply Find_no_limit. }
    split; [exact HP |]. split; [by rewrite HP |]. split.
    + intros ->. destruct (build_filter_no_offset address reverse) as (f & Hf & Hm).
      rewrite (OperationsByAddress_Find _ _ _ _ _ _ _ _ f Hf). cbv zeta. cbn [snd].
      rewrite (Find_no_limit load callback (database st) f reverse limit s Hl Hup Hgo).
      by rewrite (filter_bool_prop _ _ _ Hm).
    + intros h i Hp.
      destruct (build_filter_matches address offset reverse h i Hp) as (f & Hf & Hm).
      rewrite (OperationsByAddress_Find _ _ _ _ _ _ _ _ f Hf). cbv zeta. cbn [snd].
      rewrite (Find_no_limit load callback (database st) f reverse limit s Hl Hup Hgo).
      by rewrite (filter_bool_prop _ _ _ Hm).
Qed.

Lemma Operations_page_cap_witness :
  0 < 100
  /\ (length (OperationsByAddress example_database_51 "A" true false "" 100
                callback_continue tt).2 <= Z.to_nat maxLimit)%nat
  /\ (OperationsByAddress example_database_51 "A" true false "" 0 callback_continue tt).2
       ≡ₚ filter (fun d => StateAddressKeyPrefix "A" ∈ od_addresses d)
                 (col_op (database example_database_51)).
Proof.
  split; [lia |]. split.
  - pose proof (Operations_page_cap example_database_51 "A" (M_and []) true false ""
                  100 callback_continue tt) as [Hcap _].
    destruct (Hcap ltac:(lia)) as [[H1 H2] _]. lia.
  - pose proof (Operations_page_cap example_database_51 "A" (M_and []) true false ""
                  0 callback_continue tt) as [_ Hall].
    destruct (Hall ltac:(lia) eq_refl ltac:(intros h va s; by exists s))
      as (_ & _ & Hempty & _).
    by apply Hempty.
Defined.

(** C5, as stated, fails for a limit of zero: all 51 matches are delivered. *)
Lemma Operations_no_limit_counterexample :
  (OperationsByAddress example_database_51 "A" true false "" 0
     callback_continue tt).1.1 = None
  /\ length (OperationsByAddress example_database_51 "A" true false "" 0
               callback_continue tt).2 = 51%nat
  /\ length (Operations example_database_51 (M_and []) true false (-1)
               callback_continue tt).2 = 51%nat
  /\ ~ (51 <= Z.to_nat maxLimit)%nat.
Proof. vm_compute. repeat split. intros H. lia. Qed.

(** ** Point lookups *)

#[local] Instance height_desc_trans {D} (hgt : D -> Height) : Transitive (height_desc hgt).
Proof. unfold height_desc. intros x y z ? ?. lia. Qed.

#[local] Instance height_desc_total {D} (hgt : D -> Height) : Total (height_desc hgt).
Proof. unfold height_desc. intros x y. lia. Qed.

(** [GetByFilter] on a server that answers: not found when nothing matches,
    else the callback on a matching document of greatest height. *)
Lemma GetByFilter_spec {D A} (m : Mongo) (hgt : D -> Height) (col : list D)
    (q : D -> bool) (callback : D -> result A) :
  down m = false ->
  ((forall d, d ∈ col -> q d = false)
   /\ exists e, GetByFilter m hgt col q callback = Err e /\ Is e ErrNotFound = true)
  \/ (exists res, res ∈ col /\ q res = true
                  /\ (forall d, d ∈ col -> q d = true -> hgt d <= hgt res)
                  /\ GetByFilter m hgt col q callback = callback res).
Proof.
  intros Hup. unfold GetByFilter. rewrite Hup.
  pose proof (merge_sort_Permutation (height_desc hgt) (List.filter q col)) as HP.
  pose proof (StronglySorted_merge_sort (height_desc hgt) (List.filter q col)) as HS.
  destruct (merge_sort (height_desc hgt) (List.filter q col)) as [| res rest].
  - left. split; [| eexists; split; reflexivity].
    apply Permutation_nil in HP. intros d Hd.
    destruct (q d) eqn:E; [| done].
    assert (In d (List.filter q col)) as Hin
      by (apply filter_In; split; [by apply list_elem_of_In | done]).
    rewrite HP in Hin. destruct Hin.
  - right. exists res.
    assert (res ∈ List.filter q col) as Hres by (rewrite <- HP; left).
    apply list_elem_of_In, filter_In in Hres as [Hin Hq].
    split; [by apply list_elem_of_In |]. split; [done |]. split; [| done].
    intros d Hd Hqd.
    assert (d ∈ res :: rest) as Hd'.
    { rewrite HP. apply list_elem_of_In, filter_In. split; [by apply list_elem_of_In | done]. }
    apply StronglySorted_inv in HS as [_ Hall].
    apply elem_of_cons in Hd' as [-> | Hd']; [reflexivity |].
    rewrite Forall_forall in Hall. by apply (Hall d).
Qed.

Lemma filter_length_lt {A} (p p' : A -> bool) (l : list A) (x : A) :
  (forall y, p' y = true -> p y = true) ->
  x ∈ l -> p x = true -> p' x = false ->
  (length (List.filter p' l) < length (List.filter p l))%nat.
Proof.
  intros Hsub Hin Hp Hp'.
  assert (forall l', length (List.filter p' l') <= length (List.filter p l'))%nat as Hle.
  { induction l' as [| y l' IH]; [done |]. cbn.
    destruct (p' y) eqn:E; [rewrite (Hsub y E); cbn; lia |].
    destruct (p y); cbn; lia. }
  induction l as [| y l IH]; [by apply elem_of_nil in Hin |].
  apply elem_of_cons in Hin as [<- | Hin]; cbn.
  - rewrite Hp, Hp'. cbn. pose proof (Hle l). lia.
  - specialize (IH Hin). destruct (p' y) eqn:E; [rewrite (Hsub y E); cbn; lia |].
    destruct (p y); cbn; lia.
Qed.

Section balance.
Context (st : Database) (a : Address).
Hypothesis Hup : down (database st) = false.

Local Abbreviation bl := (col_bl (database st)).
Local Abbreviation key := (StateAddressKeyPrefix a).

Lemma balance_query_true cids d :
  balance_query a cids d = true <-> bl_address d = key /\ bl_currency d ∉ cids.
Proof.
  unfold balance_query. rewrite andb_true_iff, String.eqb_eq.
  destruct cids as [| c cids].
  - cbn. split; [intros [? _]; split; [done | apply not_elem_of_nil] | by intros [? _]].
  - cbn [length Nat.ltb Nat.leb]. rewrite negb_true_iff.
    rewrite <- not_true_iff_false, existsb_exists.
    split; intros [Ha Hc]; (split; [done |]).
    + intros Hin. apply Hc. exists (bl_currency d).
      split; [by apply list_elem_of_In | apply String.eqb_refl].
    + intros (x & Hin & Heq%String.eqb_eq). apply Hc. rewrite Heq.
      by apply list_elem_of_In.
Qed.

Lemma balance_inv_post cids amm lastHeight previousHeight :
  balance_inv st a cids amm lastHeight previousHeight ->
  (forall d, d ∈ bl -> balance_query a cids d = false) ->
  balance_post st a (map_to_list amm).*2 lastHeight previousHeight.
Proof.
  intros (Hdom & Hlatest & Hnil & Hlast) Hnone.
  assert (forall d, d ∈ bl -> bl_address d = key ->
            exists am, amm !! bl_currency d = Some am) as Hcov.
  { intros d Hd Ha. specialize (Hnone d Hd).
    destruct (decide (bl_currency d ∈ cids)) as [Hin | Hout].
    - by apply Hdom in Hin as [am Ham]; exists am.
    - assert (balance_query a cids d = true) by by apply balance_query_true.
      congruence. }
  repeat split.
  - intros am (p & -> & Hp)%list_elem_of_fmap. destruct p as [c am].
    apply elem_of_map_to_list in Hp.
    destruct (Hlatest c am Hp) as (d & Hd & _ & Hv & _). by exists d.
  - intros d Hd Ha. destruct (Hcov d Hd Ha) as [am Ham]. exists am. split.
    + apply list_elem_of_fmap. exists (bl_currency d, am).
      split; [done | by apply elem_of_map_to_list].
    + destruct (Hlatest _ _ Ham) as (d0 & _ & Hc & Hv & _).
      rewrite <- Hv. exact Hc.
  - rewrite <- list_fmap_compose.
    rewrite (Forall_fmap_ext_1 (am_cid ∘ snd) fst (map_to_list amm)).
    + apply NoDup_fst_map_to_list.
    + apply Forall_forall. intros [c am] Hp%elem_of_map_to_list. cbn.
      destruct (Hlatest c am Hp) as (d0 & _ & Hc & Hv & _). rewrite <- Hv. exact Hc.
  - intros d Hd Ha. destruct (Hcov d Hd Ha) as [am Ham].
    destruct (Hlatest _ _ Ham) as (d0 & (_ & _ & Hmax) & Hc & _ & Hle).
    specialize (Hmax d Hd Ha (eq_sym Hc)). lia.
  - exact Hlast.
Qed.

Lemma balance_loop_spec fuel cids amm lastHeight previousHeight :
  balance_inv st a cids amm lastHeight previousHeight ->
  (length (List.filter (balance_query a cids) bl) < fuel)%nat ->
  exists ams lastHeight' previousHeight',
    balance_loop fuel st a cids amm lastHeight previousHeight
    = Some (ams, lastHeight', previousHeight', None)
    /\ balance_post st a ams lastHeight' previousHeight'.
Proof.
  revert cids amm lastHeight previousHeight.
  induction fuel as [| fuel IH]; intros cids amm lastHeight previousHeight Hinv Hfuel;
    [lia |].
  cbn [balance_loop].
  destruct (GetByFilter_spec (database st) bl_height bl (balance_query a cids)
              loadBalance Hup)
    as [(Hnone & e & -> & ->) | (res & Hres & Hq & Hmax & ->)].
  - eexists _, _, _. split; [reflexivity |]. by apply (balance_inv_post cids).
  - cbn [loadBalance StateBalanceValue].
    apply balance_query_true in Hq as [Hown Hfresh].
    destruct Hinv as (Hdom & Hlatest & Hnil & Hlast).
    set (i := st_value (bl_st res)). fold (bl_currency res).
    set (lastHeight' := Z.max lastHeight (st_height (bl_st res))).
    assert (latest_balance st a res) as Hres_latest.
    { split; [done |]. split; [done |]. intros d' Hd' Ha' Hc'. apply Hmax; [done |].
      apply (balance_query_true cids d'). split; [done |]. by rewrite Hc'. }
    assert (forall lastHeight'' previousHeight',
              lastHeight'' = lastHeight' ->
              ((lastHeight'' = NilHeight /\ previousHeight' = NilHeight)
               \/ exists d, d ∈ bl /\ bl_address d = key
                            /\ st_height (bl_st d) = lastHeight''
                            /\ st_previousHeight (bl_st d) = previousHeight') ->
              balance_inv st a (cids ++ [bl_currency res]) (<[bl_currency res := i]> amm)
                lastHeight'' previousHeight') as Hinv'.
    { intros ? previousHeight' -> Hlast'. split; [| split; [| split]].
      - intros c. rewrite elem_of_app, list_elem_of_singleton, lookup_insert_is_Some.
        rewrite Hdom. destruct (decide (bl_currency res = c)); intuition congruence.
      - intros c am. rewrite lookup_insert. case_decide as Hc.
        + intros [= <-]. exists res. subst c.
          split; [exact Hres_latest |]. split; [reflexivity |]. split; [reflexivity |].
          unfold lastHeight', bl_height. lia.
        + intros Ham. destruct (Hlatest c am Ham) as (d & ? & ? & ? & ?).
          exists d. split; [done |]. split; [done |]. split; [done |].
          unfold lastHeight'. lia.
      - unfold lastHeight'. lia.
      - exact Hlast'. }
    assert (length (List.filter (balance_query a (cids ++ [bl_currency res])) bl)
            < fuel)%nat as Hfuel'.
    { pose proof (filter_length_lt (balance_query a cids)
                    (balance_query a (cids ++ [bl_currency res])) bl res) as Hlt.
      enough (length (List.filter (balance_query a (cids ++ [bl_currency res])) bl)
              < length (List.filter (balance_query a cids) bl))%nat by lia.
      apply Hlt; [| done | by apply balance_query_true |].
      - intros y [? Hy]%balance_query_true. apply balance_query_true.
        split; [done |]. intros ?. apply Hy, elem_of_app. by left.
      - apply not_true_iff_false. intros [_ Hy]%balance_query_true.
        apply Hy, elem_of_app. right. by apply list_elem_of_singleton. }
    destruct (Z.gtb_spec (st_height (bl_st res)) lastHeight) as [Hgt | Hle].
    + apply IH; [| done]. apply Hinv'; [unfold lastHeight'; lia |].
      right. exists res. by repeat split.
    + apply IH; [| done]. apply Hinv'; [unfold lastHeight'; lia | exact Hlast].
Qed.

Lemma balance_spec :
  exists ams lastHeight previousHeight,
    balance st a = Some (ams, lastHeight, previousHeight, None)
    /\ balance_post st a ams lastHeight previousHeight.
Proof.
  unfold balance. apply balance_loop_spec.
  - split; [| split; [| split]].
    + intros c. rewrite lookup_empty. split; [by intros ?%elem_of_nil | by intros [? ?]].
    + intros c am. by rewrite lookup_empty.
    + done.
    + by left.
  - pose proof (filter_length (balance_query a []) bl). lia.
Qed.
End balance.

Lemma Account_record_up (st : Database) (a : Address) (rs : AccountValue) :
  Account_record st a = Ok rs -> down (database st) = false.
Proof.
  unfold Account_record, GetByFilter. by destruct (down (database st)).
Qed.

(** *** Lookups that are not answered *)

Lemma GetByFilter_answering {D A : Type} (up : bool) (m : Mongo) (hgt : D -> Height)
    (col : list D) (q : D -> bool) (callback : D -> result A) :
  down m = false ->
  GetByFilter (answering up m) hgt col q callback
  = if up then GetByFilter m hgt col q callback
    else Err (WrapStorageError mongo_error).
Proof.
  intros Hup. unfold GetByFilter, answering. cbn [down]. rewrite Hup.
  by destruct up.
Qed.

(** The loop of [balance] with lookups that may fail, against the loop all
    of whose lookups are answered.  The latter makes one lookup for each
    currency it gathers and a last one that finds nothing; the former gives
    the same result when these are answered, and the storage error when one
    of them is not. *)
Lemma balance_loop_during_rounds (up : nat -> bool) (st : Database) (a : Address)
    (fuel : nat) :
  down (database st) = false ->
  forall k cids amm lastHeight previousHeight ams lastHeight' previousHeight',
    (forall c, c ∈ cids <-> is_Some (amm !! c)) ->
    balance_loop fuel st a cids amm lastHeight previousHeight
    = Some (ams, lastHeight', previousHeight', None) ->
    (size amm <= length ams)%nat
    /\ ((forall j, (k <= j <= k + (length ams - size amm))%nat -> up j = true) ->
        balance_loop_during up k fuel st a cids amm lastHeight previousHeight
        = Some (ams, lastHeight', previousHeight', None))
    /\ ((exists j, (k <= j <= k + (length ams - size amm))%nat /\ up j = false) ->
        exists lastHeight'' previousHeight'',
          balance_loop_during up k fuel st a cids amm lastHeight previousHeight
          = Some ([], lastHeight'', previousHeight'', Some (WrapStorageError mongo_error))).
Proof.
  intros Hup. induction fuel as [| fuel IH];
    intros k cids amm lastHeight previousHeight ams lastHeight' previousHeight' Hdom;
    [done |].
  cbn [balance_loop balance_loop_during]. rewrite GetByFilter_answering by done.
  destruct (GetByFilter_spec (database st) bl_height (col_bl (database st))
              (balance_query a cids) loadBalance Hup)
    as [(Hnone & e & -> & He) | (res & Hres & Hq & Hmax & ->)].
  - rewrite He. intros [= <- <- <-]. rewrite length_fmap, length_map_to_list.
    split; [lia |]. split.
    + intros Hall. rewrite (Hall k) by lia. by rewrite He.
    + intros (j & Hj & Hdown). replace j with k in Hdown by lia. rewrite Hdown.
      by eexists _, _.
  - apply (balance_query_true a) in Hq as [Hown Hfresh].
    assert (amm !! bl_currency res = None) as Hnew.
    { destruct (amm !! bl_currency res) eqn:E; [| done].
      destruct Hfresh. apply Hdom. by rewrite E. }
    assert (forall c, c ∈ cids ++ [bl_currency res]
                      <-> is_Some (<[bl_currency res := st_value (bl_st res)]> amm !! c))
      as Hdom'.
    { intros c. rewrite elem_of_app, list_elem_of_singleton, lookup_insert_is_Some.
      rewrite Hdom. destruct (decide (bl_currency res = c)); intuition congruence. }
    pose proof (map_size_insert_None (bl_currency res) (st_value (bl_st res)) amm Hnew)
      as Hsize.
    unfold bl_currency in Hnew, Hdom', Hsize.
    destruct (up k) eqn:Ek; cbn [loadBalance StateBalanceValue];
      destruct (st_height (bl_st res) >? lastHeight); intros Hloop;
      destruct (IH (S k) _ _ _ _ ams lastHeight' previousHeight' Hdom' Hloop)
        as (Hle & Hsame & Hfail);
      unfold CurrencyID in *; rewrite Hsize in Hle, Hsame, Hfail; (split; [lia |]); split.
    1, 3: intros Hall; apply Hsame; intros j Hj; apply Hall; lia.
    1, 2: intros (j & Hj & Hdown); apply Hfail; exists j; (split; [| done]);
          assert (j <> k) by (intros ->; congruence); lia.
    1, 3: intros Hall; specialize (Hall k ltac:(lia)); congruence.
    1, 2: intros _; by eexists _, _.
Qed.

Lemma Account_during_cases (up : nat -> bool) (st : Database) (a : Address)
    (rs : AccountValue) :
  up 0%nat = true -> Account_record st a = Ok rs ->
  exists ams lastHeight previousHeight,
    balance_post st a ams lastHeight previousHeight
    /\ Account st a
       = Some (mkAccountValue (av_ac rs) ams lastHeight previousHeight, true, None)
    /\ ((forall k, (1 <= k <= S (length ams))%nat -> up k = true) ->
        Account_during up st a
        = Some (mkAccountValue (av_ac rs) ams lastHeight previousHeight, true, None))
    /\ ((exists k, (1 <= k <= S (length ams))%nat /\ up k = false) ->
        Account_during up st a = Some (rs, false, Some (WrapStorageError mongo_error))).
Proof.
  intros Hup0 Hrec. pose proof (Account_record_up st a rs Hrec) as Hup.
  destruct (balance_spec st a Hup) as (ams & lastHeight & previousHeight & Hb & Hpost).
  exists ams, lastHeight, previousHeight. split; [exact Hpost |].
  split; [unfold Account; by rewrite Hrec, Hb |].
  unfold Account_during, balance_during. rewrite GetByFilter_answering, Hup0 by done.
  unfold Account_record in Hrec. rewrite Hrec.
  destruct (balance_loop_during_rounds up st a (S (length (col_bl (database st)))) Hup
              1%nat [] ∅ NilHeight NilHeight ams lastHeight previousHeight)
    as (_ & Hsame & Hfail).
  { intros c. rewrite lookup_empty. split; [by intros ?%elem_of_nil | by intros [? ?]]. }
  { exact Hb. }
  rewrite map_size_empty, Nat.sub_0_r in Hsame, Hfail. split.
  - intros Hall. rewrite Hsame; [reflexivity |]. intros j Hj. apply Hall. lia.
  - intros (k & Hk & Hdown). destruct Hfail as (lh & ph & ->); [| reflexivity].
    exists k. split; [lia | done].
Qed.

(** C9, as the code has it.  When the first lookup of [Account(a)] is
    answered and finds an account record, the query answers found and no
    error as long as every lookup of [balance] is answered, one for each
    currency of the address and a last one that finds nothing: the account of
    the answer is that of the record, while its balances, height and
    previous height are read off the balance records of the address, one most
    recent record for each currency; without any balance record of the
    address the balance list is empty and both heights are [NilHeight].  When
    one of these lookups is not answered, the query answers the record as it
    was read, not found, and the storage error. *)
Theorem Account_found (up : nat -> bool) (st : Database) (a : Address)
    (rs : AccountValue) :
  up 0%nat = true -> Account_record st a = Ok rs ->
  exists ams lastHeight previousHeight,
    balance_post st a ams lastHeight previousHeight
    /\ ((forall d, d ∈ col_bl (database st) ->
                   bl_address d <> StateAddressKeyPrefix a) ->
        ams = [] /\ lastHeight = NilHeight /\ previousHeight = NilHeight)
    /\ Account st a
       = Some (mkAccountValue (av_ac rs) ams lastHeight previousHeight, true, None)
    /\ ((forall k, (1 <= k <= S (length ams))%nat -> up k = true) ->
        Account_during up st a
        = Some (mkAccountValue (av_ac rs) ams lastHeight previousHeight, true, None))
    /\ ((exists k, (1 <= k <= S (length ams))%nat /\ up k = false) ->
        Account_during up st a = Some (rs, false, Some (WrapStorageError mongo_error))).
Proof.
  intros Hup0 Hrec.
  destruct (Account_during_cases up st a rs Hup0 Hrec)
    as (ams & lastHeight & previousHeight & Hpost & HA & Hsame & Hfail).
  exists ams, lastHeight, previousHeight.
  split; [exact Hpost |]. split; [| by repeat split].
  intros Hnone. destruct Hpost as (Hfrom & _ & _ & _ & Hlast).
  split; [| destruct Hlast as [[-> ->] | (d & Hd & Ha & _)]; [done | by destruct (Hnone d Hd)]].
  destruct ams as [| am ams]; [done |].
  destruct (Hfrom am) as (d & (Hd & Ha & _) & _); [by left |]. by destruct (Hnone d Hd).
Qed.

Lemma Account_found_witness :
  Account_record example_database "A" = Ok (acd_value (example_account "A"))
  /\ exists ams, Account_during (fun _ => true) example_database "A"
                 = Some (mkAccountValue (mkAccount "A") ams 2 1, true, None).
Proof.
  split; [reflexivity |].
  destruct (Account_found (fun _ => true) example_database "A" _ eq_refl eq_refl)
    as (ams & lastHeight & previousHeight & _ & _ & _ & Hsame & _).
  exists ams. rewrite Hsame by done. vm_compute in Hsame.
  specialize (Hsame ltac:(done)). by injection Hsame as <- <- <-.
Defined.

(** C9, as stated, fails when a lookup of [balance] is not answered: the
    account record of [A] is found, the second lookup of [balance] fails,
    and the answer is not found, with the error. *)
Lemma Account_balance_failure_counterexample :
  Account_record example_database "A" = Ok (acd_value (example_account "A"))
  /\ Account_during (fun k => (k <? 2)%nat) example_database "A"
     = Some (acd_value (example_account "A"), false,
             Some (WrapStorageError mongo_error)).
Proof. split; reflexivity. Qed.

(** A query all of whose lookups are answered is [Account]. *)
Lemma Account_during_answered (st : Database) (a : Address) :
  Account_during (fun _ => true) st a = Account st a.
Proof.
  unfold Account_during, Account, Account_record.
  destruct (down (database st)) eqn:Hup.
  { unfold GetByFilter, answering. cbn [down]. by rewrite Hup. }
  rewrite GetByFilter_answering by done.
  destruct (GetByFilter (database st) acd_height _ _ _) as [rs | e] eqn:Hrec; [| done].
  destruct (Account_during_cases (fun _ => true) st a rs eq_refl Hrec)
    as (ams & lh & ph & _ & HA & Hsame & _).
  specialize (Hsame ltac:(done)).
  unfold Account_during, Account, Account_record in Hsame, HA.
  rewrite GetByFilter_answering in Hsame by done. rewrite Hrec in Hsame, HA.
  congruence.
Qed.

(** The balances of the example: currency [X] from height 2, currency [Y]
    from height 1; the heights are those of the record of height 2. *)
Example Account_example :
  exists va, Account example_database "A" = Some (va, true, None)
             /\ av_balance va ≡ₚ [mkAmount 5 "X"; mkAmount 3 "Y"]
             /\ av_height va = 2 /\ av_previousHeight va = 1.
Proof.
  eexists. split; [vm_compute; reflexivity |]. cbn [av_balance av_height av_previousHeight].
  split; [| done]. first [reflexivity | apply Permutation_swap].
Qed.

(** Without an account record the answer is not found, without an error;
    when the server does not answer the error is handed on. *)
Example Account_not_found :
  Account example_database "B" = Some (AccountValue_zero, false, None).
Proof. reflexivity. Qed.

(** ** The account handlers *)

Lemma buildOffset_nonempty (h : Height) (i : Z) :
  (0 <? String.length (buildOffset h i))%nat = true.
Proof.
  unfold buildOffset.
  change ("," +:+ FormatUint i) with (String "," (FormatUint i)).
  by destruct (FormatInt h).
Qed.

(** The links of the page: [next] is there exactly when the page has an
    item, and the embedded items are the page. *)
Lemma buildAccountOperationsHal_next (U : Util) (hd : Handlers) (address : Address)
    (vas : list OperationHal) (offset : string) (reverse : bool) (hal : PageHal) :
  buildAccountOperationsHal U hd address vas offset reverse = Ok hal ->
  hal_i hal = vas
  /\ (is_Some (hal_links hal !! "next") <-> vas <> [])
  /\ is_Some (hal_links hal !! "self") /\ is_Some (hal_links hal !! "reverse").
Proof.
  unfold buildAccountOperationsHal.
  destruct (combineURL hd HandlerPathAccountOperations _) as [baseSelf | e]; [| done].
  destruct (combineURL hd HandlerPathAccount _) as [h | e]; [| done].
  intros [= <-]. destruct (last vas) as [v |] eqn:El.
  - rewrite buildOffset_nonempty. cbn [AddLink NewBaseHal hal_i hal_links].
    split; [reflexivity |]. split; [| split].
    + rewrite lookup_insert_ne by done. rewrite lookup_insert_eq.
      split; [| eauto]. intros _ ->. discriminate.
    + rewrite !lookup_insert_ne by done. rewrite lookup_singleton_eq. eauto.
    + rewrite lookup_insert_eq. eauto.
  - apply last_None in El as ->.
    cbn [String.length Nat.ltb Nat.leb AddLink NewBaseHal hal_i hal_links].
    split; [reflexivity |]. split; [| split].
    + rewrite !lookup_insert_ne by done. rewrite lookup_singleton_ne by done.
      split; [by intros [? ?] | done].
    + rewrite !lookup_insert_ne by done. rewrite lookup_singleton_eq. eauto.
    + rewrite lookup_insert_eq. eauto.
Qed.

(** What [handleAccountOperationsInGroup] answers without an error: the
    encoding of a page with at least one item, and whether the page holds as
    many items as the limit in force. *)
Lemma handleAccountOperationsInGroup_ok (U : Util) (hd : Handlers) (address : Address)
    (offset : string) (l : Z) (reverse : bool) (b : bytes) (filled : bool) :
  handleAccountOperationsInGroup U hd address offset l reverse = (b, filled, None) ->
  exists vas delivered hal,
    account_operations_scan hd address offset l reverse = (None, vas, delivered)
    /\ vas <> []
    /\ buildAccountOperationsHal U hd address vas offset reverse = Ok hal
    /\ hd_enc_Marshal hd hal = Ok b
    /\ filled = (Z.of_nat (length vas) =? account_operations_limit hd l).
Proof.
  unfold handleAccountOperationsInGroup.
  destruct (account_operations_scan hd address offset l reverse)
    as [[[e |] vas] delivered]; [done |].
  destruct vas as [| v vas]; [done |]. cbn [length Nat.ltb Nat.leb].
  destruct (buildAccountOperationsHal U hd address (v :: vas) offset reverse)
    as [hal | e] eqn:Eb; [| done].
  destruct (hd_enc_Marshal hd hal) as [b' | e] eqn:Em; [| done].
  intros [= <- <-]. by exists (v :: vas), delivered, hal.
Qed.

Lemma parseOffset_of_buildOffset (h : Height) (i : Z) :
  is_int64 h -> is_uint64 i -> parseOffset (buildOffset h i) = Ok (h, i).
Proof.
  intros Hh Hi. unfold parseOffset, buildOffset, SplitN_comma_2.
  change ("," +:+ FormatUint i) with (String "," (FormatUint i)).
  rewrite cut_comma_append by apply FormatInt_no_comma.
  unfold NewHeightFromString. rewrite ParseInt_FormatInt by done.
  by rewrite ParseUint_FormatUint.
Qed.

Lemma collect_step (hd : Handlers) d (vas : list OperationHal) log :
  operations_cursor true (collect_operation_hal hd) d (vas, log)
  = match hd_buildOperationHal hd (od_value d) with
    | Err e => (false, Some e, (vas, log ++ [d]))
    | Ok hal => (true, None, (vas ++ [hal], log ++ [d]))
    end.
Proof.
  unfold operations_cursor, loadOperation, collect_operation_hal. cbn [negb fst snd].
  by destruct (hd_buildOperationHal hd (od_value d)).
Qed.

(** The target of [next]: the address of the page with the offset of its
    last item, and the direction. *)
Lemma buildAccountOperationsHal_next_href (U : Util) (hd : Handlers)
    (address : Address) (vas : list OperationHal) (offset : string) (reverse : bool)
    (hal : PageHal) (v : OperationHal) :
  buildAccountOperationsHal U hd address vas offset reverse = Ok hal ->
  last vas = Some v ->
  exists baseSelf,
    combineURL hd HandlerPathAccountOperations ["address"; address] = Ok baseSelf
    /\ hal_links hal !! "next"
       = Some (NewHalLink
                 (let next :=
                    addQueryValue U baseSelf
                      (stringOffsetQuery U
                         (buildOffset (ov_height (hal_i v)) (ov_index (hal_i v)))) in
                  if reverse
                  then addQueryValue U next (stringBoolQuery U "reverse" reverse)
                  else next)).
Proof.
  unfold buildAccountOperationsHal. intros Hb El.
  destruct (combineURL hd HandlerPathAccountOperations _) as [baseSelf | e]; [| done].
  destruct (combineURL hd HandlerPathAccount _) as [h | e]; [| done].
  injection Hb as <-. rewrite El, buildOffset_nonempty.
  exists baseSelf. split; [reflexivity |].
  cbn [AddLink NewBaseHal hal_i hal_links].
  rewrite lookup_insert_ne by done. by rewrite lookup_insert_eq.
Qed.

(** The items of a scan that ended without an error are the documents built
    from the records delivered, one for each, in the order of delivery. *)
Lemma collect_built (hd : Handlers) docs (vas : list OperationHal) log vas' log' :
  cursor_each (operations_cursor true (collect_operation_hal hd)) docs (vas, log)
  = (None, (vas', log')) ->
  Forall2 (fun d hal => hd_buildOperationHal hd (od_value d) = Ok hal) log vas ->
  Forall2 (fun d hal => hd_buildOperationHal hd (od_value d) = Ok hal) log' vas'.
Proof.
  revert vas log. induction docs as [| d docs IH]; intros vas log.
  - cbn. by intros [= <- <-].
  - cbn [cursor_each]. rewrite collect_step.
    destruct (hd_buildOperationHal hd (od_value d)) as [hal | e] eqn:Eh; [| done].
    intros Hr HF. apply (IH _ _ Hr). apply Forall2_app; [done |].
    by apply Forall2_cons.
Qed.

Lemma account_operations_scan_built (hd : Handlers) (address : Address)
    (offset : string) (l : Z) (reverse : bool) vas delivered :
  account_operations_scan hd address offset l reverse = (None, vas, delivered) ->
  Forall2 (fun d hal => hd_buildOperationHal hd (od_value d) = Ok hal) delivered vas.
Proof.
  unfold account_operations_scan, OperationsByAddress.
  destruct (buildOperationsFilterByAddress address offset reverse) as [f | e]; [| done].
  unfold Find. destruct (down (database (hd_database hd))); [done |].
  match goal with |- context [cursor_each ?cb ?docs ?s0] =>
    destruct (cursor_each cb docs s0) as [err [vas' delivered']] eqn:Ec end.
  intros [= -> -> ->]. by apply (collect_built _ _ _ _ _ _ Ec).
Qed.

(** What a scan from an offset delivers lies past the offset. *)
Lemma OperationsByAddress_beyond {T : Type} (st : Database) (address : Address)
    (load reverse : bool) (offset : string) (limit : Z)
    (callback : Hash -> OperationValue -> T -> bool * option error * T) (s : T)
    (h : Height) (i : Z) (d : OperationDoc) :
  parseOffset offset = Ok (h, i) ->
  d ∈ (OperationsByAddress st address load reverse offset limit callback s).2 ->
  d ∈ col_op (database st)
  /\ StateAddressKeyPrefix address ∈ od_addresses d
  /\ beyond_offset reverse h i d.
Proof.
  intros Hp.
  destruct (build_filter_matches address offset reverse h i Hp) as (f & Hf & Hm).
  rewrite (OperationsByAddress_Find _ _ _ _ _ _ _ _ f Hf). cbv zeta. cbn [fst snd].
  destruct (Find_delivered load callback (database st) f reverse limit s) as [[k ->] _].
  intros Hd%subseteq_take.
  assert (d ∈ merge_sort (sort_le (if reverse then -1 else 1))
                (List.filter (matches f) (col_op (database st)))) as Hin.
  { revert Hd. unfold page_of. destruct (limit <=? 0); [done |]. apply subseteq_take. }
  rewrite merge_sort_Permutation in Hin.
  apply list_elem_of_In, filter_In in Hin as [Hcol Hmatch].
  split; [by apply list_elem_of_In |]. by apply Hm.
Qed.

(** C7, as the code has it.  A response of the account-operations query
    that is not an error carries a page with at least one item, and
    [_links.next] is present in it, whether or not the page holds as many
    items as the limit in force.  The link is the address of the page with
    the offset built from the height and index of the last item of the page,
    the document built from the record delivered last, and with the
    direction of the query; a scan of the address from this offset in this
    direction delivers only records past that height and index. *)
Theorem account_operations_next_link (U : Util) (hd : Handlers) (address : Address)
    (offset : string) (l : Z) (reverse : bool) (b : bytes) (filled : bool) :
  handleAccountOperationsInGroup U hd address offset l reverse = (b, filled, None) ->
  exists vas hal,
    (account_operations_scan hd address offset l reverse).1 = (None, vas)
    /\ buildAccountOperationsHal U hd address vas offset reverse = Ok hal
    /\ hd_enc_Marshal hd hal = Ok b
    /\ hal_i hal = vas /\ vas <> []
    /\ is_Some (hal_links hal !! "next")
    /\ filled = (Z.of_nat (length vas) =? account_operations_limit hd l)
    /\ exists v d baseSelf,
         last vas = Some v
         /\ last (account_operations_scan hd address offset l reverse).2 = Some d
         /\ hd_buildOperationHal hd (od_value d) = Ok v
         /\ combineURL hd HandlerPathAccountOperations ["address"; address] = Ok baseSelf
         /\ let h := ov_height (hal_i v) in
            let i := ov_index (hal_i v) in
            let next := addQueryValue U baseSelf (stringOffsetQuery U (buildOffset h i)) in
            hal_links hal !! "next"
            = Some (NewHalLink
                      (if reverse
                       then addQueryValue U next (stringBoolQuery U "reverse" reverse)
                       else next))
            /\ (is_int64 h -> is_uint64 i ->
                parseOffset (buildOffset h i) = Ok (h, i)
                /\ forall (T : Type) load limit
                          (callback : Hash -> OperationValue -> T -> bool * option error * T)
                          (s : T) (d' : OperationDoc),
                     d' ∈ (OperationsByAddress (hd_database hd) address load reverse
                             (buildOffset h i) limit callback s).2 ->
                     StateAddressKeyPrefix address ∈ od_addresses d'
                     /\ beyond_offset reverse h i d').
Proof.
  intros Hok.
  destruct (handleAccountOperationsInGroup_ok U hd address offset l reverse b filled Hok)
    as (vas & delivered & hal & Hscan & Hne & Hb & Hm & Hf).
  destruct (buildAccountOperationsHal_next U hd address vas offset reverse hal Hb)
    as (Hi & Hnext & _).
  exists vas, hal. rewrite Hscan. cbn [fst snd].
  do 5 (split; [done |]). split; [by apply Hnext |]. split; [done |].
  pose proof (account_operations_scan_built hd address offset l reverse vas delivered
                Hscan) as Hbuilt.
  destruct (last vas) as [v |] eqn:El; [| by apply last_None in El].
  pose proof El as El'. rewrite last_lookup in El'.
  destruct (Forall2_lookup_r _ _ _ _ _ Hbuilt El') as (d & Hd & Hv).
  rewrite <- (Forall2_length _ _ _ Hbuilt), <- last_lookup in Hd.
  destruct (buildAccountOperationsHal_next_href U hd address vas offset reverse hal v
              Hb El) as (baseSelf & Hbase & Hhref).
  exists v, d, baseSelf. do 4 (split; [done |]). cbv zeta.
  split; [by destruct reverse |].
  intros Hh Hidx. pose proof (parseOffset_of_buildOffset _ _ Hh Hidx) as Hp.
  split; [exact Hp |]. intros T load limit callback s d' Hd'.
  by destruct (OperationsByAddress_beyond _ _ _ _ _ _ _ _ _ _ _ Hp Hd') as (_ & ? & ?).
Qed.

Lemma account_operations_next_link_witness :
  handleAccountOperationsInGroup example_util example_handlers "A" "2,5" (-1) false
  = ("hal:1", false, None)
  /\ exists hal,
       hd_enc_Marshal example_handlers hal = Ok "hal:1"
       /\ hal_links hal !! "next"
          = Some (NewHalLink "/account/{address}/operations:address,A?offset=2,8").
Proof.
  assert (handleAccountOperationsInGroup example_util example_handlers "A" "2,5" (-1) false
          = ("hal:1", false, None)) as E by (vm_compute; reflexivity).
  split; [exact E |].
  destruct (account_operations_next_link _ _ _ _ _ _ _ _ E)
    as (vas & hal & Hscan & _ & Hm & _ & _ & _ & _ & v & d & baseSelf & Hl & _ & _
        & Hbase & Hhref & _).
  exists hal. split; [exact Hm |]. rewrite Hhref.
  vm_compute in Hscan. injection Hscan as <-.
  vm_compute in Hl. injection Hl as <-.
  vm_compute in Hbase. injection Hbase as <-.
  vm_compute. reflexivity.
Defined.

(** C7, as stated, fails on a page that is not full: past the offset [2,5]
    one operation is left, the limit is three, and the page has a [next]
    link, to the offset [2,8]. *)
Lemma next_link_partial_page_counterexample :
  exists vas hal,
    (account_operations_scan example_handlers "A" "2,5" 3 false).1 = (None, vas)
    /\ length vas = 1%nat
    /\ (handleAccountOperationsInGroup example_util example_handlers "A" "2,5" 3 false).1.2
       = false
    /\ buildAccountOperationsHal example_util example_handlers "A" vas "2,5" false = Ok hal
    /\ hal_links hal !! "next"
       = Some (NewHalLink "/account/{address}/operations:address,A?offset=2,8").
Proof.
  eexists _, _. split; [vm_compute; reflexivity |]. split; [reflexivity |].
  split; [vm_compute; reflexivity |]. split; [vm_compute; reflexivity |].
  vm_compute. reflexivity.
Qed.

(** The cache key of a request. *)
Lemma handleAccountOperations_miss (U : Util) (hd : Handlers) (r : Request)
    (shared : bool) (address : Address) :
  hd_DecodeAddress hd (rq_address r) = Ok address ->
  hd_cache hd (CacheKey (rq_path r)
                 [stringOffsetQuery U (parseOffsetQuery U (rq_offset r));
                  stringBoolQuery U "reverse" (parseBoolQuery U (rq_reverse r))]) = None ->
  handleAccountOperations U hd r shared
  = match handleAccountOperationsInGroup U hd address
            (parseOffsetQuery U (rq_offset r)) (parseLimitQuery U (rq_limit r))
            (parseBoolQuery U (rq_reverse r)) with
    | (_, _, Some err) => HTTP2HandleError U err
    | (b, filled, None) =>
        let w := HTTP2WriteHalBytes b StatusOK in
        if negb shared then
          HTTP2WriteCache w
            (CacheKey (rq_path r)
               [stringOffsetQuery U (parseOffsetQuery U (rq_offset r));
                stringBoolQuery U "reverse" (parseBoolQuery U (rq_reverse r))])
            (if (0 <? String.length (parseOffsetQuery U (rq_offset r)))%nat && filled
             then Hour * 30 else hd_expireNotFilled hd)
        else w
    end.
Proof. intros Ha Hc. unfold handleAccountOperations. by rewrite Ha, Hc. Qed.

(** C8, as the code has it.  A response of the account-operations query
    that is written to the cache (no error, not shared) expires after 30
    hours when the request carried an offset and the page holds as many items
    as the limit in force; a page with fewer items, and any page of a request
    without offset, expires after [expireNotFilled]. *)
Theorem handleAccountOperations_expire (U : Util) (hd : Handlers) (r : Request)
    (address : Address) (b : bytes) (filled : bool) :
  let offset := parseOffsetQuery U (rq_offset r) in
  let limit := parseLimitQuery U (rq_limit r) in
  let reverse := parseBoolQuery U (rq_reverse r) in
  let cachekey := CacheKey (rq_path r)
                    [stringOffsetQuery U offset; stringBoolQuery U "reverse" reverse] in
  hd_DecodeAddress hd (rq_address r) = Ok address ->
  hd_cache hd cachekey = None ->
  handleAccountOperationsInGroup U hd address offset limit reverse = (b, filled, None) ->
  exists vas,
    (account_operations_scan hd address offset limit reverse).1 = (None, vas)
    /\ rs_status (handleAccountOperations U hd r false) = StatusOK
    /\ rs_body (handleAccountOperations U hd r false) = b
    /\ (offset <> "" -> Z.of_nat (length vas) = account_operations_limit hd limit ->
        rs_cache (handleAccountOperations U hd r false) = Some (cachekey, Hour * 30))
    /\ (offset = "" \/ Z.of_nat (length vas) <> account_operations_limit hd limit ->
        rs_cache (handleAccountOperations U hd r false)
        = Some (cachekey, hd_expireNotFilled hd))
    /\ rs_cache (handleAccountOperations U hd r true) = None.
Proof.
  intros offset limit reverse cachekey Ha Hc Hok.
  destruct (handleAccountOperationsInGroup_ok U hd address offset limit reverse b filled Hok)
    as (vas & delivered & hal & Hscan & _ & _ & _ & Hf).
  exists vas. rewrite Hscan.
  rewrite !(handleAccountOperations_miss U hd r _ address Ha Hc).
  fold offset limit reverse cachekey. rewrite Hok. cbn.
  repeat split.
  - intros Hoff Hfull. subst filled.
    rewrite (proj2 (Z.eqb_eq _ _) Hfull). by destruct offset.
  - intros [-> | Hpart]; [reflexivity |]. subst filled.
    rewrite (proj2 (Z.eqb_neq _ _) Hpart). by rewrite andb_false_r.
Qed.

Lemma handleAccountOperations_expire_witness :
  hd_DecodeAddress example_handlers "A" = Ok "A"
  /\ rs_cache (handleAccountOperations example_util example_handlers
                 (example_request "3" "0,0" "") false)
     = Some ("/account/A/operations-offset=0,0,", Hour * 30).
Proof.
  split; [reflexivity |].
  destruct (handleAccountOperations_expire example_util example_handlers
              (example_request "3" "0,0" "") "A" "hal:3" true
              eq_refl eq_refl ltac:(vm_compute; reflexivity))
    as (vas & Hscan & _ & _ & Hfull & _).
  vm_compute in Hscan. injection Hscan as <-. apply Hfull; [discriminate | reflexivity].
Defined.

(** C8, as stated, fails for the first page: without an offset a page of
    three items under a limit of three expires after [expireNotFilled],
    three seconds here, not after hours. *)
Lemma first_page_expire_counterexample :
  exists vas,
    (account_operations_scan example_handlers "A" "" 3 false).1 = (None, vas)
    /\ Z.of_nat (length vas) = 3
    /\ rs_status (handleAccountOperations example_util example_handlers
                    (example_request "3" "" "") false) = StatusOK
    /\ rs_cache (handleAccountOperations example_util example_handlers
                   (example_request "3" "" "") false)
       = Some ("/account/A/operations-offset=,", 3 * Second)
    /\ 3 * Second < Hour.
Proof.
  eexists. split; [vm_compute; reflexivity |]. split; [reflexivity |].
  split; [vm_compute; reflexivity |]. split; [vm_compute; reflexivity |].
  vm_compute. reflexivity.
Qed.

(** A scan whose filter matches no operation of the store ends without an
    error and without an item. *)
Lemma account_operations_scan_no_match (hd : Handlers) (address : Address)
    (offset : string) (l : Z) (reverse : bool) (filter : bsonM) :
  down (database (hd_database hd)) = false ->
  buildOperationsFilterByAddress address offset reverse = Ok filter ->
  (forall d, d ∈ col_op (database (hd_database hd)) -> matches filter d = false) ->
  account_operations_scan hd address offset l reverse = (None, [], []).
Proof.
  intros Hup Hf Hnone. unfold account_operations_scan, OperationsByAddress, Find.
  rewrite Hf, Hup.
  assert (List.filter (matches filter) (col_op (database (hd_database hd))) = []) as ->.
  { induction (col_op (database (hd_database hd))) as [| d ds IH]; [reflexivity |].
    cbn. rewrite (Hnone d) by left. apply IH. intros d' Hd'. apply Hnone. by right. }
  change (merge_sort _ []) with (@nil OperationDoc).
  by destruct (opt_limit _); rewrite ?take_nil.
Qed.

(** C10. When the scan of an account-operations query ends without an error
    and without a match, the query answers the not-found error "operations
    not found", which the handler renders as a problem document with status
    404 and does not cache; and an answer without an error always embeds at
    least one item. *)
Theorem handleAccountOperations_not_found (U : Util) (hd : Handlers) (r : Request)
    (shared : bool) (address : Address) (delivered : list OperationDoc) :
  let offset := parseOffsetQuery U (rq_offset r) in
  let limit := parseLimitQuery U (rq_limit r) in
  let reverse := parseBoolQuery U (rq_reverse r) in
  hd_DecodeAddress hd (rq_address r) = Ok address ->
  hd_cache hd (CacheKey (rq_path r)
                 [stringOffsetQuery U offset; stringBoolQuery U "reverse" reverse]) = None ->
  account_operations_scan hd address offset limit reverse = (None, [], delivered) ->
  handleAccountOperationsInGroup U hd address offset limit reverse
  = ("", false, Some (NotFoundError_Errorf "operations not found"))
  /\ rs_status (handleAccountOperations U hd r shared) = StatusNotFound
  /\ rs_mimetype (handleAccountOperations U hd r shared) = ProblemMimetype
  /\ rs_cache (handleAccountOperations U hd r shared) = None
  /\ (forall address' offset' l' reverse' b filled,
        handleAccountOperationsInGroup U hd address' offset' l' reverse'
        = (b, filled, None) ->
        exists hal, hd_enc_Marshal hd hal = Ok b /\ hal_i hal <> []).
Proof.
  intros offset limit reverse Ha Hc Hscan.
  assert (handleAccountOperationsInGroup U hd address offset limit reverse
          = ("", false, Some (NotFoundError_Errorf "operations not found"))) as Hg.
  { unfold handleAccountOperationsInGroup. by rewrite Hscan. }
  split; [exact Hg |].
  rewrite (handleAccountOperations_miss U hd r shared address Ha Hc).
  fold offset limit reverse. rewrite Hg.
  split; [reflexivity |]. split; [reflexivity |]. split; [reflexivity |].
  intros address' offset' l' reverse' b filled Hok.
  destruct (handleAccountOperationsInGroup_ok U hd address' offset' l' reverse' b filled Hok)
    as (vas & _ & hal & _ & Hne & Hb & Hm & _).
  exists hal. split; [exact Hm |].
  destruct (buildAccountOperationsHal_next U hd address' vas offset' reverse' hal Hb)
    as (-> & _). exact Hne.
Qed.

(** The request of the handler tests past every operation: offset [9,20]. *)
Lemma handleAccountOperations_not_found_witness :
  hd_DecodeAddress example_handlers "A" = Ok "A"
  /\ rs_status (handleAccountOperations example_util example_handlers
                  (example_request "" "9,20" "") false) = StatusNotFound
  /\ rs_body (handleAccountOperations example_util example_handlers
                (example_request "" "9,20" "") false) = "operations not found".
Proof.
  split; [reflexivity |].
  destruct (handleAccountOperations_not_found example_util example_handlers
              (example_request "" "9,20" "") false "A" []
              eq_refl eq_refl ltac:(vm_compute; reflexivity))
    as (_ & Hstatus & _).
  split; [exact Hstatus |]. vm_compute. reflexivity.
Defined.

(** * Further properties of the code *)

(** ** More on offsets *)

Lemma digit_of_range c d : digit_of c = Some d -> 0 <= d <= 9.
Proof.
  unfold digit_of.
  destruct (Z.leb_spec 48 (Z.of_N (N_of_ascii c))),
           (Z.leb_spec (Z.of_N (N_of_ascii c)) 57); cbn; intros [= <-]; lia.
Qed.

Lemma wrap_int64_range z : is_int64 (wrap_int64 z).
Proof.
  int_consts. pose proof (Z.mod_pos_bound (z + 9223372036854775808) 18446744073709551616).
  lia.
Qed.

(** A successful [ParseUint] loop read digits only and stayed in range. *)
Lemma ParseUint_loop_inr s n v :
  0 <= n -> ParseUint_loop s n = inr v ->
  n <= v <= maxUint64 \/ (s = EmptyString /\ v = n).
Proof.
  revert n. induction s as [| c s IH]; intros n Hn; cbn [ParseUint_loop].
  - intros [= <-]. by right.
  - destruct (digit_of c) as [d |] eqn:Ed; [| done].
    apply digit_of_range in Ed.
    destruct (Z.geb_spec n cutoff64); [done |]. cbv zeta.
    destruct (Z.ltb_spec (wrap_uint64 (n * 10 + d)) (n * 10)); [done |].
    destruct (Z.gtb_spec (wrap_uint64 (n * 10 + d)) maxUint64); [done |].
    cbn [orb]. intros Hv. left.
    destruct (IH (wrap_uint64 (n * 10 + d)) ltac:(lia) Hv) as [? | [_ ->]]; lia.
Qed.

Lemma ParseUint_loop_digits s n v c :
  ParseUint_loop s n = inr v -> In c (list_ascii_of_string s) -> is_Some (digit_of c).
Proof.
  revert n. induction s as [| c' s IH]; intros n; cbn [ParseUint_loop list_ascii_of_string];
    [by intros _ [] |].
  destruct (digit_of c') as [d |] eqn:Ed; [| done].
  destruct (n >=? cutoff64); [done |]. cbv zeta. destruct (_ || _); [done |].
  intros Hv [<- | Hin]; [by rewrite Ed | by apply (IH _ Hv)].
Qed.

Lemma ParseUint_inr s v :
  ParseUint s = inr v ->
  is_uint64 v /\ s <> EmptyString
  /\ forall c, In c (list_ascii_of_string s) -> is_Some (digit_of c).
Proof.
  destruct s as [| c s]; [done |]. unfold ParseUint. intros Hv.
  split; [| split; [done | intros c'; by apply (ParseUint_loop_digits _ _ _ _ Hv)]].
  destruct (ParseUint_loop_inr _ 0 v ltac:(lia) Hv) as [? | [? _]]; [| done].
  int_consts. lia.
Qed.

Lemma ParseInt_inr s v : ParseInt s = inr v -> is_int64 v.
Proof.
  destruct s as [| c s]; [done |]. cbn [ParseInt].
  destruct (if Ascii.eqb c "+" then _ else _) as [neg s'].
  destruct (ParseUint s') as [[] | u]; try done;
    cbv zeta; destruct (negb neg && _); try done; destruct (neg && _); try done;
    intros [= <-]; destruct neg; apply wrap_int64_range.
Qed.

Lemma cut_comma_Some s a b :
  cut_comma s = Some (a, b) ->
  s = a +:+ String "," b
  /\ forall c, In c (list_ascii_of_string a) -> Ascii.eqb c "," = false.
Proof.
  revert a. induction s as [| c s IH]; intros a; cbn [cut_comma]; [done |].
  destruct (Ascii.eqb_spec c ",") as [-> | Hne].
  - intros [= <- <-]. split; [reflexivity | by intros ? []].
  - destruct (cut_comma s) as [[a' b'] |]; [| done]. intros [= <- <-].
    destruct (IH a' eq_refl) as [-> Hno]. split; [reflexivity |].
    intros c' [<- | Hin]; [by apply Ascii.eqb_neq | by apply Hno].
Qed.

Lemma parseOffset_accepts_bounds (s : string) (h : Height) (i : Z) :
  parseOffset s = Ok (h, i) -> is_int64 h /\ is_uint64 i.
Proof.
  unfold parseOffset, SplitN_comma_2, NewHeightFromString.
  destruct (cut_comma s) as [[n0 n1] |]; [| done].
  destruct (ParseInt n0) as [e | h'] eqn:Eh; [done |].
  destruct (ParseUint n1) as [e | i'] eqn:Ei; [done |]. intros [= <- <-].
  split; [by apply ParseInt_inr in Eh | by apply ParseUint_inr in Ei as (? & _)].
Qed.

(** X1. An offset that [parseOffset] accepts is one pair cut at its only
    comma: a height part without comma, and an index part of decimal digits,
    at least one; the height it returns is in the range of [int64] and the
    index in that of [uint64]. *)
Theorem parseOffset_accepts (s : string) (h : Height) (i : Z) :
  parseOffset s = Ok (h, i) ->
  is_int64 h /\ is_uint64 i
  /\ exists n0 n1,
       s = n0 +:+ String "," n1
       /\ (forall c, In c (list_ascii_of_string n0) -> c <> ","%char)
       /\ n1 <> EmptyString
       /\ (forall c, In c (list_ascii_of_string n1) -> is_Some (digit_of c)).
Proof.
  unfold parseOffset, SplitN_comma_2, NewHeightFromString.
  destruct (cut_comma s) as [[n0 n1] |] eqn:Ec; [| done].
  destruct (ParseInt n0) as [e | h'] eqn:Eh; [done |].
  destruct (ParseUint n1) as [e | i'] eqn:Ei; [done |]. intros [= <- <-].
  apply ParseInt_inr in Eh. apply ParseUint_inr in Ei as (Hi & Hne & Hdig).
  apply cut_comma_Some in Ec as [-> Hno].
  split; [done |]. split; [done |]. exists n0, n1. split; [reflexivity |].
  split; [| done]. intros c Hc. apply Ascii.eqb_neq. by apply Hno.
Qed.

Lemma parseOffset_accepts_witness :
  parseOffset "+07,0042" = Ok (7, 42) /\ is_int64 7 /\ is_uint64 42.
Proof.
  split; [reflexivity |].
  destruct (parseOffset_accepts "+07,0042" 7 42 eq_refl) as (H1 & H2 & _).
  by split.
Defined.

(** Offsets that are refused: no comma, a second comma, a sign on the
    index, an index beyond 64 bits. *)
Example parseOffset_refuses :
  parseOffset "12" = Err (Errorf "invalid offset")
  /\ parseOffset "1,2,3" = Err (Errorf "invalid index of offset")
  /\ parseOffset "1,-2" = Err (Errorf "invalid index of offset")
  /\ parseOffset "1,18446744073709551616" = Err (Errorf "invalid index of offset")
  /\ parseOffset ",2" = Err (Errorf "invalid height of offset").
Proof. repeat split. Qed.

(** X2. Rebuilding an accepted offset gives its canonical form: whatever
    string [parseOffset] accepted, the offset built from the pair it
    returned is accepted too and gives the same pair. *)
Theorem parseOffset_canonical (s : string) (h : Height) (i : Z) :
  parseOffset s = Ok (h, i) -> parseOffset (buildOffset h i) = Ok (h, i).
Proof.
  intros Hs. destruct (parseOffset_accepts_bounds s h i Hs) as [Hh Hi].
  unfold parseOffset, buildOffset, SplitN_comma_2.
  change ("," +:+ FormatUint i) with (String "," (FormatUint i)).
  rewrite cut_comma_append by apply FormatInt_no_comma.
  unfold NewHeightFromString. rewrite ParseInt_FormatInt by done.
  by rewrite ParseUint_FormatUint.
Qed.

Lemma parseOffset_canonical_witness :
  parseOffset "+07,0042" = Ok (7, 42)
  /\ buildOffset 7 42 = "7,42" /\ parseOffset (buildOffset 7 42) = Ok (7, 42).
Proof.
  split; [reflexivity |]. split; [reflexivity |].
  exact (parseOffset_canonical "+07,0042" 7 42 eq_refl).
Defined.

(** ** More on scans *)

(** The sorted matches of a filter, as [Find] computes them. *)
Lemma sorted_matches (filter : bsonM) (reverse : bool) (col : list OperationDoc) :
  merge_sort (sort_le (if reverse then -1 else 1)) (List.filter (matches filter) col)
    ≡ₚ List.filter (matches filter) col
  /\ Sorted (scan_order reverse)
       (merge_sort (sort_le (if reverse then -1 else 1))
                   (List.filter (matches filter) col)).
Proof.
  split; [apply merge_sort_Permutation |].
  apply (Sorted_iff (sort_le (if reverse then -1 else 1))).
  - apply sort_le_order.
  - apply Sorted_merge_sort, _.
Qed.

(** What [OperationsByAddress] delivers once its filter is built. *)
Lemma OperationsByAddress_delivers {T : Type} st address load reverse offset limit
    (callback : Hash -> OperationValue -> T -> bool * option error * T) s filter :
  buildOperationsFilterByAddress address offset reverse = Ok filter ->
  let L := merge_sort (sort_le (if reverse then -1 else 1))
                      (List.filter (matches filter) (col_op (database st))) in
  (OperationsByAddress st address load reverse offset limit callback s).2 `prefix_of` L
  /\ (down (database st) = false -> never_stops callback ->
      (OperationsByAddress st address load reverse offset limit callback s).1.1 = None
      /\ (OperationsByAddress st address load reverse offset limit callback s).2
         = page_of limit L).
Proof.
  intros Hf L. rewrite (OperationsByAddress_Find _ _ _ _ _ _ _ _ filter Hf).
  cbv zeta. cbn [fst snd].
  destruct (Find_delivered load callback (database st) filter reverse limit s)
    as [[k Hk] Hall].
  split; [rewrite Hk; apply take_page_prefix | exact Hall].
Qed.

Lemma callback_continue_never_stops : never_stops callback_continue.
Proof. intros h va s. by exists s. Qed.

(** X3. Without an offset the range of a scan is the whole history of the
    address: every record that lists the address, each once, in ascending
    [(height, index)] order forward and descending order in reverse; the
    scan delivers a prefix of it, and its page when the server answers and
    the callback never stops. *)
Theorem OperationsByAddress_from_start {T : Type} (st : Database) (address : Address)
    (load reverse : bool) (limit : Z)
    (callback : Hash -> OperationValue -> T -> bool * option error * T) (s : T) :
  exists L : list OperationDoc,
    L ≡ₚ filter (fun d => StateAddressKeyPrefix address ∈ od_addresses d)
                (col_op (database st))
    /\ Sorted (scan_order reverse) L
    /\ (OperationsByAddress st address load reverse "" limit callback s).2 `prefix_of` L
    /\ (down (database st) = false -> never_stops callback ->
        (OperationsByAddress st address load reverse "" limit callback s).1.1 = None
        /\ (OperationsByAddress st address load reverse "" limit callback s).2
           = page_of limit L).
Proof.
  destruct (build_filter_no_offset address reverse) as (f & Hf & Hm).
  destruct (sorted_matches f reverse (col_op (database st))) as [HP HS].
  destruct (OperationsByAddress_delivers st address load reverse "" limit callback s f Hf)
    as [Hpre Hall].
  eexists. split; [| split; [exact HS | split; [exact Hpre | exact Hall]]].
  rewrite HP. by rewrite (filter_bool_prop _ _ _ Hm).
Qed.

Lemma OperationsByAddress_from_start_witness :
  exists L, Sorted (scan_order false) L
    /\ (OperationsByAddress example_database "A" true false "" 4 callback_continue tt).2
       = page_of 4 L.
Proof.
  destruct (OperationsByAddress_from_start example_database "A" true false 4
              callback_continue tt) as (L & HP & HS & Hpre & Hall).
  destruct (Hall eq_refl callback_continue_never_stops) as [_ E].
  by exists L.
Defined.

(** X4. [Operations] delivers matches of its filter only, in ascending
    [(height, index)] order forward and descending order in reverse: a prefix
    of the sorted matches, and their page when the server answers and the
    callback never stops. *)
Theorem Operations_scan {T : Type} (st : Database) (filter : bsonM)
    (load reverse : bool) (limit : Z)
    (callback : Hash -> OperationValue -> T -> bool * option error * T) (s : T) :
  exists L : list OperationDoc,
    L ≡ₚ List.filter (matches filter) (col_op (database st))
    /\ Sorted (scan_order reverse) L
    /\ (Operations st filter load reverse limit callback s).2 `prefix_of` L
    /\ (down (database st) = false -> never_stops callback ->
        (Operations st filter load reverse limit callback s).1.1 = None
        /\ (Operations st filter load reverse limit callback s).2 = page_of limit L).
Proof.
  destruct (sorted_matches filter reverse (col_op (database st))) as [HP HS].
  eexists. split; [exact HP |]. split; [exact HS |].
  rewrite Operations_Find. cbv zeta. cbn [fst snd].
  destruct (Find_delivered load callback (database st) filter reverse limit s)
    as [[k Hk] Hall].
  split; [rewrite Hk; apply take_page_prefix | exact Hall].
Qed.

Lemma Operations_scan_witness :
  (Operations example_database (M_and [M_field FieldHeight OpEq 1]) true false 2
     callback_continue tt).1.1 = None
  /\ length (Operations example_database (M_and [M_field FieldHeight OpEq 1]) true false 2
               callback_continue tt).2 = 2%nat.
Proof.
  destruct (Operations_scan example_database (M_and [M_field FieldHeight OpEq 1]) true
              false 2 callback_continue tt) as (L & HP & HS & Hpre & Hall).
  destruct (Hall eq_refl callback_continue_never_stops) as [Herr _].
  split; [exact Herr | reflexivity].
Defined.

(** The operations of one height, as the listing by height asks for them. *)
Example Operations_by_height :
  (fun d => od_index d)
    <$> (Operations example_database (M_and [M_field FieldHeight OpEq 1]) true false 0
           callback_continue tt).2
  = [1; 4; 7].
Proof. vm_compute. reflexivity. Qed.

(** *** Following a cursor *)

#[local] Instance scan_order_trans reverse : Transitive (scan_order reverse).
Proof. unfold scan_order. intros x y z. destruct reverse; lia. Qed.

Lemma scan_order_both reverse x y :
  scan_order reverse x y -> scan_order reverse y x -> op_key x = op_key y.
Proof. unfold scan_order, op_key. destruct reverse; intros; f_equal; lia. Qed.

Lemma beyond_offset_strict reverse d x :
  beyond_offset reverse (od_height d) (od_index d) x
  <-> scan_order reverse d x /\ op_key x <> op_key d.
Proof.
  unfold beyond_offset, scan_order, op_key. destruct reverse.
  - split.
    + intros H. split; [lia |]. intros [= ? ?]. lia.
    + intros [H Hne].
      destruct (decide (od_height x = od_height d)) as [Eh | ?]; [| lia].
      destruct (decide (od_index x = od_index d)) as [Ei | ?]; [| lia].
      destruct Hne. by rewrite Eh, Ei.
  - split.
    + intros H. split; [lia |]. intros [= ? ?]. lia.
    + intros [H Hne].
      destruct (decide (od_height x = od_height d)) as [Eh | ?]; [| lia].
      destruct (decide (od_index x = od_index d)) as [Ei | ?]; [| lia].
      destruct Hne. by rewrite Eh, Ei.
Qed.

Lemma NoDup_fmap_inj {A B} (f : A -> B) (l : list A) (x y : A) :
  NoDup (f <$> l) -> x ∈ l -> y ∈ l -> f x = f y -> x = y.
Proof.
  induction l as [| a l IH]; [by intros _ ?%elem_of_nil |].
  rewrite fmap_cons, NoDup_cons.
  intros [Hnotin Hnd] [-> | Hx]%elem_of_cons [-> | Hy]%elem_of_cons Hf; try done.
  - destruct Hnotin. rewrite Hf. apply list_elem_of_fmap. by exists y.
  - destruct Hnotin. rewrite <- Hf. apply list_elem_of_fmap. by exists x.
  - by apply IH.
Qed.

(** Two sorted arrangements of the same records with distinct sort keys are
    the same list. *)
Lemma sorted_scan_unique reverse (L1 L2 : list OperationDoc) :
  NoDup (op_key <$> L1) -> L1 ≡ₚ L2 ->
  Sorted (scan_order reverse) L1 -> Sorted (scan_order reverse) L2 -> L1 = L2.
Proof.
  intros Hnd HP H1 H2. apply (Sorted_unique_strong (scan_order reverse)); try done.
  intros x1 x2 Hx1 Hx2 H12 H21. apply (NoDup_fmap_inj op_key L1); try done.
  - by rewrite HP.
  - by apply (scan_order_both reverse).
Qed.

Lemma filter_none {A} (P : A -> Prop) `{!forall x, Decision (P x)} (l : list A) :
  (forall x, x ∈ l -> ~ P x) -> filter P l = [].
Proof.
  induction l as [| x l IH]; intros Hno; [reflexivity |].
  rewrite filter_cons_False by (apply Hno; by left). apply IH. intros y Hy.
  apply Hno. by right.
Qed.

Lemma filter_all {A} (P : A -> Prop) `{!forall x, Decision (P x)} (l : list A) :
  (forall x, x ∈ l -> P x) -> filter P l = l.
Proof.
  induction l as [| x l IH]; intros Hall; [reflexivity |].
  rewrite filter_cons_True by (apply Hall; by left). f_equal. apply IH. intros y Hy.
  apply Hall. by right.
Qed.

(** In a sorted list with distinct keys the records past the [k]-th are
    those after it. *)
Lemma filter_beyond_drop reverse (L : list OperationDoc) (k : nat) (d : OperationDoc) :
  Sorted (scan_order reverse) L -> NoDup (op_key <$> L) -> L !! k = Some d ->
  filter (beyond_offset reverse (od_height d) (od_index d)) L = drop (S k) L.
Proof.
  intros HS Hnd Hk. apply Sorted_StronglySorted in HS; [| apply _].
  rewrite <- (take_drop_middle L k d Hk) in HS, Hnd.
  rewrite <- (take_drop_middle L k d Hk) at 1.
  apply StronglySorted_app in HS as (Hcross & Hs1 & Hs2).
  apply StronglySorted_cons in Hs2 as [Hafter Hs2].
  rewrite filter_app, filter_cons_False
    by (rewrite beyond_offset_strict; by intros [_ ?]).
  rewrite (filter_none _ (take k L)).
  - cbn [app]. apply filter_all. intros y Hy. apply beyond_offset_strict. split.
    + rewrite Forall_forall in Hafter. by apply Hafter.
    + intros Heq. rewrite fmap_app, fmap_cons in Hnd.
      apply NoDup_app in Hnd as (_ & _ & Hnd). apply NoDup_cons in Hnd as [Hnotin _].
      apply Hnotin. rewrite <- Heq. apply list_elem_of_fmap. by exists y.
  - intros x Hx. rewrite beyond_offset_strict. intros [Hdx Hne]. apply Hne.
    apply (scan_order_both reverse); [| done]. apply (Hcross x d Hx). by left.
Qed.

(** The full scan of an address and the scan from the cursor of one of its
    records, on a store where the records of the address have distinct
    [(height, index)]. *)
Lemma scan_from_cursor (st : Database) (address : Address) (reverse : bool)
    (f0 f1 : bsonM) (k : nat) (d : OperationDoc) :
  NoDup (op_key <$> filter (fun d => StateAddressKeyPrefix address ∈ od_addresses d)
                           (col_op (database st))) ->
  buildOperationsFilterByAddress address "" reverse = Ok f0 ->
  buildOperationsFilterByAddress address
    (buildOffset (od_height d) (od_index d)) reverse = Ok f1 ->
  is_int64 (od_height d) -> is_uint64 (od_index d) ->
  merge_sort (sort_le (if reverse then -1 else 1))
    (List.filter (matches f0) (col_op (database st))) !! k = Some d ->
  merge_sort (sort_le (if reverse then -1 else 1))
    (List.filter (matches f1) (col_op (database st)))
  = drop (S k) (merge_sort (sort_le (if reverse then -1 else 1))
                  (List.filter (matches f0) (col_op (database st)))).
Proof.
  intros Hnd Hf0 Hf1 Hh Hi Hk.
  destruct (build_filter_no_offset address reverse) as (f0' & Hf0' & Hm0).
  rewrite Hf0 in Hf0'. injection Hf0' as <-.
  destruct (build_filter_matches address _ reverse _ _
              (parseOffset_of_buildOffset _ _ Hh Hi)) as (f1' & Hf1' & Hm1).
  rewrite Hf1 in Hf1'. injection Hf1' as <-.
  destruct (sorted_matches f0 reverse (col_op (database st))) as [HP0 HS0].
  destruct (sorted_matches f1 reverse (col_op (database st))) as [HP1 HS1].
  set (L0 := merge_sort _ (List.filter (matches f0) _)) in *.
  set (L1 := merge_sort _ (List.filter (matches f1) _)) in *.
  rewrite (filter_bool_prop _ _ _ Hm0) in HP0.
  rewrite (filter_bool_prop _ _ _ Hm1) in HP1.
  assert (NoDup (op_key <$> L0)) as Hnd0 by by rewrite HP0.
  assert (L1 ≡ₚ drop (S k) L0) as HP.
  { rewrite <- (filter_beyond_drop reverse L0 k d HS0 Hnd0 Hk).
    rewrite HP1, HP0, list_filter_filter. apply Permutation_refl'.
    apply list_filter_iff. intros x. tauto. }
  apply (sorted_scan_unique reverse); try done.
  - rewrite HP. rewrite <- (take_drop (S k) L0) in Hnd0.
    rewrite fmap_app in Hnd0. by apply NoDup_app in Hnd0 as (_ & _ & ?).
  - rewrite <- (take_drop (S k) L0) in HS0.
    apply Sorted_StronglySorted in HS0; [| apply _].
    apply StronglySorted_app_1_r in HS0. by apply StronglySorted_Sorted.
Qed.

(** X5. Following a cursor leaves no gap and no duplicate.  On a store
    where the records of an address have distinct [(height, index)], when
    the server answers and the callback never stops, the scan from the offset
    built from the [k]-th record of the full scan of the address delivers the
    page of the records that come after the [k]-th in the full scan. *)
Theorem OperationsByAddress_continues {T : Type} (st : Database) (address : Address)
    (load reverse : bool) (limit : Z)
    (callback : Hash -> OperationValue -> T -> bool * option error * T) (s : T)
    (k : nat) (d : OperationDoc) :
  down (database st) = false -> never_stops callback ->
  NoDup (op_key <$> filter (fun d => StateAddressKeyPrefix address ∈ od_addresses d)
                           (col_op (database st))) ->
  (OperationsByAddress st address load reverse "" 0 callback s).2 !! k = Some d ->
  is_int64 (od_height d) -> is_uint64 (od_index d) ->
  (OperationsByAddress st address load reverse
     (buildOffset (od_height d) (od_index d)) limit callback s).2
  = page_of limit
      (drop (S k) (OperationsByAddress st address load reverse "" 0 callback s).2).
Proof.
  intros Hup Hgo Hnd Hk Hh Hi.
  destruct (build_filter_no_offset address reverse) as (f0 & Hf0 & _).
  destruct (build_filter_matches address _ reverse _ _
              (parseOffset_of_buildOffset _ _ Hh Hi)) as (f1 & Hf1 & _).
  destruct (OperationsByAddress_delivers st address load reverse "" 0 callback s f0 Hf0)
    as [_ H0]. destruct (H0 Hup Hgo) as [_ E0].
  destruct (OperationsByAddress_delivers st address load reverse
              (buildOffset (od_height d) (od_index d)) limit callback s f1 Hf1)
    as [_ H1]. destruct (H1 Hup Hgo) as [_ E1].
  rewrite E1. rewrite E0 in Hk |- *. change (page_of 0 ?L) with L in Hk |- *.
  f_equal. by apply (scan_from_cursor st address reverse f0 f1 k d).
Qed.

(** X6. The reverse scan is the forward scan read backwards.  On a store
    where the records of an address have distinct [(height, index)], when
    the server answers and the callback never stops, the full reverse scan
    of the address delivers the records of the full forward scan in the
    opposite order. *)
Theorem OperationsByAddress_reverse_mirror {T : Type} (st : Database)
    (address : Address) (load : bool)
    (callback : Hash -> OperationValue -> T -> bool * option error * T) (s : T) :
  down (database st) = false -> never_stops callback ->
  NoDup (op_key <$> filter (fun d => StateAddressKeyPrefix address ∈ od_addresses d)
                           (col_op (database st))) ->
  (OperationsByAddress st address load true "" 0 callback s).2
  = reverse (OperationsByAddress st address load false "" 0 callback s).2.
Proof.
  intros Hup Hgo Hnd.
  destruct (build_filter_no_offset address true) as (fr & Hfr & Hmr).
  destruct (build_filter_no_offset address false) as (ff & Hff & Hmf).
  destruct (OperationsByAddress_delivers st address load true "" 0 callback s fr Hfr)
    as [_ Hr]. destruct (Hr Hup Hgo) as [_ ->].
  destruct (OperationsByAddress_delivers st address load false "" 0 callback s ff Hff)
    as [_ Hf]. destruct (Hf Hup Hgo) as [_ ->].
  change (page_of 0 ?L) with L.
  destruct (sorted_matches fr true (col_op (database st))) as [HPr HSr].
  destruct (sorted_matches ff false (col_op (database st))) as [HPf HSf].
  set (Lr := merge_sort _ (List.filter (matches fr) _)) in *.
  set (Lf := merge_sort _ (List.filter (matches ff) _)) in *.
  rewrite (filter_bool_prop _ _ _ Hmr) in HPr.
  rewrite (filter_bool_prop _ _ _ Hmf) in HPf.
  apply (sorted_scan_unique true); try done.
  - by rewrite HPr.
  - by rewrite HPr, reverse_Permutation, HPf.
  - apply Sorted_reverse in HSf. exact HSf.
Qed.

Lemma example_keys_distinct :
  NoDup (op_key <$> filter (fun d => StateAddressKeyPrefix "A" ∈ od_addresses d)
                           (col_op (database example_database))).
Proof. apply (bool_decide_unpack _). vm_compute. exact I. Qed.

Lemma OperationsByAddress_continues_witness :
  (OperationsByAddress example_database "A" true false "" 0 callback_continue tt).2 !! 2%nat
  = Some (example_operation "A" 6)
  /\ (fun d => (od_height d, od_index d))
       <$> (OperationsByAddress example_database "A" true false
              (buildOffset 0 6) 3 callback_continue tt).2
     = [(0, 9); (1, 1); (1, 4)].
Proof.
  assert ((OperationsByAddress example_database "A" true false "" 0
             callback_continue tt).2 !! 2%nat = Some (example_operation "A" 6)) as Hk
    by (vm_compute; reflexivity).
  split; [exact Hk |].
  change (buildOffset 0 6)
    with (buildOffset (od_height (example_operation "A" 6))
                      (od_index (example_operation "A" 6))).
  rewrite (OperationsByAddress_continues example_database "A" true false 3
             callback_continue tt 2 (example_operation "A" 6) eq_refl
             callback_continue_never_stops example_keys_distinct Hk
             ltac:(vm_compute; split; discriminate)
             ltac:(vm_compute; split; discriminate)).
  vm_compute. reflexivity.
Defined.

Lemma OperationsByAddress_reverse_mirror_witness :
  (fun d => od_index d)
    <$> (OperationsByAddress example_database "A" true true "" 0 callback_continue tt).2
  = [8; 5; 2; 7; 4; 1; 9; 6; 3; 0].
Proof.
  rewrite (OperationsByAddress_reverse_mirror example_database "A" true
             callback_continue tt eq_refl callback_continue_never_stops
             example_keys_distinct).
  vm_compute. reflexivity.
Defined.

(** *** What the callback is handed *)

Lemma cursor_record load docs (s : list (Hash * OperationValue)) log :
  cursor_each (operations_cursor load callback_record) docs (s, log)
  = (None,
     (s ++ ((fun d => if load then (ov_fact (od_value d), od_value d)
                      else (od_fact d, OperationValue_zero)) <$> docs),
      log ++ docs)).
Proof.
  revert s log. induction docs as [| d docs IH]; intros s log.
  - cbn. by rewrite !app_nil_r.
  - cbn [cursor_each]. unfold operations_cursor at 1.
    unfold loadOperationHash, loadOperation, callback_record at 1 2. cbn [fst snd].
    destruct load; cbn [negb]; rewrite IH, fmap_cons, <- !app_assoc; reflexivity.
Qed.

(** X7. What a scan hands to the callback: with [load] the fact hash of the
    stored value and the stored value; without [load] the fact hash of the
    record and the zero [OperationValue], for every record delivered, in the
    order of delivery. *)
Theorem OperationsByAddress_hands_over (st : Database) (address : Address)
    (load reverse : bool) (offset : string) (limit : Z) :
  (OperationsByAddress st address load reverse offset limit callback_record []).1.2
  = (fun d => if load then (ov_fact (od_value d), od_value d)
              else (od_fact d, OperationValue_zero))
      <$> (OperationsByAddress st address load reverse offset limit callback_record []).2.
Proof.
  unfold OperationsByAddress.
  destruct (buildOperationsFilterByAddress address offset reverse) as [f | e]; [| done].
  unfold Find. destruct (down (database st)); [done |].
  by rewrite cursor_record.
Qed.

Example OperationsByAddress_hash_only :
  (OperationsByAddress example_database "A" false false "1,4" 2 callback_record []).1.2
  = [("fact-7", OperationValue_zero); ("fact-2", OperationValue_zero)].
Proof. vm_compute. reflexivity. Qed.

(** *** A malformed offset *)

Lemma parseOffset_error_kind s e : parseOffset s = Err e -> err_kind e = ErrOther.
Proof.
  unfold parseOffset. destruct (SplitN_comma_2 s) as [| n0 [| n1 l]]; try by intros [= <-].
  destruct (NewHeightFromString n0); [| by intros [= <-]].
  destruct (ParseUint n1); [by intros [= <-] | done].
Qed.

(** X8. An offset that is not empty and that [parseOffset] refuses stops
    the query before the store is asked: [OperationsByAddress] returns the
    error of [parseOffset], delivers nothing and leaves the state of the
    callback as it was; the handler renders the error as a problem document
    with status 500, and does not cache it. *)
Theorem handleAccountOperations_malformed_offset (U : Util) (hd : Handlers)
    (r : Request) (shared : bool) (address : Address) (err : error) :
  let offset := parseOffsetQuery U (rq_offset r) in
  let limit := parseLimitQuery U (rq_limit r) in
  let reverse := parseBoolQuery U (rq_reverse r) in
  hd_DecodeAddress hd (rq_address r) = Ok address ->
  hd_cache hd (CacheKey (rq_path r)
                 [stringOffsetQuery U offset; stringBoolQuery U "reverse" reverse]) = None ->
  offset <> "" -> parseOffset offset = Err err ->
  (forall (T : Type) load lim
          (callback : Hash -> OperationValue -> T -> bool * option error * T) (s : T),
      OperationsByAddress (hd_database hd) address load reverse offset lim callback s
      = (Some err, s, []))
  /\ rs_status (handleAccountOperations U hd r shared) = StatusInternalServerError
  /\ rs_mimetype (handleAccountOperations U hd r shared) = ProblemMimetype
  /\ rs_cache (handleAccountOperations U hd r shared) = None.
Proof.
  intros offset limit reverse Ha Hc Hne Hp.
  assert (forall (T : Type) load lim
            (callback : Hash -> OperationValue -> T -> bool * option error * T) (s : T),
             OperationsByAddress (hd_database hd) address load reverse offset lim callback s
             = (Some err, s, [])) as Hscan.
  { intros T load lim callback s. unfold OperationsByAddress, buildOperationsFilterByAddress.
    rewrite Hp. by destruct offset. }
  split; [exact Hscan |].
  rewrite (handleAccountOperations_miss U hd r shared address Ha Hc).
  fold offset limit reverse. unfold handleAccountOperationsInGroup, account_operations_scan.
  rewrite Hscan. unfold HTTP2HandleError, Is.
  rewrite (parseOffset_error_kind _ _ Hp). by repeat split.
Qed.

Lemma handleAccountOperations_malformed_offset_witness :
  hd_DecodeAddress example_handlers "A" = Ok "A"
  /\ parseOffset "12" = Err (Errorf "invalid offset")
  /\ rs_status (handleAccountOperations example_util example_handlers
                  (example_request "3" "12" "") false) = StatusInternalServerError.
Proof.
  split; [reflexivity |]. split; [reflexivity |].
  destruct (handleAccountOperations_malformed_offset example_util example_handlers
              (example_request "3" "12" "") false "A" (Errorf "invalid offset")
              eq_refl eq_refl ltac:(discriminate) eq_refl) as (_ & Hs & _).
  exact Hs.
Defined.

(** *** Pages that are never marked as filled *)

Lemma collect_length (hd : Handlers) docs (vas : list OperationHal) log err vas' log' :
  cursor_each (operations_cursor true (collect_operation_hal hd)) docs (vas, log)
  = (err, (vas', log')) ->
  (length vas' + length log <= length log' + length vas)%nat.
Proof.
  revert vas log. induction docs as [| d docs IH]; intros vas log.
  - cbn. intros [= <- <- <-]. lia.
  - cbn [cursor_each]. rewrite collect_step.
    destruct (hd_buildOperationHal hd (od_value d)) as [hal | e].
    + intros Hr. apply IH in Hr. rewrite !length_app in Hr. cbn [length] in Hr. lia.
    + intros [= <- <- <-]. rewrite length_app. cbn. lia.
Qed.

Lemma account_operations_scan_length (hd : Handlers) address offset l reverse :
  let r := account_operations_scan hd address offset l reverse in
  (length r.1.2 <= length r.2)%nat
  /\ (0 < account_operations_limit hd l ->
      (length r.2 <= Z.to_nat (Z.min (account_operations_limit hd l) maxLimit))%nat).
Proof.
  cbv zeta. unfold account_operations_scan, OperationsByAddress.
  destruct (buildOperationsFilterByAddress address offset reverse) as [f | e];
    [| cbn; split; [lia | intros; lia]].
  pose proof (Find_delivered_length true (collect_operation_hal hd)
                (database (hd_database hd)) f reverse (account_operations_limit hd l) [])
    as Hlen.
  unfold Find in *. destruct (down (database (hd_database hd))).
  - cbn. split; [lia | intros; lia].
  - match goal with |- context [cursor_each ?cb ?docs ?s0] =>
      destruct (cursor_each cb docs s0) as [err [vas delivered]] eqn:Ec end.
    apply collect_length in Ec. cbn in *. split; [lia | exact Hlen].
Qed.

(** X9. A page asked for with a limit that is zero or negative (no limit
    is set then) or above [maxLimit] (the store caps the page at 50 items)
    is never marked as filled, however many items it holds; when it is
    cached, it expires with [expireNotFilled]. *)
Theorem account_operations_never_filled (U : Util) (hd : Handlers) (r : Request)
    (address : Address) (b : bytes) (filled : bool) :
  let offset := parseOffsetQuery U (rq_offset r) in
  let limit := parseLimitQuery U (rq_limit r) in
  let reverse := parseBoolQuery U (rq_reverse r) in
  let cachekey := CacheKey (rq_path r)
                    [stringOffsetQuery U offset; stringBoolQuery U "reverse" reverse] in
  hd_DecodeAddress hd (rq_address r) = Ok address ->
  hd_cache hd cachekey = None ->
  handleAccountOperationsInGroup U hd address offset limit reverse = (b, filled, None) ->
  account_operations_limit hd limit <= 0 \/ maxLimit < account_operations_limit hd limit ->
  filled = false
  /\ rs_cache (handleAccountOperations U hd r false)
     = Some (cachekey, hd_expireNotFilled hd).
Proof.
  intros offset limit reverse cachekey Ha Hc Hok Hlim.
  assert (filled = false) as ->.
  { destruct (handleAccountOperationsInGroup_ok U hd address offset limit reverse b
                filled Hok) as (vas & delivered & hal & Hscan & Hne & _ & _ & ->).
    apply Z.eqb_neq.
    destruct (account_operations_scan_length hd address offset limit reverse) as [H1 H2].
    rewrite Hscan in H1, H2. cbn [fst snd] in H1, H2.
    destruct Hlim as [Hle | Hgt].
    - destruct vas; [done |]. cbn [length]. lia.
    - specialize (H2 ltac:(unfold maxLimit in *; lia)). unfold maxLimit in *. lia. }
  split; [reflexivity |].
  rewrite (handleAccountOperations_miss U hd r false address Ha Hc).
  fold offset limit reverse cachekey. rewrite Hok. cbn. by rewrite andb_false_r.
Qed.

Lemma account_operations_never_filled_witness :
  hd_DecodeAddress example_handlers "A" = Ok "A"
  /\ rs_cache (handleAccountOperations example_util example_handlers
                 (example_request "0" "0,0" "") false)
     = Some ("/account/A/operations-offset=0,0,", 3 * Second).
Proof.
  split; [reflexivity |].
  destruct (account_operations_never_filled example_util example_handlers
              (example_request "0" "0,0" "") "A" "hal:9" false
              eq_refl eq_refl ltac:(vm_compute; reflexivity)
              ltac:(left; vm_compute; discriminate)) as [_ Hc].
  exact Hc.
Defined.

(** ** More on the store *)

(** X10. Looking an operation up by its fact hash, on a server that
    answers: the answer says that the operation exists exactly when a record
    with this fact hash is stored, never with an error; with [load] the value
    is that of a stored record with this hash, without [load] it is the zero
    value; so both ways of asking agree on existence. *)
Theorem Operation_lookup (st : Database) (h : Hash) (load : bool) :
  down (database st) = false ->
  (Operation st h load).2 = None
  /\ ((Operation st h load).1.2 = true
      <-> exists d, d ∈ col_op (database st) /\ od_fact d = h)
  /\ (Operation st h load).1.2 = (Operation st h (negb load)).1.2
  /\ (load = false -> (Operation st h load).1.1 = OperationValue_zero)
  /\ (load = true -> (Operation st h load).1.2 = true ->
      exists d, d ∈ col_op (database st) /\ od_fact d = h
                /\ (Operation st h load).1.1 = od_value d).
Proof.
  intros Hup.
  assert (forall l, existsb (fun d => String.eqb (od_fact d) h) l = true
                    <-> exists d, d ∈ l /\ od_fact d = h) as Hex.
  { intros l. rewrite existsb_exists. split.
    - intros (d & Hd & Hq%String.eqb_eq). exists d. by rewrite list_elem_of_In.
    - intros (d & Hd & Hq). exists d. rewrite <- list_elem_of_In.
      by rewrite Hq, String.eqb_refl. }
  assert (forall l, match List.filter (fun d => String.eqb (od_fact d) h) l with
                    | [] => existsb (fun d => String.eqb (od_fact d) h) l = false
                    | res :: _ => existsb (fun d => String.eqb (od_fact d) h) l = true
                                  /\ res ∈ l /\ od_fact res = h
                    end) as Hfirst.
  { induction l as [| d l IH]; [reflexivity |]. cbn [List.filter existsb].
    destruct (String.eqb_spec (od_fact d) h) as [Hq | Hq].
    - split; [reflexivity |]. split; [by left | done].
    - cbn [orb]. destruct (List.filter _ l); [done |].
      destruct IH as (? & ? & ?). split; [done |]. split; [by right | done]. }
  assert (forall ld, (Operation st h ld).1.2
                     = existsb (fun d => String.eqb (od_fact d) h) (col_op (database st))
                     /\ (Operation st h ld).2 = None
                     /\ (ld = false -> (Operation st h ld).1.1 = OperationValue_zero)
                     /\ (ld = true -> (Operation st h ld).1.2 = true ->
                         exists d, d ∈ col_op (database st) /\ od_fact d = h
                                   /\ (Operation st h ld).1.1 = od_value d)) as Hop.
  { intros ld. unfold Operation, Exists, GetByFilter_first. rewrite Hup.
    destruct ld; cbn [negb].
    - specialize (Hfirst (col_op (database st))).
      destruct (List.filter _ (col_op (database st))) as [| res ?].
      + cbn. rewrite Hfirst. repeat split; done.
      + destruct Hfirst as (-> & Hres & Hh). cbn.
        repeat split; try done. intros _ _. by exists res.
    - cbn. repeat split; done. }
  destruct (Hop load) as (E & Herr & Hzero & Hval).
  destruct (Hop (negb load)) as (E' & _).
  split; [exact Herr |]. split; [by rewrite E, Hex |]. split; [by rewrite E, E' |].
  split; [exact Hzero | exact Hval].
Qed.

Lemma Operation_lookup_witness :
  down (database example_database) = false
  /\ (Operation example_database "fact-4" true).1.2 = true
  /\ (Operation example_database "fact-4" false).1.2 = true.
Proof.
  split; [reflexivity |].
  destruct (Operation_lookup example_database "fact-4" true eq_refl)
    as (_ & Hex & Hboth & _).
  assert ((Operation example_database "fact-4" true).1.2 = true) as H.
  { apply Hex. exists (example_operation "A" 4). split; [| reflexivity].
    apply list_elem_of_In. vm_compute. do 4 right. left. reflexivity. }
  split; [exact H |]. exact (eq_trans (eq_sym Hboth) H).
Defined.

Example Operation_missing :
  Operation example_database "fact-77" true = (OperationValue_zero, false, None)
  /\ Operation example_database "fact-77" false = (OperationValue_zero, false, None).
Proof. split; reflexivity. Qed.

(** X11. A read-only store is never written: [SetLastBlock], [Clean] and
    [CleanByHeight] return the error "readonly mode" and leave the store and
    the marker as they are, and [Initialize] loads the marker without
    touching the storage. *)
Theorem readonly_never_writes (defaultIndexes : list ColName) (h : Height)
    (st : Database) :
  readonly st = true ->
  SetLastBlock h st = (Some (Errorf "readonly mode"), st)
  /\ Clean st = (Some (Errorf "readonly mode"), st)
  /\ CleanByHeight h st = (Some (Errorf "readonly mode"), st)
  /\ createIndex defaultIndexes st = Some (Errorf "readonly mode")
  /\ database (Initialize defaultIndexes st).2 = database st
  /\ readonly (Initialize defaultIndexes st).2 = true
  /\ (down (database st) = false ->
      (Initialize defaultIndexes st).1 = None
      /\ lastBlock (Initialize defaultIndexes st).2
         = default NilHeight (info (database st) !! DigestStorageLastBlockKey)).
Proof.
  intros Hro. unfold SetLastBlock, Clean, CleanByHeight, createIndex. rewrite Hro.
  do 4 (split; [reflexivity |]).
  unfold Initialize, loadLastBlock, Info.
  destruct (down (database st)); [by repeat split |].
  destruct (info (database st) !! DigestStorageLastBlockKey) as [b |]; cbn;
    rewrite ?Hro; by repeat split.
Qed.

Lemma readonly_never_writes_witness :
  readonly (NewReadonlyDatabase example_mongo) = true
  /\ CleanByHeight 1 (NewReadonlyDatabase example_mongo)
     = (Some (Errorf "readonly mode"), NewReadonlyDatabase example_mongo)
  /\ lastBlock (Initialize [defaultColNameOperation] (NewReadonlyDatabase example_mongo)).2
     = 2.
Proof.
  split; [reflexivity |].
  destruct (readonly_never_writes [defaultColNameOperation] 1
              (NewReadonlyDatabase example_mongo) eq_refl)
    as (_ & _ & Hc & _ & _ & _ & Hi).
  split; [exact Hc |]. destruct (Hi eq_refl) as [_ ->]. reflexivity.
Defined.

(** *** The persisted marker *)

Lemma setLastBlock_sync (h : Height) (st : Database) :
  marker_in_sync st -> marker_in_sync (setLastBlock h st).2.
Proof.
  unfold marker_in_sync, setLastBlock, SetInfo.
  destruct (down (database st)); [done |]. intros _. cbn.
  by rewrite lookup_insert_eq.
Qed.

Lemma drop_collections_info cols m :
  info (drop_collections cols m).2 = info m.
Proof.
  revert m. induction cols as [| c cols IH]; intros m; [reflexivity |].
  cbn [drop_collections]. unfold Drop. destruct (down m) eqn:E; [reflexivity |].
  rewrite IH. by destruct c.
Qed.

Lemma remove_collections_info cols h m :
  info (remove_collections cols h m).2 = info m.
Proof.
  revert m. induction cols as [| c cols IH]; intros m; [reflexivity |].
  cbn [remove_collections]. unfold BulkWrite_removeByHeight.
  destruct (down m) eqn:E; [reflexivity |]. rewrite IH. by destruct c.
Qed.

Lemma clean_sync (st : Database) : marker_in_sync st -> marker_in_sync (clean st).2.
Proof.
  intros Hs. unfold clean.
  pose proof (drop_collections_info
                [defaultColNameAccount; defaultColNameDocument; defaultColNameBalance;
                 defaultColNameOperation; defaultColNameFileData] (database st)) as Hi.
  destruct (drop_collections _ (database st)) as [[e |] m]; cbn [snd] in Hi.
  - unfold marker_in_sync in *. cbn. by rewrite Hi.
  - apply setLastBlock_sync. unfold marker_in_sync in *. cbn. by rewrite Hi.
Qed.

Lemma cleanByHeight_sync (h : Height) (st : Database) :
  marker_in_sync st -> marker_in_sync (cleanByHeight h st).2.
Proof.
  intros Hs. unfold cleanByHeight.
  destruct (h <=? PreGenesisHeight + 1); [by apply clean_sync |].
  pose proof (remove_collections_info
                [defaultColNameAccount; defaultColNameDocument; defaultColNameBalance;
                 defaultColNameOperation] h (database st)) as Hi.
  destruct (remove_collections _ h (database st)) as [[e |] m]; cbn [snd] in Hi.
  - unfold marker_in_sync in *. cbn. by rewrite Hi.
  - apply setLastBlock_sync. unfold marker_in_sync in *. cbn. by rewrite Hi.
Qed.

(** X12. The marker in memory and the persisted one stay equal: when the
    marker of a store is the one persisted under [digest_last_block],
    it still is after [SetLastBlock], [Clean] and [CleanByHeight], whatever
    they return. *)
Theorem marker_stays_in_sync (h : Height) (st : Database) :
  marker_in_sync st ->
  marker_in_sync (SetLastBlock h st).2
  /\ marker_in_sync (Clean st).2
  /\ marker_in_sync (CleanByHeight h st).2.
Proof.
  intros Hs. unfold SetLastBlock, Clean, CleanByHeight.
  destruct (readonly st); [done |]. split; [| split].
  - destruct (h <=? lastBlock st); [done | by apply setLastBlock_sync].
  - by apply clean_sync.
  - by apply cleanByHeight_sync.
Qed.

Lemma marker_stays_in_sync_witness :
  marker_in_sync example_database
  /\ marker_in_sync (SetLastBlock 5 example_database).2
  /\ lastBlock (SetLastBlock 5 example_database).2 = 5.
Proof.
  assert (marker_in_sync example_database) as Hs by reflexivity.
  split; [exact Hs |].
  destruct (marker_stays_in_sync 5 example_database Hs) as (H1 & _).
  split; [exact H1 | reflexivity].
Defined.

(** *** Start-up *)

Lemma create_indexes_up cols m : down m = false -> create_indexes cols m = None.
Proof.
  intros Hup. induction cols as [| c cols IH]; [reflexivity |].
  cbn. unfold CreateIndex. by rewrite Hup.
Qed.

Lemma cleanByHeight_rollback (h : Height) (st : Database) :
  down (database st) = false -> 0 < h ->
  exists m, cleanByHeight h st = (None, mkDatabase m (readonly st) (h - 1))
    /\ col_ac m = keep_below acd_height h (col_ac (database st))
    /\ col_dm m = keep_below dm_height h (col_dm (database st))
    /\ col_bl m = keep_below bl_height h (col_bl (database st))
    /\ col_op m = keep_below od_height h (col_op (database st))
    /\ col_fd m = col_fd (database st)
    /\ info m !! DigestStorageLastBlockKey = Some (h - 1).
Proof.
  intros Hup Hpos. unfold cleanByHeight. change (PreGenesisHeight + 1) with 0.
  destruct (Z.leb_spec h 0); [lia |].
  cbn [remove_collections]. unfold BulkWrite_removeByHeight.
  repeat (cbn [down col_ac col_dm col_bl col_op col_fd info]; rewrite ?Hup).
  unfold with_database, setLastBlock, SetInfo. cbn. eexists. split; [reflexivity |].
  cbn. repeat split. by rewrite lookup_insert_eq.
Qed.

(** X13. Start-up rolls back what lies above the marker.  On a writable
    store whose server answers and whose persisted marker is a height [h]
    with [0 <= h < maxInt64], [Initialize] succeeds, takes [h] as the marker,
    keeps it persisted, and leaves in the account, document, balance and
    operation collections exactly the records of height at most [h]; the
    file collection is left as it is. *)
Theorem Initialize_rolls_back (defaultIndexes : list ColName) (st : Database)
    (h : Height) :
  readonly st = false -> down (database st) = false ->
  info (database st) !! DigestStorageLastBlockKey = Some h ->
  0 <= h < maxInt64 ->
  exists st', Initialize defaultIndexes st = (None, st')
    /\ lastBlock st' = h /\ marker_in_sync st'
    /\ (forall d, d ∈ col_ac (database st') <-> d ∈ col_ac (database st) /\ acd_height d <= h)
    /\ (forall d, d ∈ col_dm (database st') <-> d ∈ col_dm (database st) /\ dm_height d <= h)
    /\ (forall d, d ∈ col_bl (database st') <-> d ∈ col_bl (database st) /\ bl_height d <= h)
    /\ (forall d, d ∈ col_op (database st') <-> d ∈ col_op (database st) /\ od_height d <= h)
    /\ col_fd (database st') = col_fd (database st).
Proof.
  intros Hrw Hup Hinfo Hh. unfold Initialize, loadLastBlock, Info.
  unfold Height in Hinfo. rewrite Hup, Hinfo. cbn [readonly]. rewrite Hrw. cbn [negb].
  unfold createIndex. cbn [readonly database]. rewrite ?Hrw.
  rewrite create_indexes_up by done.
  rewrite wrap_int64_small by (revert Hh; int_consts; lia).
  destruct (cleanByHeight_rollback (h + 1) (mkDatabase (database st) false h))
    as (m & -> & Ha & Hd & Hb & Ho & Hf & Hi); [done | lia |].
  cbn [database readonly] in *. replace (h + 1 - 1) with h in * by lia.
  eexists. split; [reflexivity |]. cbn [lastBlock database].
  split; [reflexivity |].
  split; [unfold marker_in_sync, Height in *; cbn; by rewrite Hi |].
  rewrite Ha, Hd, Hb, Ho, Hf.
  repeat (split; [intros d; rewrite elem_of_keep_below; split; intros [? ?];
                  (split; [done | lia]) |]).
  reflexivity.
Qed.

Lemma Initialize_rolls_back_witness :
  readonly (NewDatabase example_mongo) = false
  /\ info example_mongo !! DigestStorageLastBlockKey = Some 2
  /\ exists st', Initialize [defaultColNameOperation] (NewDatabase example_mongo)
                 = (None, st') /\ lastBlock st' = 2.
Proof.
  split; [reflexivity |]. split; [reflexivity |].
  destruct (Initialize_rolls_back [defaultColNameOperation] (NewDatabase example_mongo) 2
              eq_refl eq_refl eq_refl ltac:(vm_compute; split; [discriminate | reflexivity]))
    as (st' & E & Hl & _).
  by exists st'.
Defined.

Lemma setLastBlock_ok_sync (h : Height) (st st' : Database) :
  setLastBlock h st = (None, st') -> marker_in_sync st'.
Proof.
  unfold setLastBlock, SetInfo, marker_in_sync.
  destruct (down (database st)); [done |]. intros [= <-]. cbn.
  by rewrite lookup_insert_eq.
Qed.

Lemma cleanByHeight_ok_sync (h : Height) (st st' : Database) :
  cleanByHeight h st = (None, st') -> marker_in_sync st'.
Proof.
  unfold cleanByHeight, clean.
  destruct (h <=? PreGenesisHeight + 1).
  - destruct (drop_collections _ _) as [[e |] m]; [done |]. apply setLastBlock_ok_sync.
  - destruct (remove_collections _ _ _) as [[e |] m]; [done |]. apply setLastBlock_ok_sync.
Qed.

(** X14. After a start-up that returned nil the marker in memory is the
    persisted one, [NilHeight] when none is persisted, on a writable and on
    a read-only store alike; and without a persisted marker nothing is
    rolled back: the storage is left as it is. *)
Theorem Initialize_in_sync (defaultIndexes : list ColName) (st : Database) :
  (Initialize defaultIndexes st).1 = None ->
  marker_in_sync (Initialize defaultIndexes st).2
  /\ (info (database st) !! DigestStorageLastBlockKey = None ->
      Initialize defaultIndexes st
      = (None, mkDatabase (database st) (readonly st) NilHeight)).
Proof.
  unfold Initialize, loadLastBlock, Info, marker_in_sync, Height.
  destruct (down (database st)); [done |].
  destruct (info (database st) !! DigestStorageLastBlockKey) as [h |] eqn:Hinfo.
  - cbn [readonly]. destruct (readonly st) eqn:Hro; cbn [negb].
    + intros _. split; [| done]. cbn. by rewrite Hinfo.
    + destruct (createIndex _ _); [done |].
      destruct (cleanByHeight _ _) as [[e |] st'] eqn:Hc; [done |]. intros _.
      split; [| done]. cbn. by apply cleanByHeight_ok_sync in Hc.
  - intros _. split; [| done]. cbn. by rewrite Hinfo.
Qed.

Lemma Initialize_in_sync_witness :
  (Initialize [defaultColNameOperation] (NewDatabase example_mongo)).1 = None
  /\ marker_in_sync (Initialize [defaultColNameOperation] (NewDatabase example_mongo)).2.
Proof.
  split; [reflexivity |].
  exact (proj1 (Initialize_in_sync [defaultColNameOperation] (NewDatabase example_mongo)
                  eq_refl)).
Defined.

(** *** Digesting *)

Lemma SetLastBlock_ok (h : Height) (st : Database) :
  (SetLastBlock h st).1 = None ->
  readonly st = false /\ lastBlock (SetLastBlock h st).2 = Z.max (lastBlock st) h.
Proof.
  unfold SetLastBlock. destruct (readonly st); [done |].
  destruct (Z.leb_spec h (lastBlock st)).
  - intros _. split; [done |]. cbn. lia.
  - unfold setLastBlock, SetInfo. destruct (down (database st)); [done |].
    intros _. split; [done |]. cbn. lia.
Qed.

Lemma SetLastBlock_bounds (h : Height) (st : Database) :
  lastBlock st <= lastBlock (SetLastBlock h st).2 <= Z.max (lastBlock st) h.
Proof.
  unfold SetLastBlock. destruct (readonly st); [cbn; lia |].
  destruct (Z.leb_spec h (lastBlock st)); [cbn; lia |].
  unfold setLastBlock, SetInfo. destruct (down (database st)); cbn; lia.
Qed.

Section Digesting.
Context {Block BlockSession : Type} (ops : BlockSessionOps Block BlockSession).
Hypothesis Hkeep : session_keeps_marker ops.

Lemma DigestBlock_bounds (st : Database) (blk : Block) :
  lastBlock st <= lastBlock (DigestBlock ops st blk).2
  <= Z.max (lastBlock st) (blk_Height ops blk).
Proof.
  unfold DigestBlock.
  destruct (NewBlockSession ops st blk) as [bs | e]; [| cbn; lia].
  pose proof (Prepare_marker ops Hkeep bs st) as HP.
  destruct (Prepare ops bs st) as [[[e1 |] bs1] st1]; cbn [snd] in HP.
  { cbn. rewrite Close_marker by done. lia. }
  pose proof (Commit_marker ops Hkeep bs1 st1) as HC.
  destruct (Commit ops bs1 st1) as [[[e2 |] bs2] st2]; cbn [snd] in HC.
  { cbn. rewrite Close_marker by done. lia. }
  pose proof (SetLastBlock_bounds (blk_Height ops blk) st2) as HS.
  destruct (SetLastBlock (blk_Height ops blk) st2) as [r st3]. cbn in *.
  rewrite Close_marker by done. lia.
Qed.

End Digesting.

(** X15. A digest that returned nil leaves the marker at the greater of the
    old marker and the block's height: digesting a block at or below the
    marker succeeds without moving it. *)
Theorem DigestBlock_success_marker {Block BlockSession : Type}
    (ops : BlockSessionOps Block BlockSession) (st : Database) (blk : Block) :
  session_keeps_marker ops ->
  (DigestBlock ops st blk).1 = None ->
  lastBlock (DigestBlock ops st blk).2 = Z.max (lastBlock st) (blk_Height ops blk).
Proof.
  intros Hkeep. unfold DigestBlock.
  destruct (NewBlockSession ops st blk) as [bs | e]; [| done].
  pose proof (Prepare_marker ops Hkeep bs st) as HP.
  destruct (Prepare ops bs st) as [[[e1 |] bs1] st1]; cbn [snd] in HP; [done |].
  pose proof (Commit_marker ops Hkeep bs1 st1) as HC.
  destruct (Commit ops bs1 st1) as [[[e2 |] bs2] st2]; cbn [snd] in HC; [done |].
  pose proof (SetLastBlock_ok (blk_Height ops blk) st2) as HS.
  destruct (SetLastBlock (blk_Height ops blk) st2) as [r st3]. cbn in *.
  intros ->. destruct (HS eq_refl) as [_ HS']. rewrite Close_marker by done. lia.
Qed.

Lemma DigestBlock_success_marker_witness :
  (DigestBlock (example_session (fun _ => false) (fun _ => false)) example_database 1).1
  = None
  /\ lastBlock (DigestBlock (example_session (fun _ => false) (fun _ => false))
                  example_database 1).2 = 2.
Proof.
  split; [reflexivity |].
  exact (DigestBlock_success_marker (example_session (fun _ => false) (fun _ => false))
           example_database 1 (example_session_keeps_marker _ _) eq_refl).
Defined.

(** X16. Over any sequence of digests on one store, failed ones and
    repeated blocks included, the marker never moves back, and where it ends
    is where it started or the height of one of the blocks. *)
Theorem digest_blocks_marker {Block BlockSession : Type}
    (ops : BlockSessionOps Block BlockSession) (st : Database) (blks : list Block) :
  session_keeps_marker ops ->
  lastBlock st <= lastBlock (digest_blocks ops st blks)
  /\ (lastBlock (digest_blocks ops st blks) = lastBlock st
      \/ exists blk, blk ∈ blks
                     /\ lastBlock (digest_blocks ops st blks) = blk_Height ops blk).
Proof.
  intros Hkeep. revert st. induction blks as [| blk blks IH]; intros st;
    cbn [digest_blocks].
  { split; [lia | by left]. }
  destruct (IH (DigestBlock ops st blk).2) as (Hle & Hor).
  pose proof (DigestBlock_bounds ops Hkeep st blk) as Hb.
  pose proof (DigestBlock_cases ops Hkeep st blk) as Hc.
  split; [lia |].
  destruct Hor as [Heq | (b & Hb' & Heq)].
  - destruct Hc as [Hsame | (? & ? & ? & ? & ? & _ & _ & _ & _ & Hh)].
    + left. congruence.
    + right. exists blk. split; [by left | congruence].
  - right. exists b. split; [by right | done].
Qed.

Lemma digest_blocks_marker_witness :
  lastBlock example_database
  <= lastBlock (digest_blocks (example_session (fun h => h =? 4) (fun _ => false))
                  example_database [3; 5; 4; 1])
  /\ lastBlock (digest_blocks (example_session (fun h => h =? 4) (fun _ => false))
                  example_database [3; 5; 4; 1]) = 5.
Proof.
  split; [| reflexivity].
  exact (proj1 (digest_blocks_marker (example_session (fun h => h =? 4) (fun _ => false))
                  example_database [3; 5; 4; 1] (example_session_keeps_marker _ _))).
Defined.

(** ** More on accounts *)

Lemma Account_cases (st : Database) (a : Address) :
  down (database st) = false ->
  ((forall d, d ∈ col_ac (database st) -> acd_address d <> StateAddressKeyPrefix a)
   /\ Account st a = Some (AccountValue_zero, false, None))
  \/ (exists res ams lastHeight previousHeight,
        res ∈ col_ac (database st)
        /\ acd_address res = StateAddressKeyPrefix a
        /\ (forall d, d ∈ col_ac (database st) ->
                      acd_address d = StateAddressKeyPrefix a ->
                      acd_height d <= acd_height res)
        /\ Account st a
           = Some (mkAccountValue (av_ac (acd_value res)) ams lastHeight previousHeight,
                   true, None)
        /\ balance_post st a ams lastHeight previousHeight).
Proof.
  intros Hup. unfold Account, Account_record.
  destruct (GetByFilter_spec (database st) acd_height (col_ac (database st))
              (fun d => String.eqb (acd_address d) (StateAddressKeyPrefix a))
              loadAccountValue Hup)
    as [(Hnone & e & -> & ->) | (res & Hin & Hq & Hmax & ->)].
  - left. split; [| done]. intros d Hd Ha. specialize (Hnone d Hd). cbn in Hnone.
    by rewrite Ha, String.eqb_refl in Hnone.
  - right. destruct (balance_spec st a Hup) as (ams & lh & ph & -> & Hpost).
    exists res, ams, lh, ph. apply String.eqb_eq in Hq.
    split; [done |]. split; [done |]. split; [| split; [reflexivity | done]].
    intros d Hd Ha. apply Hmax; [done |]. cbn. by rewrite Ha, String.eqb_refl.
Qed.

(** X17. [Account(a)] always answers on a server that answers: the loop
    over the currencies ends.  Without an account record of the address it
    answers not found, with no error; otherwise it answers found with the
    account of a record of the address of the greatest height. *)
Theorem Account_lookup (st : Database) (a : Address) :
  down (database st) = false ->
  ((forall d, d ∈ col_ac (database st) -> acd_address d <> StateAddressKeyPrefix a)
   /\ Account st a = Some (AccountValue_zero, false, None))
  \/ (exists res ams lastHeight previousHeight,
        res ∈ col_ac (database st)
        /\ acd_address res = StateAddressKeyPrefix a
        /\ (forall d, d ∈ col_ac (database st) ->
                      acd_address d = StateAddressKeyPrefix a ->
                      acd_height d <= acd_height res)
        /\ Account st a
           = Some (mkAccountValue (av_ac (acd_value res)) ams lastHeight previousHeight,
                   true, None)).
Proof.
  intros Hup.
  destruct (Account_cases st a Hup) as [H | (res & ams & lh & ph & H1 & H2 & H3 & H4 & _)].
  - by left.
  - right. by exists res, ams, lh, ph.
Qed.

Lemma Account_lookup_witness :
  down (database example_database) = false
  /\ Account example_database "B" = Some (AccountValue_zero, false, None).
Proof.
  split; [reflexivity |].
  destruct (Account_lookup example_database "B" eq_refl)
    as [[_ H] | (res & ams & lh & ph & _ & _ & _ & H)]; [exact H |].
  vm_compute in H. discriminate H.
Defined.

Example Account_server_down (m : Mongo) (a : Address) :
  down m = true ->
  Account (NewDatabase m) a
  = Some (AccountValue_zero, false, Some (WrapStorageError mongo_error)).
Proof.
  intros Hd. unfold Account, Account_record, GetByFilter. cbn. by rewrite Hd.
Qed.

Lemma Account_record_cases (st : Database) (a : Address) :
  down (database st) = false ->
  ((forall d, d ∈ col_ac (database st) -> acd_address d <> StateAddressKeyPrefix a)
   /\ exists e, Account_record st a = Err e /\ Is e ErrNotFound = true)
  \/ (exists res,
        res ∈ col_ac (database st)
        /\ acd_address res = StateAddressKeyPrefix a
        /\ (forall d, d ∈ col_ac (database st) ->
                      acd_address d = StateAddressKeyPrefix a ->
                      acd_height d <= acd_height res)
        /\ Account_record st a = Ok (acd_value res)).
Proof.
  intros Hup. unfold Account_record.
  destruct (GetByFilter_spec (database st) acd_height (col_ac (database st))
              (fun d => String.eqb (acd_address d) (StateAddressKeyPrefix a))
              loadAccountValue Hup)
    as [(Hnone & e & He & Hnf) | (res & Hin & Hq & Hmax & Hres)].
  - left. split; [| by exists e]. intros d Hd Ha. specialize (Hnone d Hd). cbn in Hnone.
    by rewrite Ha, String.eqb_refl in Hnone.
  - right. exists res. apply String.eqb_eq in Hq.
    split; [done |]. split; [done |]. split; [| done].
    intros d Hd Ha. apply Hmax; [done |]. cbn. by rewrite Ha, String.eqb_refl.
Qed.

(** X18. What the digest writes is what the query reads: in a store whose
    account records are the [NewAccountDoc] of account values, for the
    address of a value that is above every other value of its address the
    account lookup of [Account] reads this value and no other; [Account]
    answers found with its account and the balances read, and, when the
    first lookup of [balance] is not answered, this value as it was written,
    not found, and the storage error. *)
Theorem Account_of_written (st : Database) (rss : list AccountValue)
    (rs : AccountValue) :
  down (database st) = false ->
  col_ac (database st) = NewAccountDoc <$> rss ->
  rs ∈ rss ->
  (forall rs', rs' ∈ rss -> ac_address (av_ac rs') = ac_address (av_ac rs) ->
               rs' = rs \/ av_height rs' < av_height rs) ->
  Account_record st (ac_address (av_ac rs)) = Ok rs
  /\ (exists ams lastHeight previousHeight,
        Account st (ac_address (av_ac rs))
        = Some (mkAccountValue (av_ac rs) ams lastHeight previousHeight, true, None))
  /\ (forall up : nat -> bool, up 0%nat = true -> up 1%nat = false ->
        Account_during up st (ac_address (av_ac rs))
        = Some (rs, false, Some (WrapStorageError mongo_error))).
Proof.
  intros Hup Hcol Hin Htop.
  assert (Account_record st (ac_address (av_ac rs)) = Ok rs) as Hrec.
  { destruct (Account_record_cases st (ac_address (av_ac rs)) Hup)
      as [[Hnone _] | (res & Hres & Ha & Hmax & ->)].
    - destruct (Hnone (NewAccountDoc rs)); [| reflexivity].
      rewrite Hcol. by apply list_elem_of_fmap_2.
    - rewrite Hcol in Hres. apply list_elem_of_fmap in Hres as (rs' & -> & Hrs').
      specialize (Hmax (NewAccountDoc rs)). rewrite Hcol in Hmax.
      specialize (Hmax (list_elem_of_fmap_2 _ _ _ Hin) eq_refl). cbn in Hmax, Ha.
      unfold StateAddressKeyPrefix in Ha.
      destruct (Htop rs' Hrs' Ha) as [-> | Hlt]; [done | lia]. }
  split; [exact Hrec |]. split.
  - destruct (Account_during_cases (fun _ => true) st _ rs eq_refl Hrec)
      as (ams & lh & ph & _ & HA & _). by exists ams, lh, ph.
  - intros up Hup0 Hup1.
    destruct (Account_during_cases up st _ rs Hup0 Hrec)
      as (ams & lh & ph & _ & _ & _ & Hfail).
    apply Hfail. exists 1%nat. split; [lia | done].
Qed.

Lemma Account_of_written_witness :
  Account_record example_database_accounts "A"
  = Ok (mkAccountValue (mkAccount "A") [] 3 1)
  /\ exists ams lastHeight previousHeight,
       Account example_database_accounts "A"
       = Some (mkAccountValue (mkAccount "A") ams lastHeight previousHeight, true, None).
Proof.
  destruct (Account_of_written example_database_accounts
              [mkAccountValue (mkAccount "A") [] 1 0;
               mkAccountValue (mkAccount "A") [] 3 1;
               mkAccountValue (mkAccount "B") [] 5 2]
              (mkAccountValue (mkAccount "A") [] 3 1) eq_refl eq_refl)
    as (Hrec & HA & _).
  - right. left.
  - intros rs' Hrs' Ha.
    repeat (apply elem_of_cons in Hrs' as [-> | Hrs']); cbn in *;
      [right; lia | by left | discriminate | by apply elem_of_nil in Hrs'].
  - split; [exact Hrec | exact HA].
Defined.

(** ** The account handler *)

(** X19. A request for an account that has no record, on a server that
    answers and past the cache: the answer is a problem document of status
    404 whose message names the address, ["account, <address> not found"],
    and nothing is cached. *)
Theorem handleAccount_not_found (docs : string) (U : Util)
    (enc : AccountHal -> result bytes) (hd : Handlers) (r : Request) (shared : bool)
    (address : Address) :
  hd_cache hd (rq_path r) = None ->
  hd_DecodeAddress hd (rq_address r) = Ok address ->
  down (database (hd_database hd)) = false ->
  (forall d, d ∈ col_ac (database (hd_database hd)) ->
             acd_address d <> StateAddressKeyPrefix address) ->
  handleAccount docs U enc hd r shared
  = Some (HTTP2ProblemWithError U
            (NotFoundError_Errorf ("account, " +:+ address +:+ " not found"))
            StatusNotFound).
Proof.
  intros Hmiss Hdec Hup Hnone. unfold handleAccount, handleAccountInGroup.
  rewrite Hmiss, Hdec.
  destruct (Account_cases (hd_database hd) address Hup)
    as [[_ ->] | (res & ? & ? & ? & Hres & Ha & _)]; [reflexivity |].
  by destruct (Hnone res Hres).
Qed.

Lemma handleAccount_not_found_witness :
  handleAccount "/account/{address}/documents" example_util example_account_enc
    example_handlers (example_account_request "B") false
  = Some (mkResponse 404 ProblemMimetype "account, B not found" None).
Proof.
  apply (handleAccount_not_found "/account/{address}/documents" example_util
           example_account_enc example_handlers (example_account_request "B") false "B"
           eq_refl eq_refl eq_refl).
  intros d Hd. apply list_elem_of_singleton in Hd as ->. discriminate.
Defined.

(** X20. What [handleAccount] caches.  A cached body is served under the
    request path before the address is looked at; otherwise the only answer
    written to the cache is the document of an account that was found, with
    status 200, under the request path and for two seconds, and only when
    the result was not shared with another request. *)
Theorem handleAccount_cache (docs : string) (U : Util)
    (enc : AccountHal -> result bytes) (hd : Handlers) (r : Request) (shared : bool) :
  exists resp, handleAccount docs U enc hd r shared = Some resp
  /\ (forall b, hd_cache hd (rq_path r) = Some b ->
                resp = mkResponse StatusOK HALMimetype b None)
  /\ (rs_cache resp = None
      \/ (rs_cache resp = Some (rq_path r, 2 * Second)
          /\ shared = false
          /\ rs_status resp = StatusOK
          /\ rs_mimetype resp = HALMimetype
          /\ hd_cache hd (rq_path r) = None
          /\ exists address va hal,
               hd_DecodeAddress hd (rq_address r) = Ok address
               /\ Account (hd_database hd) address = Some (va, true, None)
               /\ buildAccountHal docs hd va = Ok hal
               /\ enc hal = Ok (rs_body resp))).
Proof.
  unfold handleAccount, handleAccountInGroup.
  destruct (hd_cache hd (rq_path r)) as [b |] eqn:Hc.
  { eexists. split; [reflexivity |]. split; [by intros ? [= <-] | by left]. }
  destruct (hd_DecodeAddress hd (rq_address r)) as [address | e] eqn:Hdec.
  2: { eexists. split; [reflexivity |]. split; [done | by left]. }
  assert (exists x, Account (hd_database hd) address = Some x) as [[[va found] err] HA].
  { unfold Account. destruct (Account_record (hd_database hd) address) as [rs | e] eqn:Hr.
    - destruct (balance_spec (hd_database hd) address (Account_record_up _ _ _ Hr))
        as (ams & lh & ph & -> & _). by eexists.
    - destruct (Is e ErrNotFound); by eexists. }
  rewrite HA.
  destruct err as [e |].
  { destruct found; (eexists; split; [reflexivity |]; split; [done | by left]). }
  destruct found.
  2: { eexists. split; [reflexivity |]. split; [done | by left]. }
  destruct (buildAccountHal docs hd va) as [hal | e] eqn:Hhal.
  2: { eexists. split; [reflexivity |]. split; [done | by left]. }
  destruct (enc hal) as [v | e] eqn:Henc.
  2: { eexists. split; [reflexivity |]. split; [done | by left]. }
  eexists. split; [reflexivity |]. split; [done |].
  destruct shared; [by left |]. right. cbn.
  split; [reflexivity |]. do 4 (split; [reflexivity |]). by exists address, va, hal.
Qed.

Lemma handleAccount_cache_witness :
  exists resp,
    handleAccount "/account/{address}/documents" example_util example_account_enc
      example_handlers (example_account_request "A") false = Some resp
    /\ rs_cache resp = Some ("/account/A", 2 * Second)
    /\ rs_body resp = "account:A".
Proof.
  destruct (handleAccount_cache "/account/{address}/documents" example_util
              example_account_enc example_handlers (example_account_request "A") false)
    as (resp & E & _ & _).
  exists resp. split; [exact E |]. vm_compute in E. by injection E as <-.
Defined.

(** X21. The links of an account document.  A document that was built
    carries the account value; its [block] link is the route of the block
    at the height of the value; and it has a [previous_block] link, to the
    block at the previous height, exactly when the previous height is above
    [PreGenesisHeight]. *)
Theorem buildAccountHal_links (docs : string) (hd : Handlers) (va : AccountValue)
    (hal : AccountHal) :
  buildAccountHal docs hd va = Ok hal ->
  hal_i hal = va
  /\ (exists h, combineURL hd HandlerPathBlockByHeight
                  ["height"; FormatInt (av_height va)] = Ok h
                /\ hal_links hal !! "block" = Some (NewHalLink h))
  /\ (av_previousHeight va <= PreGenesisHeight ->
      hal_links hal !! "previous_block" = None)
  /\ (PreGenesisHeight < av_previousHeight va ->
      exists h, combineURL hd HandlerPathBlockByHeight
                  ["height"; FormatInt (av_previousHeight va)] = Ok h
                /\ hal_links hal !! "previous_block" = Some (NewHalLink h)).
Proof.
  unfold buildAccountHal, Height_String.
  destruct (combineURL hd HandlerPathAccount _) as [h1 | e]; [| done].
  destruct (combineURL hd HandlerPathAccountOperations _) as [h2 | e]; [| done].
  destruct (combineURL hd docs _) as [h3 | e]; [| done].
  destruct (combineURL hd HandlerPathBlockByHeight
              ["height"; FormatInt (av_height va)]) as [h4 | e] eqn:E4; [| done].
  destruct (Z.gtb_spec (av_previousHeight va) PreGenesisHeight) as [Hgt | Hle].
  - destruct (combineURL hd HandlerPathBlockByHeight
                ["height"; FormatInt (av_previousHeight va)]) as [h5 | e] eqn:E5; [| done].
    intros [= <-]. split; [reflexivity |].
    split; [exists h4; split; [done | by vm_compute] |].
    split; [lia |]. intros _. exists h5. split; [done |]. cbn.
    by rewrite lookup_insert_eq.
  - intros [= <-]. split; [reflexivity |].
    split; [exists h4; split; [done | by vm_compute] |].
    split; [intros _; by vm_compute | lia].
Qed.

Lemma buildAccountHal_links_witness :
  exists hal,
    buildAccountHal "/account/{address}/documents" example_handlers
      (mkAccountValue (mkAccount "A") [] 2 1) = Ok hal
    /\ hal_links hal !! "previous_block"
       = Some (NewHalLink "/block/{height:[0-9]+}:height,1").
Proof.
  eexists. split; [reflexivity |].
  destruct (buildAccountHal_links "/account/{address}/documents" example_handlers
              (mkAccountValue (mkAccount "A") [] 2 1) _ eq_refl)
    as (_ & _ & _ & Hprev).
  destruct (Hprev ltac:(reflexivity)) as (h & Hh & ->).
  vm_compute in Hh. by injection Hh as <-.
Defined.

(** ** The cache of the operations handler *)

(** X22. The cache key of the operations of an account leaves the limit
    out: once an answer has been cached, a request of the same path, offset
    and direction is served the cached page, whatever its limit. *)
Theorem account_operations_cache_ignores_limit (U : Util) (hd hd' : Handlers)
    (r r' : Request) (shared' : bool) (key : string) (expire : Z) (address' : Address) :
  rs_cache (handleAccountOperations U hd r false) = Some (key, expire) ->
  rq_path r' = rq_path r ->
  rq_offset r' = rq_offset r ->
  rq_reverse r' = rq_reverse r ->
  hd_DecodeAddress hd' (rq_address r') = Ok address' ->
  hd_cache hd' key = Some (rs_body (handleAccountOperations U hd r false)) ->
  handleAccountOperations U hd' r' shared'
  = mkResponse StatusOK HALMimetype (rs_body (handleAccountOperations U hd r false)) None.
Proof.
  intros Hc Hp Ho Hr Hdec Hhit.
  assert (key = CacheKey (rq_path r)
                  [stringOffsetQuery U (parseOffsetQuery U (rq_offset r));
                   stringBoolQuery U "reverse" (parseBoolQuery U (rq_reverse r))]) as Hkey.
  { revert Hc. unfold handleAccountOperations.
    destruct (hd_DecodeAddress hd (rq_address r)); [| done].
    destruct (hd_cache hd _); [done |].
    destruct (handleAccountOperationsInGroup _ _ _ _ _ _) as [[b filled] [e |]]; [done |].
    cbn. by intros [= <- _]. }
  unfold handleAccountOperations at 1. rewrite Hdec, Hp, Ho, Hr, <- Hkey, Hhit.
  reflexivity.
Qed.

Lemma account_operations_cache_ignores_limit_witness :
  handleAccountOperations example_util
    (mkHandlers example_database
       (fun k => if String.eqb k "/account/A/operations-offset=," then Some "hal:3" else None)
       (fun _ => 3) (3 * Second) (hd_routes_URL example_handlers)
       (hd_routes_URLPath example_handlers) (hd_enc_Marshal example_handlers)
       (hd_buildOperationHal example_handlers) (hd_DecodeAddress example_handlers))
    (example_request "1" "" "") false
  = mkResponse StatusOK HALMimetype "hal:3" None.
Proof.
  apply (account_operations_cache_ignores_limit example_util example_handlers _
           (example_request "3" "" "") (example_request "1" "" "") false
           "/account/A/operations-offset=," (3 * Second) "A");
    reflexivity.
Defined.

(** ** Cleaning everything *)

Lemma Clean_up (st : Database) :
  readonly st = false -> down (database st) = false ->
  Clean st
  = (None,
     mkDatabase
       (mkMongo [] [] [] [] []
          (<[DigestStorageLastBlockKey := NilHeight]> (info (database st))) false)
       false NilHeight).
Proof.
  intros Hrw Hup. unfold Clean. rewrite Hrw. unfold clean.
  cbn [drop_collections]. unfold Drop.
  repeat (cbn [down col_ac col_dm col_bl col_op col_fd info]; rewrite ?Hup).
  unfold with_database, setLastBlock, SetInfo. cbn [database down]. rewrite ?Hup.
  cbn. by rewrite Hrw.
Qed.

(** X23. [Clean] on a writable store whose server answers empties the five
    collections, the file collection among them, and resets the marker, in
    memory and persisted, to [NilHeight]; afterwards no account is found
    and no scan delivers a record.  [CleanByHeight] at the genesis height or
    below is [Clean]. *)
Theorem Clean_empties (st : Database) :
  readonly st = false -> down (database st) = false ->
  exists st', Clean st = (None, st')
    /\ col_ac (database st') = [] /\ col_dm (database st') = []
    /\ col_bl (database st') = [] /\ col_op (database st') = []
    /\ col_fd (database st') = []
    /\ lastBlock st' = NilHeight
    /\ info (database st') !! DigestStorageLastBlockKey = Some NilHeight
    /\ (forall a, Account st' a = Some (AccountValue_zero, false, None))
    /\ (forall (T : Type) a load reverse offset limit
               (callback : Hash -> OperationValue -> T -> bool * option error * T) s,
           (OperationsByAddress st' a load reverse offset limit callback s).2 = [])
    /\ (forall h, h <= GenesisHeight -> CleanByHeight h st = Clean st).
Proof.
  intros Hrw Hup. eexists. split; [by apply Clean_up |].
  cbn [database lastBlock col_ac col_dm col_bl col_op col_fd info].
  do 6 (split; [reflexivity |]).
  split; [by rewrite lookup_insert_eq |].
  split; [| split].
  - intros a. reflexivity.
  - intros T a load reverse offset limit callback s.
    unfold OperationsByAddress.
    destruct (buildOperationsFilterByAddress a offset reverse) as [f | e]; [| done].
    unfold Find. cbn.
    destruct (opt_limit (operations_options load reverse limit));
      by rewrite ?take_nil.
  - intros h Hh. unfold CleanByHeight, Clean, cleanByHeight. rewrite Hrw.
    destruct (Z.leb_spec h (PreGenesisHeight + 1)); [reflexivity |].
    unfold GenesisHeight, PreGenesisHeight in *. lia.
Qed.

Lemma Clean_empties_witness :
  readonly example_database = false
  /\ exists st', Clean example_database = (None, st')
                 /\ Account st' "A" = Some (AccountValue_zero, false, None).
Proof.
  split; [reflexivity |].
  destruct (Clean_empties example_database eq_refl eq_refl)
    as (st' & E & _ & _ & _ & _ & _ & _ & _ & HA & _).
  exists st'. split; [exact E | apply HA].
Defined.

(** ** Key flags *)

Lemma ParseUint_loop_max_bound (maxVal : Z) (s : string) (n i : Z) :
  0 <= n <= maxVal -> ParseUint_loop_max maxVal s n = inr i -> 0 <= i <= maxVal.
Proof.
  revert n. induction s as [| c s IH]; intros n Hn; cbn [ParseUint_loop_max].
  { by intros [= <-]. }
  destruct (digit_of c) as [d |]; [| done].
  destruct (n >=? cutoff64); [done |].
  destruct (Z.ltb_spec (wrap_uint64 (n * 10 + d)) (n * 10)); [done |].
  destruct (Z.gtb_spec (wrap_uint64 (n * 10 + d)) maxVal); [done |]. cbn [orb].
  apply IH. split; [| lia]. unfold wrap_uint64. apply Z.mod_pos_bound. done.
Qed.

Lemma ParseUint_bits_8_bound (s : string) (i : Z) :
  ParseUint_bits 8 s = inr i -> 0 <= i <= 255.
Proof.
  unfold ParseUint_bits. destruct s; [done |].
  change (2 ^ 8 - 1) with 255. apply ParseUint_loop_max_bound. lia.
Qed.

Lemma ParseUint_loop_max_of (maxVal : Z) (s : string) (n v : Z) :
  0 <= n <= maxVal -> ParseUint_loop s n = inr v ->
  ParseUint_loop_max maxVal s n = if v <=? maxVal then inr v else inl ErrRange.
Proof.
  revert n. induction s as [| c s IH]; intros n Hn;
    cbn [ParseUint_loop ParseUint_loop_max].
  { intros [= E]. subst v. destruct (Z.leb_spec n maxVal); [done | lia]. }
  destruct (digit_of c) as [d |] eqn:Ed; [| done].
  destruct (n >=? cutoff64); [done |]. cbv zeta.
  destruct (Z.ltb_spec (wrap_uint64 (n * 10 + d)) (n * 10)); [done |].
  destruct (Z.gtb_spec (wrap_uint64 (n * 10 + d)) maxUint64); [done |]. cbn [orb].
  intros Hv.
  assert (0 <= wrap_uint64 (n * 10 + d)) as Hpos
    by (unfold wrap_uint64; by apply Z.mod_pos_bound).
  destruct (Z.gtb_spec (wrap_uint64 (n * 10 + d)) maxVal) as [Hgt | Hle].
  - assert (wrap_uint64 (n * 10 + d) <= v) as Hge
      by (destruct (ParseUint_loop_inr s _ v Hpos Hv) as [? | [_ ?]]; lia).
    destruct (Z.leb_spec v maxVal); [lia | done].
  - apply IH; [lia | done].
Qed.

Lemma ParseUint_bits_of (bitSize : Z) (s : string) (v : Z) :
  0 <= bitSize -> ParseUint s = inr v ->
  ParseUint_bits bitSize s = if v <=? 2 ^ bitSize - 1 then inr v else inl ErrRange.
Proof.
  intros Hb. unfold ParseUint, ParseUint_bits. destruct s as [| c s]; [done |].
  apply ParseUint_loop_max_of. pose proof (Z.pow_pos_nonneg 2 bitSize). lia.
Qed.

(** X24. The weight of a key flag.  For a flag [<key>,<weight>] whose key
    text decodes and whose weight text is the number [i], the key is made by
    [NewKey] from the decoded key with the weight [i] when [1 <= i <= 100]
    and with 100 when [i] is 0 or in 101..255, which is not refused; a
    weight above 255 is refused as invalid.  And a flag that is accepted is
    such a text: cut at its first comma, the key decoded from the first
    part, the weight read off the second. *)
Theorem KeyFlag_weight {Priv Pub Key : Type} (env : KeyEnv Priv Pub Key) :
  (forall (b l0 l1 : string) (i : Z) (dk : DecodedKey Priv Pub),
      String.eqb (TrimSpace env b) "-" = false ->
      b = l0 +:+ String "," l1 ->
      (forall c, In c (list_ascii_of_string l0) -> c <> ","%char) ->
      DecodeKey env l0 = Ok dk ->
      ParseUint l1 = inr i ->
      KeyFlag_UnmarshalText env b
      = if i <=? 255 then
          match NewKey env
                  match dk with
                  | IsPrivatekey priv => Publickey env priv
                  | IsPublickey pk => pk
                  end
                  (if (1 <=? i) && (i <=? 100) then i else 100) with
          | Err err => Err err
          | Ok k =>
              match Key_IsValid env k with
              | Some _ => Err (Errorf "invalid key string")
              | None => Ok k
              end
          end
        else Err (Errorf "invalid weight for --key"))
  /\ (forall i, is_uint64 i ->
        ParseUint_bits 8 (FormatUint i) = if i <=? 255 then inr i else inl ErrRange)
  /\ (forall (b : string) (k : Key),
        KeyFlag_UnmarshalText env b = Ok k ->
        exists text l0 l1 dk i,
          (if String.eqb (TrimSpace env b) "-" then LoadFromStdInput env else Ok b)
          = Ok text
          /\ text = l0 +:+ String "," l1
          /\ (forall c, In c (list_ascii_of_string l0) -> c <> ","%char)
          /\ DecodeKey env l0 = Ok dk
          /\ ParseUint_bits 8 l1 = inr i
          /\ 0 <= i <= 255
          /\ NewKey env
               match dk with
               | IsPrivatekey priv => Publickey env priv
               | IsPublickey pk => pk
               end
               (if (1 <=? i) && (i <=? 100) then i else 100) = Ok k
          /\ 1 <= (if (1 <=? i) && (i <=? 100) then i else 100) <= 100
          /\ Key_IsValid env k = None).
Proof.
  assert (forall i, (if (i >? 0) && (i <=? 100) then i else 100)
                    = (if (1 <=? i) && (i <=? 100) then i else 100)) as Hw.
  { intros i. destruct (Z.gtb_spec i 0), (Z.leb_spec 1 i); try lia; reflexivity. }
  split; [| split].
  - intros b l0 l1 i dk Hdash -> Hno Hdk Hi. unfold KeyFlag_UnmarshalText.
    rewrite Hdash. unfold SplitN_comma_2.
    rewrite cut_comma_append by (intros c Hc; apply Ascii.eqb_neq; by apply Hno).
    rewrite Hdk, (ParseUint_bits_of 8 l1 i) by (lia || done).
    change (2 ^ 8 - 1) with 255. destruct (i <=? 255); [| reflexivity].
    by rewrite Hw.
  - intros i Hi. rewrite (ParseUint_bits_of 8 _ i); [reflexivity | lia |].
    by apply ParseUint_FormatUint.
  - intros b k. unfold KeyFlag_UnmarshalText.
    destruct (if String.eqb (TrimSpace env b) "-" then LoadFromStdInput env else Ok b)
      as [text | e]; [| done].
    unfold SplitN_comma_2. destruct (cut_comma text) as [[l0 l1] |] eqn:Ec; [| done].
    apply cut_comma_Some in Ec as [-> Hno].
    destruct (DecodeKey env l0) as [dk | e] eqn:Hdk; [| done].
    destruct (ParseUint_bits 8 l1) as [e | i] eqn:Hi; [done |].
    pose proof (ParseUint_bits_8_bound l1 i Hi) as Hb. rewrite Hw.
    destruct (NewKey env _ _) as [k' | e] eqn:Hk; [| done].
    destruct (Key_IsValid env k') eqn:Hv; [done |]. intros [= <-].
    exists (l0 +:+ String "," l1), l0, l1, dk, i.
    split; [done |]. split; [done |].
    split; [intros c Hc; apply Ascii.eqb_neq; by apply Hno |].
    do 4 (split; [done |]). split; [| done].
    destruct (Z.leb_spec 1 i), (Z.leb_spec i 100); cbn; lia.
Qed.

Lemma KeyFlag_weight_witness :
  KeyFlag_UnmarshalText example_key_env "pub,42" = Ok ("pub", 42)
  /\ KeyFlag_UnmarshalText example_key_env "pub,0" = Ok ("pub", 100)
  /\ KeyFlag_UnmarshalText example_key_env "pub,300"
     = Err (Errorf "invalid weight for --key").
Proof.
  destruct (KeyFlag_weight example_key_env) as (Hread & _ & _).
  assert (forall c, In c (list_ascii_of_string "pub") -> c <> ","%char) as Hno
    by (intros c [<- | [<- | [<- | []]]]; discriminate).
  split; [| split].
  - exact (Hread "pub,42" "pub" "42" 42 (IsPublickey "pub") eq_refl eq_refl Hno
             eq_refl eq_refl).
  - exact (Hread "pub,0" "pub" "0" 0 (IsPublickey "pub") eq_refl eq_refl Hno
             eq_refl eq_refl).
  - exact (Hread "pub,300" "pub" "300" 300 (IsPublickey "pub") eq_refl eq_refl Hno
             eq_refl eq_refl).
Defined.

Example KeyFlag_weights :
  KeyFlag_UnmarshalText example_key_env "pub,42" = Ok ("pub", 42)
  /\ KeyFlag_UnmarshalText example_key_env "pub,100" = Ok ("pub", 100)
  /\ KeyFlag_UnmarshalText example_key_env "pub,101" = Ok ("pub", 100)
  /\ KeyFlag_UnmarshalText example_key_env "pub,255" = Ok ("pub", 100)
  /\ KeyFlag_UnmarshalText example_key_env "pub,256"
     = Err (Errorf "invalid weight for --key")
  /\ KeyFlag_UnmarshalText example_key_env "pub,-1"
     = Err (Errorf "invalid weight for --key")
  /\ KeyFlag_UnmarshalText example_key_env "pub"
     = Err (Errorf "wrong formatted; <string private key>,<uint weight>").
Proof. repeat split. Qed.
